(** * CarConvo: the matching and ranking engine of [services/car_matcher.py]

    A shallow embedding of the [CarMatcher] class and the properties its
    specification states about it, followed by the [PersonalityAnalyzer]
    class of [services/personality_analyzer.py] and the routes of [app.py]
    that keep the sessions and compute the cost estimate.

    Modelling conventions.
    - Python [int] is [Z]; Python [float] is idealised as an exact real
      number ([R]): IEEE rounding of the intermediate results is not modelled.
      [round(x, 2)] is rounding to the nearest hundredth, ties to even.
    - Python [str] is [string] (ASCII); [None] is [None].
    - A Python [dict] with string keys is an insertion-ordered association
      list with unique keys ([Dict]); the nested dictionaries of a car, whose
      keys are fixed, are records.  A key that the code reads only with
      [.get(key, default)] is an optional field; a key that it indexes is a
      mandatory field.
    - A raised exception is [None] in an [option] result.
    - For the frame property of [find_matches] the dictionaries live in a
      store of objects and are passed by reference (section [Store model]).
    - The sums of the analyzer are exact rationals ([Q]).  The module state
      [conversation_sessions] of [app.py] is passed in and out of the routes;
      the reply of the language model is a function given to the chat
      route. *)

From Stdlib Require Import ZArith QArith Qround Reals Lra Lia Psatz List String Ascii Bool.
From Stdlib Require Import Sorting.Sorted.
From stdpp Require Import base list.
Import ListNotations.

Local Open Scope string_scope.
Local Open Scope list_scope.
Local Open Scope Z_scope.

(* ================================================================== *)
(** * Python strings *)
(* ================================================================== *)

Module PyStr.

Definition code (c : ascii) : N := N_of_ascii c.

Definition is_upper (c : ascii) : bool := (65 <=? code c)%N && (code c <=? 90)%N.
Definition is_lower (c : ascii) : bool := (97 <=? code c)%N && (code c <=? 122)%N.
Definition is_alpha (c : ascii) : bool := is_upper c || is_lower c.
Definition is_digit (c : ascii) : bool := (48 <=? code c)%N && (code c <=? 57)%N.

(** [str.isspace] on the ASCII range: TAB..CR, FS..US and the blank. *)
Definition is_space (c : ascii) : bool :=
  ((9 <=? code c)%N && (code c <=? 13)%N)
  || ((28 <=? code c)%N && (code c <=? 32)%N).

Definition lower_char (c : ascii) : ascii :=
  if is_upper c then ascii_of_N (code c + 32) else c.
Definition upper_char (c : ascii) : ascii :=
  if is_lower c then ascii_of_N (code c - 32) else c.

Fixpoint map_chars (f : ascii -> ascii) (s : string) : string :=
  match s with
  | EmptyString => EmptyString
  | String c s' => String (f c) (map_chars f s')
  end.

(** [s.lower()] and [s.upper()] *)
Definition lower (s : string) : string := map_chars lower_char s.
Definition upper (s : string) : string := map_chars upper_char s.

Fixpoint starts_with (p s : string) : bool :=
  match p, s with
  | EmptyString, _ => true
  | String a p', String b s' => Ascii.eqb a b && starts_with p' s'
  | String _ _, EmptyString => false
  end.

(** [needle in hay] *)
Fixpoint contains (needle hay : string) : bool :=
  starts_with needle hay ||
  match hay with
  | EmptyString => false
  | String _ hay' => contains needle hay'
  end.

(** [any(word in text for word in words)] *)
Definition any_in (words : list string) (text : string) : bool :=
  existsb (fun word => contains word text) words.

Fixpoint lstrip (s : string) : string :=
  match s with
  | String c s' => if is_space c then lstrip s' else s
  | EmptyString => EmptyString
  end.

Fixpoint rstrip (s : string) : string :=
  match s with
  | EmptyString => EmptyString
  | String c s' =>
      match rstrip s' with
      | EmptyString => if is_space c then EmptyString else String c EmptyString
      | r => String c r
      end
  end.

(** [s.strip()] *)
Definition strip (s : string) : string := rstrip (lstrip s).

(** [bool(s)] *)
Definition truthy (s : string) : bool :=
  match s with EmptyString => false | _ => true end.

(** [sep.join(parts)] *)
Definition join (sep : string) (parts : list string) : string :=
  String.concat sep parts.

(** [s[:n]], [s[n:]] and [s[a:b]] for indices inside the string *)
Fixpoint take (n : nat) (s : string) : string :=
  match n, s with
  | S n', String c s' => String c (take n' s')
  | _, _ => EmptyString
  end.

Fixpoint drop (n : nat) (s : string) : string :=
  match n, s with
  | S n', String _ s' => drop n' s'
  | _, _ => s
  end.

Definition slice (a b : nat) (s : string) : string := take (b - a) (drop a s).

(** [s.replace(a, b)] for one-character [a] and [b] *)
Definition replace_char (a b : ascii) (s : string) : string :=
  map_chars (fun c => if Ascii.eqb c a then b else c) s.

(** [s.title()]: a letter that follows a letter is lowered, any other letter is
    raised. *)
Fixpoint title_from (prev_alpha : bool) (s : string) : string :=
  match s with
  | EmptyString => EmptyString
  | String c s' =>
      String (if prev_alpha then lower_char c else upper_char c)
             (title_from (is_alpha c) s')
  end.

Definition title (s : string) : string := title_from false s.

Definition digit_value (c : ascii) : Z := Z.of_N (code c) - 48.

Fixpoint int_digits (acc : Z) (s : string) : option Z :=
  match s with
  | EmptyString => Some acc
  | String c s' =>
      if is_digit c then int_digits (10 * acc + digit_value c) s' else None
  end.

(** [int(s)] on an unsigned decimal numeral; [None] is [ValueError]. *)
Definition int (s : string) : option Z :=
  match s with
  | EmptyString => None
  | _ => int_digits 0 s
  end.

End PyStr.

(* ================================================================== *)
(** * Regular expressions: the fragment [price_patterns] is written in *)
(* ================================================================== *)

Module Re.

Inductive cls := Digit | Space.

Definition cls_match (k : cls) (c : ascii) : bool :=
  match k with
  | Digit => PyStr.is_digit c
  | Space => PyStr.is_space c
  end.

(** [Chr c] is a literal, [Cls k] is [\d] or [\s], [Star k] is the greedy
    [\d*] or [\s*], [Opt r] is the greedy [r?], [Grp n r] is the [n]-th
    capturing group. *)
Inductive regex :=
| Eps
| Chr (c : ascii)
| Cls (k : cls)
| Seq (r1 r2 : regex)
| Star (k : cls)
| Opt (r : regex)
| Grp (n : nat) (r : regex).

Fixpoint lit (s : string) : regex :=
  match s with
  | EmptyString => Eps
  | String c s' => Seq (Chr c) (lit s')
  end.

Definition plus (k : cls) : regex := Seq (Cls k) (Star k).

(** A match object: [start()], [end()] and the captured groups. *)
Record rmatch := { m_start : nat; m_end : nat; m_groups : list (nat * string) }.

(** The state of the backtracking matcher: the text not yet consumed, its
    position in the whole text, and the groups captured so far. *)
Record mstate := { rest : string; pos : nat; groups : list (nat * string) }.

Definition cont := mstate -> option mstate.

(** Greedy repetition of a character class: take one more character first,
    give it back when the continuation fails. *)
Fixpoint star (k : cls) (s : string) (p : nat) (g : list (nat * string))
         (kont : cont) : option mstate :=
  match s with
  | String c s' =>
      if cls_match k c then
        match star k s' (S p) g kont with
        | Some r => Some r
        | None => kont {| rest := s; pos := p; groups := g |}
        end
      else kont {| rest := s; pos := p; groups := g |}
  | EmptyString => kont {| rest := s; pos := p; groups := g |}
  end.

Fixpoint run (r : regex) (st : mstate) (kont : cont) : option mstate :=
  match r with
  | Eps => kont st
  | Chr c =>
      match rest st with
      | String d s' =>
          if Ascii.eqb c d
          then kont {| rest := s'; pos := S (pos st); groups := groups st |}
          else None
      | EmptyString => None
      end
  | Cls k =>
      match rest st with
      | String d s' =>
          if cls_match k d
          then kont {| rest := s'; pos := S (pos st); groups := groups st |}
          else None
      | EmptyString => None
      end
  | Seq r1 r2 => run r1 st (fun st' => run r2 st' kont)
  | Star k => star k (rest st) (pos st) (groups st) kont
  | Opt r' =>
      match run r' st kont with
      | Some res => Some res
      | None => kont st
      end
  | Grp n r' =>
      run r' st (fun st' =>
        kont {| rest := rest st'; pos := pos st';
                groups := (n, PyStr.take (pos st' - pos st) (rest st))
                          :: groups st' |})
  end.

Definition match_at (r : regex) (s : string) (p : nat) : option rmatch :=
  match run r {| rest := s; pos := p; groups := [] |} Some with
  | Some st => Some {| m_start := p; m_end := pos st; m_groups := groups st |}
  | None => None
  end.

Fixpoint search_from (r : regex) (s : string) (p : nat) : option rmatch :=
  match match_at r s p with
  | Some m => Some m
  | None =>
      match s with
      | String _ s' => search_from r s' (S p)
      | EmptyString => None
      end
  end.

(** [re.search(pattern, text)]: the match at the leftmost position that has
    one. *)
Definition search (r : regex) (text : string) : option rmatch :=
  search_from r text 0.

Fixpoint lookup_group (n : nat) (g : list (nat * string)) : option string :=
  match g with
  | [] => None
  | (k, s) :: g' => if Nat.eqb k n then Some s else lookup_group n g'
  end.

(** [match.group(n)]; [None] is [IndexError]. *)
Definition group (m : rmatch) (n : nat) : option string :=
  lookup_group n (m_groups m).

End Re.

(* ================================================================== *)
(** * Python dictionaries with string keys *)
(* ================================================================== *)

(** Insertion-ordered association lists; [dict_set] keeps the keys unique and
    an updated key in its place, as [d[k] = v] does. *)
Definition Dict (V : Type) : Type := list (string * V).

Fixpoint dict_get {V : Type} (d : Dict V) (k : string) : option V :=
  match d with
  | [] => None
  | (k', v) :: d' => if String.eqb k' k then Some v else dict_get d' k
  end.

Fixpoint dict_set {V : Type} (d : Dict V) (k : string) (v : V) : Dict V :=
  match d with
  | [] => [(k, v)]
  | (k', v') :: d' =>
      if String.eqb k' k then (k', v) :: d' else (k', v') :: dict_set d' k v
  end.

(** [k in d] *)
Definition dict_mem {V : Type} (d : Dict V) (k : string) : bool :=
  match dict_get d k with Some _ => true | None => false end.

(** [d.get(k, default)] *)
Definition dict_get_default {V : Type} (d : Dict V) (k : string) (default : V) : V :=
  match dict_get d k with Some v => v | None => default end.

Definition dict_keys {V : Type} (d : Dict V) : list string := map fst d.

(** [x.get(key, default)] on an optional record field *)
Definition get_or {V : Type} (field : option V) (default : V) : V :=
  match field with Some v => v | None => default end.

(* ================================================================== *)
(** * Data model *)
(* ================================================================== *)

Record BasicInfo := {
  make : string;
  model : string;
  body_type : string;
  msrp : Z;
  image_url : string
}.

Record Specifications := {
  mpg_combined : Z;
  horsepower : Z;
  seating_capacity : Z;
  cargo_space : option Z;
  engine : string;
  drivetrain : string
}.

Record Features := {
  safety : list string;
  technology : option (list string);
  comfort : option (list string);
  entertainment : option (list string)
}.

Record Costs := {
  insurance_annual_estimate : option Z;
  maintenance_annual_estimate : option Z
}.

(** One entry of [self.cars]. *)
Record Car := {
  car_id : string;
  basic_info : BasicInfo;
  specifications : Specifications;
  features : Features;
  lifestyle_scores : Dict Z;
  costs : Costs;
  car_pros : list string;
  car_cons : list string
}.

(** A lifestyle profile: dimension to score. *)
Definition Profile : Type := Dict Z.

(** The value under ['content'] of a conversation message. *)
Inductive content :=
| ContentAbsent
| ContentStr (s : string)
| ContentOther (truth : bool).

(** An element of [conversation_context]: a dictionary with the value of
    ['role'] when that is a string, or something that is no dictionary. *)
Inductive message :=
| MsgDict (role : option string) (c : content)
| MsgOther.

(** The [filters] dictionary of [_parse_conversation_preferences]: one
    optional field per key the parser can write. *)
Record Filters := {
  f_body_type : option string;
  f_fuel_preference : option string;
  f_min_mpg : option Z;
  f_min_horsepower : option Z;
  f_min_seating : option Z;
  f_drivetrain : option string;
  f_max_price : option Z
}.

Definition no_filters : Filters :=
  {| f_body_type := None; f_fuel_preference := None; f_min_mpg := None;
     f_min_horsepower := None; f_min_seating := None; f_drivetrain := None;
     f_max_price := None |}.

(** An assignment [filters[key] = value]. *)
Inductive fwrite :=
| SetBodyType (v : string)
| SetFuelPreference (v : string)
| SetMinMpg (v : Z)
| SetMinHorsepower (v : Z)
| SetMinSeating (v : Z)
| SetDrivetrain (v : string)
| SetMaxPrice (v : Z).

Inductive fkey :=
| KBodyType | KFuelPreference | KMinMpg | KMinHorsepower | KMinSeating
| KDrivetrain | KMaxPrice.

#[local] Instance fkey_eq_dec : EqDecision fkey.
Proof. intros a b. unfold Decision. decide equality. Defined.

Definition fwrite_key (w : fwrite) : fkey :=
  match w with
  | SetBodyType _ => KBodyType
  | SetFuelPreference _ => KFuelPreference
  | SetMinMpg _ => KMinMpg
  | SetMinHorsepower _ => KMinHorsepower
  | SetMinSeating _ => KMinSeating
  | SetDrivetrain _ => KDrivetrain
  | SetMaxPrice _ => KMaxPrice
  end.

Definition apply_fwrite (f : Filters) (w : fwrite) : Filters :=
  match w with
  | SetBodyType v =>
      {| f_body_type := Some v; f_fuel_preference := f_fuel_preference f;
         f_min_mpg := f_min_mpg f; f_min_horsepower := f_min_horsepower f;
         f_min_seating := f_min_seating f; f_drivetrain := f_drivetrain f;
         f_max_price := f_max_price f |}
  | SetFuelPreference v =>
      {| f_body_type := f_body_type f; f_fuel_preference := Some v;
         f_min_mpg := f_min_mpg f; f_min_horsepower := f_min_horsepower f;
         f_min_seating := f_min_seating f; f_drivetrain := f_drivetrain f;
         f_max_price := f_max_price f |}
  | SetMinMpg v =>
      {| f_body_type := f_body_type f; f_fuel_preference := f_fuel_preference f;
         f_min_mpg := Some v; f_min_horsepower := f_min_horsepower f;
         f_min_seating := f_min_seating f; f_drivetrain := f_drivetrain f;
         f_max_price := f_max_price f |}
  | SetMinHorsepower v =>
      {| f_body_type := f_body_type f; f_fuel_preference := f_fuel_preference f;
         f_min_mpg := f_min_mpg f; f_min_horsepower := Some v;
         f_min_seating := f_min_seating f; f_drivetrain := f_drivetrain f;
         f_max_price := f_max_price f |}
  | SetMinSeating v =>
      {| f_body_type := f_body_type f; f_fuel_preference := f_fuel_preference f;
         f_min_mpg := f_min_mpg f; f_min_horsepower := f_min_horsepower f;
         f_min_seating := Some v; f_drivetrain := f_drivetrain f;
         f_max_price := f_max_price f |}
  | SetDrivetrain v =>
      {| f_body_type := f_body_type f; f_fuel_preference := f_fuel_preference f;
         f_min_mpg := f_min_mpg f; f_min_horsepower := f_min_horsepower f;
         f_min_seating := f_min_seating f; f_drivetrain := Some v;
         f_max_price := f_max_price f |}
  | SetMaxPrice v =>
      {| f_body_type := f_body_type f; f_fuel_preference := f_fuel_preference f;
         f_min_mpg := f_min_mpg f; f_min_horsepower := f_min_horsepower f;
         f_min_seating := f_min_seating f; f_drivetrain := f_drivetrain f;
         f_max_price := Some v |}
  end.

(** [filters.get(key)], read back as the assignment that stored it. *)
Definition written (k : fkey) (f : Filters) : option fwrite :=
  match k with
  | KBodyType => option_map SetBodyType (f_body_type f)
  | KFuelPreference => option_map SetFuelPreference (f_fuel_preference f)
  | KMinMpg => option_map SetMinMpg (f_min_mpg f)
  | KMinHorsepower => option_map SetMinHorsepower (f_min_horsepower f)
  | KMinSeating => option_map SetMinSeating (f_min_seating f)
  | KDrivetrain => option_map SetDrivetrain (f_drivetrain f)
  | KMaxPrice => option_map SetMaxPrice (f_max_price f)
  end.

(** The dictionary [_parse_conversation_preferences] returns. *)
Record Preferences := {
  filters : Filters;
  lifestyle_boosts : Dict Z
}.

Definition no_preferences : Preferences :=
  {| filters := no_filters; lifestyle_boosts := [] |}.

(* ================================================================== *)
(** * [_parse_conversation_preferences] *)
(* ================================================================== *)

(** The loop that gathers the lowered user messages; [None] is an exception
    raised inside the [try] block ([content.lower()] on a value that is no
    string). *)
Fixpoint collect_user_messages (msgs : list message) (user_messages : list string)
  : option (list string) :=
  match msgs with
  | [] => Some user_messages
  | MsgDict (Some role) c :: msgs' =>
      if String.eqb role "user" then
        match c with
        | ContentAbsent => collect_user_messages msgs' user_messages
        | ContentStr s =>
            if PyStr.truthy s
            then collect_user_messages msgs' (user_messages ++ [PyStr.lower s])
            else collect_user_messages msgs' user_messages
        | ContentOther true => None
        | ContentOther false => collect_user_messages msgs' user_messages
        end
      else collect_user_messages msgs' user_messages
  | _ :: msgs' => collect_user_messages msgs' user_messages
  end.

(** [body_type_keywords], in insertion order. *)
Definition body_type_keywords : list (string * list string) :=
  [ ("suv", ["suv"; "crossover"; "suvs"]);
    ("sedan", ["sedan"; "sedans"]);
    ("truck", ["truck"; "pickup"; "trucks"]);
    ("hatchback", ["hatchback"; "hatch"]);
    ("wagon", ["wagon"; "estate"]);
    ("minivan", ["minivan"; "van"]);
    ("coupe", ["coupe"; "sports car"; "sports-car"; "sportscar"; "2-door"; "two door"]);
    ("convertible", ["convertible"; "roadster"; "cabriolet"]) ].

(** The loop over [body_type_keywords.items()] with its [break]. *)
Fixpoint detect_body_type (table : list (string * list string)) (text : string)
  : option string :=
  match table with
  | [] => None
  | (body, keywords) :: table' =>
      if PyStr.any_in keywords text then Some (PyStr.upper body)
      else detect_body_type table' text
  end.

(** One [if any(word in conversation_text for word in [...])] block: the
    words it looks for and the assignments of its body. *)
Record Rule := {
  r_words : list string;
  r_boosts : list (string * Z);
  r_filters : list fwrite
}.

Definition rule_matches (r : Rule) (text : string) : bool :=
  PyStr.any_in (r_words r) text.

Definition set_boosts (b : Dict Z) (l : list (string * Z)) : Dict Z :=
  fold_left (fun b kv => dict_set b (fst kv) (snd kv)) l b.

Definition apply_rule (text : string) (p : Preferences) (r : Rule) : Preferences :=
  if rule_matches r text then
    {| filters := fold_left apply_fwrite (r_filters r) (filters p);
       lifestyle_boosts := set_boosts (lifestyle_boosts p) (r_boosts r) |}
  else p.

Definition rule_hybrid : Rule :=
  {| r_words := ["hybrid"; "plug-in"; "phev"];
     r_boosts := [("eco_conscious", 3)];
     r_filters := [SetFuelPreference "hybrid"] |}.

Definition rule_electric : Rule :=
  {| r_words := ["electric"; "ev"; "battery"];
     r_boosts := [("eco_conscious", 4); ("tech_enthusiast", 2)];
     r_filters := [SetFuelPreference "electric"] |}.

Definition rule_fuel_efficiency : Rule :=
  {| r_words := ["fuel efficient"; "gas mileage"; "mpg"; "economical"];
     r_boosts := [("eco_conscious", 2); ("budget_conscious", 1)];
     r_filters := [SetMinMpg 30] |}.

Definition rule_family : Rule :=
  {| r_words := ["family"; "kids"; "children"; "baby"];
     r_boosts := [("family_friendly", 3); ("safety_focused", 2)];
     r_filters := [SetMinSeating 5] |}.

Definition rule_space : Rule :=
  {| r_words := ["cargo"; "space"; "room"; "spacious"];
     r_boosts := [("family_friendly", 2)];
     r_filters := [] |}.

Definition rule_performance : Rule :=
  {| r_words := ["fast"; "sporty"; "performance"; "quick"; "speed"; "hp";
                 "horsepower"; "sports car"; "sport car"];
     r_boosts := [("performance", 4)];
     r_filters := [SetMinHorsepower 200] |}.

Definition rule_luxury : Rule :=
  {| r_words := ["luxury"; "premium"; "high-end"; "upscale"];
     r_boosts := [("luxury", 3); ("tech_enthusiast", 1)];
     r_filters := [] |}.

Definition rule_adventure : Rule :=
  {| r_words := ["off-road"; "offroad"; "adventure"; "trail"; "4x4"; "awd";
                 "all-wheel"];
     r_boosts := [("adventure", 3)];
     r_filters := [SetDrivetrain "AWD"] |}.

Definition rule_safety : Rule :=
  {| r_words := ["safe"; "safety"; "secure"; "protection"];
     r_boosts := [("safety_focused", 2)];
     r_filters := [] |}.

Definition rule_tech : Rule :=
  {| r_words := ["tech"; "technology"; "infotainment"; "screen"; "connectivity"];
     r_boosts := [("tech_enthusiast", 2)];
     r_filters := [] |}.

Definition rule_commuter : Rule :=
  {| r_words := ["commute"; "commuting"; "city"; "urban"; "parking"];
     r_boosts := [("commuter", 2); ("city_driving", 2)];
     r_filters := [] |}.

(** The keyword blocks in the order the function evaluates them. *)
Definition keyword_rules : list Rule :=
  [ rule_hybrid; rule_electric; rule_fuel_efficiency; rule_family; rule_space;
    rule_performance; rule_luxury; rule_adventure; rule_safety; rule_tech;
    rule_commuter ].

(** A price pattern: its source text and its syntax tree. *)
Record Pattern := { p_src : string; p_re : Re.regex }.

Definition seqs (rs : list Re.regex) : Re.regex :=
  fold_right Re.Seq Re.Eps rs.

Definition dollar : ascii := "$"%char.

(** [<prefix>\s*\$?(\d+)k?] *)
Definition prefixed (word : string) : Re.regex :=
  seqs [ Re.lit word; Re.Star Re.Space; Re.Opt (Re.Chr dollar);
         Re.Grp 1 (Re.plus Re.Digit); Re.Opt (Re.Chr "k"%char) ].

(** [\$(\d+)k?\s*<suffix>] *)
Definition suffixed (word : string) : Re.regex :=
  seqs [ Re.Chr dollar; Re.Grp 1 (Re.plus Re.Digit); Re.Opt (Re.Chr "k"%char);
         Re.Star Re.Space; Re.lit word ].

(** [\$(\d+),?(\d{3})] *)
Definition grouped : Re.regex :=
  seqs [ Re.Chr dollar; Re.Grp 1 (Re.plus Re.Digit); Re.Opt (Re.Chr ","%char);
         Re.Grp 2 (seqs [Re.Cls Re.Digit; Re.Cls Re.Digit; Re.Cls Re.Digit]) ].

Definition price_patterns : list Pattern :=
  [ {| p_src := "under\s*\$?(\d+)k?";     p_re := prefixed "under" |};
    {| p_src := "below\s*\$?(\d+)k?";     p_re := prefixed "below" |};
    {| p_src := "less than\s*\$?(\d+)k?"; p_re := prefixed "less than" |};
    {| p_src := "\$(\d+)k?\s*or less";    p_re := suffixed "or less" |};
    {| p_src := "\$(\d+)k?\s*max";        p_re := suffixed "max" |};
    {| p_src := "budget\s*\$?(\d+)k?";    p_re := prefixed "budget" |};
    {| p_src := "\$(\d+),?(\d{3})";       p_re := grouped |} ].

(** The body of the [try] block; [None] is a [ValueError] or [IndexError]. *)
Definition price_of_match (pat : Pattern) (text : string) (m : Re.rmatch)
  : option Z :=
  if PyStr.contains "," (p_src pat) then
    match Re.group m 1, Re.group m 2 with
    | Some g1, Some g2 => PyStr.int (g1 ++ g2)%string
    | _, _ => None
    end
  else
    match Re.group m 1 with
    | Some g1 =>
        match PyStr.int g1 with
        | Some price =>
            if PyStr.contains "k"
                 (PyStr.lower (PyStr.slice (Re.m_start m) (Re.m_end m) text))
            then Some (price * 1000)
            else Some price
        | None => None
        end
    | None => None
    end.

(** The loop over [price_patterns]: the first pattern that matches and yields
    a price ends it. *)
Fixpoint extract_price (patterns : list Pattern) (text : string) : option Z :=
  match patterns with
  | [] => None
  | pat :: patterns' =>
      match Re.search (p_re pat) text with
      | Some m =>
          match price_of_match pat text m with
          | Some price => Some price
          | None => extract_price patterns' text
          end
      | None => extract_price patterns' text
      end
  end.

(** The loop over [body_type_keywords] with the assignment of its body. *)
Definition body_type_step (conversation_text : string) (p : Preferences)
  : Preferences :=
  match detect_body_type body_type_keywords conversation_text with
  | Some body =>
      {| filters := apply_fwrite (filters p) (SetBodyType body);
         lifestyle_boosts := lifestyle_boosts p |}
  | None => p
  end.

(** The loop over [price_patterns] with the assignment of its body. *)
Definition price_step (conversation_text : string) (p : Preferences)
  : Preferences :=
  match extract_price price_patterns conversation_text with
  | Some price =>
      {| filters := apply_fwrite (filters p) (SetMaxPrice price);
         lifestyle_boosts := lifestyle_boosts p |}
  | None => p
  end.

(** The part of the function that follows the early returns. *)
Definition analyse (conversation_text : string) : Preferences :=
  let p := no_preferences in
  let p := body_type_step conversation_text p in
  let p := apply_rule conversation_text p rule_hybrid in
  let p := apply_rule conversation_text p rule_electric in
  let p := apply_rule conversation_text p rule_fuel_efficiency in
  let p := apply_rule conversation_text p rule_family in
  let p := apply_rule conversation_text p rule_space in
  let p := apply_rule conversation_text p rule_performance in
  let p := apply_rule conversation_text p rule_luxury in
  let p := apply_rule conversation_text p rule_adventure in
  let p := apply_rule conversation_text p rule_safety in
  let p := apply_rule conversation_text p rule_tech in
  let p := apply_rule conversation_text p rule_commuter in
  price_step conversation_text p.

Definition _parse_conversation_preferences
  (conversation_context : option (list message)) : Preferences :=
  match conversation_context with
  | None | Some [] => no_preferences
  | Some msgs =>
      match collect_user_messages msgs [] with
      | None => no_preferences
      | Some user_messages =>
          let conversation_text := PyStr.join " " user_messages in
          if negb (PyStr.truthy conversation_text)
             || negb (PyStr.truthy (PyStr.strip conversation_text))
          then no_preferences
          else analyse conversation_text
      end
  end.

(* ================================================================== *)
(** * Lists: [list.sort], [sorted] and slices *)
(* ================================================================== *)

Section StableSort.
Context {A K : Type}.
Variable key : A -> K.
Variable lt : K -> K -> bool.

(** [sort(key=key, reverse=True)] is the stable sort into descending order
    of the keys.  It is written here as an insertion sort that puts an
    element in front of the first one with a strictly smaller key, hence
    behind nothing that compares equal and stood before it. *)
Fixpoint insert_desc (x : A) (l : list A) : list A :=
  match l with
  | [] => [x]
  | y :: l' => if lt (key x) (key y) then y :: insert_desc x l' else x :: l
  end.

Definition sort_desc (l : list A) : list A := fold_right insert_desc [] l.
End StableSort.

(** [l[:n]] for any integer [n]: a negative [n] counts from the end. *)
Definition py_prefix {A : Type} (n : Z) (l : list A) : list A :=
  if n <? 0 then firstn (length l - Z.to_nat (- n)) l
  else firstn (Z.to_nat n) l.

(** [len(l)] *)
Definition len {A : Type} (l : list A) : Z := Z.of_nat (length l).

(* ================================================================== *)
(** * The four scorers *)
(* ================================================================== *)

#[local] Instance Rlt_decision (x y : R) : Decision (x < y)%R := Rlt_dec x y.
#[local] Instance Rle_decision (x y : R) : Decision (x <= y)%R := Rle_dec x y.
#[local] Instance R_eq_decision : EqDecision R := Req_dec_T.

Section Scorers.
Local Open Scope R_scope.

(** [self.dimension_importance] *)
Definition dimension_importance : Dict R :=
  [ ("safety_focused", 12 / 10);
    ("budget_conscious", 115 / 100);
    ("eco_conscious", 11 / 10);
    ("family_friendly", 11 / 10);
    ("commuter", 1);
    ("performance", 95 / 100);
    ("tech_enthusiast", 9 / 10);
    ("luxury", 85 / 100);
    ("city_driving", 1);
    ("adventure", 9 / 10) ].

(** The three accumulators of [_calculate_cosine_similarity]. *)
Record CosineAcc := {
  dot_product : R;
  car_magnitude : R;
  user_magnitude : R
}.

(** One turn of the loop over [user_profile.keys()]; [user_profile[dimension]]
    is the value of the entry the loop stands at. *)
Definition cosine_step (car_scores : Dict Z) (acc : CosineAcc)
  (entry : string * Z) : CosineAcc :=
  let dimension := fst entry in
  match dict_get car_scores dimension with
  | Some car_score =>
      let importance := dict_get_default dimension_importance dimension 1 in
      let car_val := IZR car_score * importance in
      let user_val := IZR (snd entry) * importance in
      {| dot_product := dot_product acc + car_val * user_val;
         car_magnitude := car_magnitude acc + car_val ^ 2;
         user_magnitude := user_magnitude acc + user_val ^ 2 |}
  | None => acc
  end.

Definition cosine_sums (car_scores : Dict Z) (user_profile : Profile) : CosineAcc :=
  fold_left (cosine_step car_scores) user_profile
    {| dot_product := 0; car_magnitude := 0; user_magnitude := 0 |}.

Definition _calculate_cosine_similarity (car_scores : Dict Z)
  (user_profile : Profile) : R :=
  let acc := cosine_sums car_scores user_profile in
  if decide (0 < car_magnitude acc /\ 0 < user_magnitude acc) then
    let cosine_sim :=
      dot_product acc / (sqrt (car_magnitude acc) * sqrt (user_magnitude acc)) in
    cosine_sim * 100
  else 0.

(** [user_budget] is [None] or an integer. *)
Definition _calculate_budget_affinity (car_price : Z) (user_budget : option Z) : R :=
  match user_budget with
  | None => 85
  | Some user_budget =>
      if (user_budget =? 0)%Z || (user_budget <=? 0)%Z then 85
      else
        let price_ratio := IZR car_price / IZR user_budget in
        if decide (price_ratio <= 1) then
          let savings_ratio := 1 - price_ratio in
          100 - savings_ratio * 5
        else if decide (price_ratio <= 110 / 100) then
          let penalty := (price_ratio - 1) * 150 in
          100 - penalty
        else if decide (price_ratio <= 120 / 100) then
          let penalty := 15 + (price_ratio - 110 / 100) * 250 in
          100 - penalty
        else if decide (price_ratio <= 130 / 100) then
          let penalty := 40 + (price_ratio - 120 / 100) * 300 in
          100 - penalty
        else
          Rmax 0 (30 - (price_ratio - 130 / 100) * 50)
  end.

(** [user_profile.get(dimension, 5) / 10] *)
Definition profile_weight (user_profile : Profile) (dimension : string) : R :=
  IZR (dict_get_default user_profile dimension 5%Z) / 10.

(** [len(car['features'].get(kind, []))] *)
Definition feature_count (l : option (list string)) : Z := len (get_or l []).

Definition _calculate_feature_score (car : Car) (user_profile : Profile) : R :=
  let specs := specifications car in
  let score := 0 in
  let weight_sum := 0 in
  let eco_weight := profile_weight user_profile "eco_conscious" in
  let budget_weight := profile_weight user_profile "budget_conscious" in
  let commuter_weight := profile_weight user_profile "commuter" in
  let mpg_weight := (eco_weight + budget_weight + commuter_weight) / 3 in
  let mpg := mpg_combined specs in
  let mpg_score := Rmin 100 (IZR mpg / 50 * 100) in
  let score := score + mpg_score * mpg_weight in
  let weight_sum := weight_sum + mpg_weight in
  let perf_weight := profile_weight user_profile "performance" in
  let hp := horsepower specs in
  let hp_score := Rmin 100 (IZR hp / 400 * 100) in
  let score := score + hp_score * perf_weight in
  let weight_sum := weight_sum + perf_weight in
  let family_weight := profile_weight user_profile "family_friendly" in
  let seating := seating_capacity specs in
  let cargo := get_or (cargo_space specs) 15%Z in
  let space_score := IZR (Z.min 100 (seating * 10 + cargo * 2)) in
  let score := score + space_score * family_weight in
  let weight_sum := weight_sum + family_weight in
  let safety_weight := profile_weight user_profile "safety_focused" in
  let safety_features := len (safety (features car)) in
  let safety_score := Rmin 100 (IZR safety_features / 10 * 100) in
  let score := score + safety_score * safety_weight in
  let weight_sum := weight_sum + safety_weight in
  let tech_weight := profile_weight user_profile "tech_enthusiast" in
  let tech_features := feature_count (technology (features car)) in
  let tech_score := Rmin 100 (IZR tech_features / 8 * 100) in
  let score := score + tech_score * tech_weight in
  let weight_sum := weight_sum + tech_weight in
  if decide (0 < weight_sum) then score / weight_sum else 50.

(** [None] is the [ZeroDivisionError] of a price or a fuel economy of 0. *)
Definition _calculate_value_score (car : Car) : option R :=
  let price := msrp (basic_info car) in
  let specs := specifications car in
  let costs := costs car in
  let total_features :=
    (len (safety (features car))
     + feature_count (technology (features car))
     + feature_count (comfort (features car))
     + feature_count (entertainment (features car)))%Z in
  if (price =? 0)%Z then None else
  let feature_density := IZR total_features / (IZR price / 10000) in
  let feature_score := Rmin 100 (feature_density * 15) in
  if (mpg_combined specs =? 0)%Z then None else
  let annual_cost :=
    IZR (get_or (insurance_annual_estimate costs) 1500%Z
         + get_or (maintenance_annual_estimate costs) 500%Z)
    + 15000 / IZR (mpg_combined specs) * (350 / 100) in
  let cost_efficiency := Rmax 0 (100 - (annual_cost - 2000) / 50) in
  let mpg_value := IZR (mpg_combined specs) / (IZR price / 10000) in
  let mpg_score := Rmin 100 (mpg_value * 20) in
  let value_score :=
    feature_score * (4 / 10) + cost_efficiency * (3 / 10) + mpg_score * (3 / 10) in
  Some value_score.

(** Rounding to the nearest integer, a tie going to the even neighbour. *)
Definition round_half_even (x : R) : Z :=
  let n := Int_part x in
  let f := frac_part x in
  if decide (f < 1 / 2) then n
  else if decide (1 / 2 < f) then (n + 1)%Z
  else if Z.even n then n else (n + 1)%Z.

(** [round(x, 2)] *)
Definition round2 (x : R) : R := IZR (round_half_even (x * 100)) / 100.

End Scorers.

(* ================================================================== *)
(** * [_generate_match_reasons] *)
(* ================================================================== *)

(** The loop over [top_priorities]. *)
Definition priority_reasons (car : Car) (top_priorities : list (string * Z))
  : list string :=
  flat_map
    (fun entry =>
       let dimension := fst entry in
       let user_score := snd entry in
       if 7 <=? user_score then
         let car_score := dict_get_default (lifestyle_scores car) dimension 5 in
         if 7 <=? car_score then
           let dimension_name :=
             PyStr.title (PyStr.replace_char "_" " " dimension) in
           [("Strong " ++ dimension_name ++ " match")%string]
         else []
       else [])
    top_priorities.

Definition _generate_match_reasons (car : Car) (user_profile : Profile)
  : list string :=
  let reasons := [] in
  let top_priorities := firstn 3 (sort_desc snd Z.ltb user_profile) in
  let reasons := reasons ++ priority_reasons car top_priorities in
  let price := msrp (basic_info car) in
  let reasons :=
    if price <? 30000 then reasons ++ ["Great value"]
    else if 50000 <? price then reasons ++ ["Premium features"]
    else reasons in
  let reasons :=
    if 35 <? mpg_combined (specifications car)
    then reasons ++ ["Excellent fuel economy"] else reasons in
  let reasons :=
    if 300 <? horsepower (specifications car)
    then reasons ++ ["High performance"] else reasons in
  let reasons :=
    if 5 <? len (safety (features car))
    then reasons ++ ["Advanced safety tech"] else reasons in
  firstn 4 reasons.

(* ================================================================== *)
(** * [_meets_conversation_filters] *)
(* ================================================================== *)

(** [not filters] *)
Definition filters_empty (f : Filters) : bool :=
  match f_body_type f, f_fuel_preference f, f_min_mpg f, f_min_horsepower f,
        f_min_seating f, f_drivetrain f, f_max_price f with
  | None, None, None, None, None, None, None => true
  | _, _, _, _, _, _, _ => false
  end.

(** One [if key in filters: if <rejects>: return False]. *)
Definition rejected_by {V : Type} (field : option V) (rejects : V -> bool) : bool :=
  match field with
  | Some v => rejects v
  | None => false
  end.

Definition fuel_rejects (car : Car) (v : string) : bool :=
  let fuel_pref := PyStr.lower v in
  let engine := PyStr.lower (engine (specifications car)) in
  if String.eqb fuel_pref "hybrid" && negb (PyStr.contains "hybrid" engine)
  then true
  else String.eqb fuel_pref "electric"
       && (negb (PyStr.contains "electric" engine)
           && negb (PyStr.contains "ev" engine)).

Definition _meets_conversation_filters (car : Car) (f : Filters) : bool :=
  if filters_empty f then true
  else if rejected_by (f_body_type f)
            (fun v => negb (String.eqb (PyStr.upper (body_type (basic_info car)))
                                       (PyStr.upper v)))
  then false
  else if rejected_by (f_min_mpg f)
            (fun v => mpg_combined (specifications car) <? v)
  then false
  else if rejected_by (f_min_horsepower f)
            (fun v => horsepower (specifications car) <? v)
  then false
  else if rejected_by (f_min_seating f)
            (fun v => seating_capacity (specifications car) <? v)
  then false
  else if rejected_by (f_fuel_preference f) (fuel_rejects car)
  then false
  else if rejected_by (f_drivetrain f)
            (fun v => negb (PyStr.contains (PyStr.upper v)
                              (PyStr.upper (drivetrain (specifications car)))))
  then false
  else if rejected_by (f_max_price f)
            (fun v => v <? msrp (basic_info car))
  then false
  else true.

(* ================================================================== *)
(** * [find_matches] *)
(* ================================================================== *)

(** [car_with_score['score_breakdown']] *)
Record ScoreBreakdown := {
  lifestyle_match : R;
  budget_fit : R;
  feature_quality : R;
  value_score : R
}.

(** An element of the returned list: the copy of a car with the three keys
    [find_matches] adds to it. *)
Record ScoredCar := {
  sc_car : Car;
  match_score : R;
  score_breakdown : ScoreBreakdown;
  match_reasons : list string
}.

(** [a < b] on floats, as the sort compares its keys *)
Definition Rltb (a b : R) : bool := bool_decide (a < b)%R.

Section Ranking.
Local Open Scope R_scope.

(** One turn of the loop over [lifestyle_boosts.items()]. *)
Definition adjust_step (adjusted_profile : Profile) (entry : string * Z)
  : Profile :=
  let dimension := fst entry in
  let boost := snd entry in
  match dict_get adjusted_profile dimension with
  | Some v => dict_set adjusted_profile dimension (Z.min 10 (v + boost))
  | None => adjusted_profile
  end.

Definition adjust_profile (lifestyle_profile : Profile) (boosts : Dict Z)
  : Profile :=
  fold_left adjust_step boosts lifestyle_profile.

(** [self._calculate_budget_affinity(msrp, budget) if budget else 0.85] *)
Definition budget_score_of (car : Car) (budget : option Z) : R :=
  match budget with
  | Some b =>
      if (b =? 0)%Z then 85 / 100
      else _calculate_budget_affinity (msrp (basic_info car)) budget
  | None => 85 / 100
  end.

Definition composite_of (cosine_score budget_score feature_score value_score : R)
  : R :=
  cosine_score * (40 / 100) + budget_score * (30 / 100)
  + feature_score * (20 / 100) + value_score * (10 / 100).

(** The body of the loop for a car that passed the filters. *)
Definition score_car (car : Car) (adjusted_profile : Profile)
  (budget : option Z) : option ScoredCar :=
  let cosine_score :=
    _calculate_cosine_similarity (lifestyle_scores car) adjusted_profile in
  let budget_score := budget_score_of car budget in
  let feature_score := _calculate_feature_score car adjusted_profile in
  match _calculate_value_score car with
  | None => None
  | Some value_score =>
      let composite_score :=
        composite_of cosine_score budget_score feature_score value_score in
      Some {| sc_car := car;
              match_score := round2 composite_score;
              score_breakdown :=
                {| lifestyle_match := round2 cosine_score;
                   budget_fit := round2 budget_score;
                   feature_quality := round2 feature_score;
                   value_score := round2 value_score |};
              match_reasons := _generate_match_reasons car adjusted_profile |}
  end.

(** The loop over [self.cars]: [matches] in the order of the catalog. *)
Fixpoint collect_matches (cars : list Car) (f : Filters)
  (adjusted_profile : Profile) (budget : option Z) : option (list ScoredCar) :=
  match cars with
  | [] => Some []
  | car :: cars' =>
      if negb (_meets_conversation_filters car f)
      then collect_matches cars' f adjusted_profile budget
      else
        match score_car car adjusted_profile budget with
        | None => None
        | Some car_with_score =>
            match collect_matches cars' f adjusted_profile budget with
            | None => None
            | Some matches => Some (car_with_score :: matches)
            end
        end
  end.

Definition find_matches (cars : list Car) (lifestyle_profile : Profile)
  (budget : option Z) (conversation_context : option (list message))
  (top_n : Z) : option (list ScoredCar) :=
  let conversation_preferences :=
    _parse_conversation_preferences conversation_context in
  let adjusted_profile :=
    adjust_profile lifestyle_profile (lifestyle_boosts conversation_preferences) in
  match collect_matches cars (filters conversation_preferences)
          adjusted_profile budget with
  | None => None
  | Some matches => Some (py_prefix top_n (sort_desc match_score Rltb matches))
  end.

End Ranking.

(* ================================================================== *)
(** * [get_car_by_id], [compare_cars] and [filter_by_criteria] *)
(* ================================================================== *)

Fixpoint get_car_by_id (cars : list Car) (id : string) : option Car :=
  match cars with
  | [] => None
  | car :: cars' =>
      if String.eqb (car_id car) id then Some car else get_car_by_id cars' id
  end.

(** An element of [comparison["cars"]]. *)
Record ComparedCar := {
  cc_id : string;
  cc_name : string;
  cc_price : Z;
  cc_image : string;
  cc_specs : Specifications;
  cc_pros : list string;
  cc_cons : list string;
  cc_features : Features
}.

(** An element of a list of [comparison["categories"]]. *)
Record CategoryEntry := { ce_car : string; ce_value : Z }.

Record Categories := {
  cat_price : list CategoryEntry;
  cat_fuel_efficiency : list CategoryEntry;
  cat_performance : list CategoryEntry;
  cat_safety : list CategoryEntry;
  cat_space : list CategoryEntry
}.

Record Comparison := {
  cmp_cars : list ComparedCar;
  cmp_categories : Categories
}.

Definition empty_comparison : Comparison :=
  {| cmp_cars := [];
     cmp_categories :=
       {| cat_price := []; cat_fuel_efficiency := []; cat_performance := [];
          cat_safety := []; cat_space := [] |} |}.

(** [f"{car['basic_info']['make']} {car['basic_info']['model']}"] *)
Definition display_name (car : Car) : string :=
  (make (basic_info car) ++ " " ++ model (basic_info car))%string.

Definition compared (id : string) (car : Car) : ComparedCar :=
  {| cc_id := id;
     cc_name := display_name car;
     cc_price := msrp (basic_info car);
     cc_image := image_url (basic_info car);
     cc_specs := specifications car;
     cc_pros := car_pros car;
     cc_cons := car_cons car;
     cc_features := features car |}.

(** One turn of the loop over [car_ids]. *)
Definition compare_step (cars : list Car) (comparison : Comparison)
  (id : string) : Comparison :=
  match get_car_by_id cars id with
  | Some car =>
      let cats := cmp_categories comparison in
      {| cmp_cars := cmp_cars comparison ++ [compared id car];
         cmp_categories :=
           {| cat_price :=
                cat_price cats
                ++ [{| ce_car := display_name car;
                       ce_value := msrp (basic_info car) |}];
              cat_fuel_efficiency :=
                cat_fuel_efficiency cats
                ++ [{| ce_car := display_name car;
                       ce_value := mpg_combined (specifications car) |}];
              cat_performance :=
                cat_performance cats
                ++ [{| ce_car := display_name car;
                       ce_value := horsepower (specifications car) |}];
              cat_safety := cat_safety cats;
              cat_space := cat_space cats |} |}
  | None => comparison
  end.

Definition compare_cars (cars : list Car) (car_ids : list string) : Comparison :=
  fold_left (compare_step cars) car_ids empty_comparison.

(** [if x:] on an optional integer argument *)
Definition given_int (x : option Z) : option Z :=
  match x with
  | Some v => if v =? 0 then None else Some v
  | None => None
  end.

(** [if s:] on an optional string argument *)
Definition given_str (x : option string) : option string :=
  match x with
  | Some s => if PyStr.truthy s then Some s else None
  | None => None
  end.

Definition filter_by_criteria (cars : list Car) (body_type_arg : option string)
  (min_mpg max_price min_seating : option Z) : list Car :=
  let filtered := cars in
  let filtered :=
    match given_str body_type_arg with
    | Some b =>
        List.filter
          (fun c => String.eqb (PyStr.lower (body_type (basic_info c)))
                               (PyStr.lower b))
          filtered
    | None => filtered
    end in
  let filtered :=
    match given_int min_mpg with
    | Some v =>
        List.filter (fun c => v <=? mpg_combined (specifications c)) filtered
    | None => filtered
    end in
  let filtered :=
    match given_int max_price with
    | Some v => List.filter (fun c => msrp (basic_info c) <=? v) filtered
    | None => filtered
    end in
  let filtered :=
    match given_int min_seating with
    | Some v =>
        List.filter (fun c => v <=? seating_capacity (specifications c)) filtered
    | None => filtered
    end in
  filtered.

(* ================================================================== *)
(** * Store model: [find_matches] on dictionaries passed by reference *)
(* ================================================================== *)

Module Store.

(** A car dictionary in the store: the keys of the catalog entry and the three
    keys [find_matches] writes, absent until they are assigned. *)
Record CarDict := {
  cd_car : Car;
  cd_match_score : option R;
  cd_score_breakdown : option ScoreBreakdown;
  cd_match_reasons : option (list string)
}.

Inductive Obj :=
| ProfileObj (p : Profile)
| CarObj (d : CarDict).

(** Addresses. *)
Abbreviation loc := nat (only parsing).

(** The store: object number [l] is the dictionary at address [l]. *)
Abbreviation Heap := (list Obj) (only parsing).

(** Computations that read and write the store and may raise. *)
Definition M (A : Type) : Type := Heap -> option (A * Heap).

Definition ret {A : Type} (a : A) : M A := fun h => Some (a, h).

Definition bind {A B : Type} (m : M A) (k : A -> M B) : M B :=
  fun h =>
    match m h with
    | Some (a, h') => k a h'
    | None => None
    end.

Definition raise {A : Type} : M A := fun _ => None.

Notation "x <- m ;; k" := (bind m (fun x => k))
  (at level 90, m at level 89, right associativity).
Notation "m ;;; k" := (bind m (fun _ => k))
  (at level 90, right associativity).

Definition lift {A : Type} (o : option A) : M A :=
  match o with
  | Some a => ret a
  | None => raise
  end.

Definition load (l : loc) : M Obj :=
  fun h => match h !! l with Some o => Some (o, h) | None => None end.

Definition store (l : loc) (o : Obj) : M unit :=
  fun h => if decide (l < length h)%nat then Some (tt, <[l := o]> h) else None.

Definition alloc (o : Obj) : M loc :=
  fun h => Some (length h, h ++ [o]).

Definition load_profile (l : loc) : M Profile :=
  o <- load l ;;
  match o with
  | ProfileObj p => ret p
  | CarObj _ => raise
  end.

Definition load_car (l : loc) : M CarDict :=
  o <- load l ;;
  match o with
  | CarObj d => ret d
  | ProfileObj _ => raise
  end.

(** [d.copy()]: a new dictionary with the entries of [d]. *)
Definition copy (l : loc) : M loc :=
  o <- load l ;;
  alloc o.

(** [profile[dimension] = v] *)
Definition profile_setitem (l : loc) (dimension : string) (v : Z) : M unit :=
  p <- load_profile l ;;
  store l (ProfileObj (dict_set p dimension v)).

(** [car['match_score'] = v] *)
Definition set_match_score (l : loc) (v : R) : M unit :=
  d <- load_car l ;;
  store l (CarObj {| cd_car := cd_car d;
                     cd_match_score := Some v;
                     cd_score_breakdown := cd_score_breakdown d;
                     cd_match_reasons := cd_match_reasons d |}).

(** [car['score_breakdown'] = v] *)
Definition set_score_breakdown (l : loc) (v : ScoreBreakdown) : M unit :=
  d <- load_car l ;;
  store l (CarObj {| cd_car := cd_car d;
                     cd_match_score := cd_match_score d;
                     cd_score_breakdown := Some v;
                     cd_match_reasons := cd_match_reasons d |}).

(** [car['match_reasons'] = v] *)
Definition set_match_reasons (l : loc) (v : list string) : M unit :=
  d <- load_car l ;;
  store l (CarObj {| cd_car := cd_car d;
                     cd_match_score := cd_match_score d;
                     cd_score_breakdown := cd_score_breakdown d;
                     cd_match_reasons := Some v |}).

(** A [for] loop that threads an accumulator. *)
Fixpoint for_each {A S : Type} (l : list A) (s : S) (body : S -> A -> M S) : M S :=
  match l with
  | [] => ret s
  | a :: l' => s' <- body s a ;; for_each l' s' body
  end.

(** The loop over [lifestyle_boosts.items()] on the copy of the profile. *)
Definition apply_boosts (adjusted_profile : loc) (boosts : Dict Z) : M unit :=
  for_each boosts tt (fun _ entry =>
    let dimension := fst entry in
    let boost := snd entry in
    p <- load_profile adjusted_profile ;;
    match dict_get p dimension with
    | Some v => profile_setitem adjusted_profile dimension (Z.min 10 (v + boost))
    | None => ret tt
    end).

Local Open Scope R_scope.

(** One turn of the loop over [self.cars]. *)
Definition match_step (f : Filters) (adjusted_profile : loc) (budget : option Z)
  (matches : list loc) (car_ref : loc) : M (list loc) :=
  d <- load_car car_ref ;;
  let car := cd_car d in
  if negb (_meets_conversation_filters car f) then ret matches
  else
    profile <- load_profile adjusted_profile ;;
    let cosine_score :=
      _calculate_cosine_similarity (lifestyle_scores car) profile in
    let budget_score := budget_score_of car budget in
    let feature_score := _calculate_feature_score car profile in
    value_score <- lift (_calculate_value_score car) ;;
    let composite_score :=
      composite_of cosine_score budget_score feature_score value_score in
    car_with_score <- copy car_ref ;;
    set_match_score car_with_score (round2 composite_score) ;;;
    set_score_breakdown car_with_score
      {| lifestyle_match := round2 cosine_score;
         budget_fit := round2 budget_score;
         feature_quality := round2 feature_score;
         value_score := round2 value_score |} ;;;
    set_match_reasons car_with_score (_generate_match_reasons car profile) ;;;
    ret (matches ++ [car_with_score]).

(** The key function of the sort, [lambda x: x['match_score']], evaluated on
    every element before the list is rearranged. *)
Definition sort_keys (matches : list loc) : M (list (loc * R)) :=
  for_each matches [] (fun keyed l =>
    d <- load_car l ;;
    key <- lift (cd_match_score d) ;;
    ret (keyed ++ [(l, key)])).

(** [cars] holds the addresses of the catalog entries, [lifestyle_profile] the
    address of the caller's profile; the result holds addresses too. *)
Definition find_matches (cars : list loc) (lifestyle_profile : loc)
  (budget : option Z) (conversation_context : option (list message))
  (top_n : Z) : M (list loc) :=
  let conversation_preferences :=
    _parse_conversation_preferences conversation_context in
  adjusted_profile <- copy lifestyle_profile ;;
  apply_boosts adjusted_profile (lifestyle_boosts conversation_preferences) ;;;
  matches <- for_each cars []
               (match_step (filters conversation_preferences)
                  adjusted_profile budget) ;;
  keyed <- sort_keys matches ;;
  ret (py_prefix top_n (map fst (sort_desc snd Rltb keyed))).

(** What the store holds at the addresses of a list, when all of them are
    cars. *)
Fixpoint read_cars (h : Heap) (ls : list loc) : option (list CarDict) :=
  match ls with
  | [] => Some []
  | l :: ls' =>
      match h !! l, read_cars h ls' with
      | Some (CarObj d), Some ds => Some (d :: ds)
      | _, _ => None
      end
  end.

Definition read_profile (h : Heap) (l : loc) : option Profile :=
  match h !! l with
  | Some (ProfileObj p) => Some p
  | _ => None
  end.

(** The dictionary a scored car of the value-level [find_matches] stands
    for. *)
Definition as_dict (s : ScoredCar) : CarDict :=
  {| cd_car := sc_car s;
     cd_match_score := Some (match_score s);
     cd_score_breakdown := Some (score_breakdown s);
     cd_match_reasons := Some (match_reasons s) |}.

End Store.

(* ================================================================== *)
(** * [services/personality_analyzer.py]: [PersonalityAnalyzer] *)
(* ================================================================== *)

(** The sums of the analyzer use only rational operations on integers: they
    are exact rationals ([Q]) here, so that the function computes. *)
Module Analyzer.
Local Open Scope Q_scope.

(** An element of [question['options']]. *)
Record AnswerOption := { o_value : string; o_scores : Dict Z }.

(** An element of [self.questions]. *)
Record Question := { q_id : string; q_options : list AnswerOption }.

(** A value of the [answers] dictionary: a string (the legacy format), a list
    of strings, or something else. *)
Inductive answer :=
| AnsStr (s : string)
| AnsList (l : list string)
| AnsOther (truth : bool).

(** The keys of [lifestyle_scores], in insertion order. *)
Definition dimensions : list string :=
  [ "family_friendly"; "adventure"; "eco_conscious"; "luxury"; "performance";
    "budget_conscious"; "city_driving"; "commuter"; "tech_enthusiast";
    "safety_focused" ].

(** [lifestyle_scores] and [dimension_counts] during the first loop. *)
Record Tally := { t_scores : Dict Q; t_counts : Dict Q }.

Definition initial : Tally :=
  {| t_scores := map (fun d => (d, 0)) dimensions;
     t_counts := map (fun d => (d, 0)) dimensions |}.

(** The loop that looks for the selected option, with its [break]. *)
Fixpoint find_option (options : list AnswerOption) (user_answer : string)
  : option AnswerOption :=
  match options with
  | [] => None
  | option :: options' =>
      if String.eqb (o_value option) user_answer then Some option
      else find_option options' user_answer
  end.

(** One turn of the loop over [selected_option['scores'].items()]. *)
Definition add_points (weight : Q) (t : Tally) (entry : string * Z) : Tally :=
  let dimension := fst entry in
  let points := snd entry in
  match dict_get (t_scores t) dimension with
  | Some score =>
      {| t_scores := dict_set (t_scores t) dimension
                       (score + inject_Z points * weight);
         t_counts := dict_set (t_counts t) dimension
                       (dict_get_default (t_counts t) dimension 0 + weight) |}
  | None => t
  end.

(** One turn of the loop over [user_answers]; [n] is [len(user_answers)]. *)
Definition tally_answer (question : Question) (n : nat) (t : Tally)
  (user_answer : string) : Tally :=
  match find_option (q_options question) user_answer with
  | None => t
  | Some selected_option =>
      let weight := if (0 <? n)%nat then 1 / inject_Z (Z.of_nat n) else 1 in
      fold_left (add_points weight) (o_scores selected_option) t
  end.

(** [answers.get(question_id)] brought to a list of answers; [None] is
    [continue]. *)
Definition selected_answers (a : option answer) : option (list string) :=
  match a with
  | Some (AnsStr s) => if PyStr.truthy s then Some [s] else None
  | Some (AnsList (x :: l)) => Some (x :: l)
  | Some (AnsList []) => None
  | Some (AnsOther _) => None
  | None => None
  end.

(** One turn of the loop over [self.questions]. *)
Definition tally_question (answers : Dict answer) (t : Tally)
  (question : Question) : Tally :=
  match selected_answers (dict_get answers (q_id question)) with
  | None => t
  | Some user_answers =>
      fold_left (tally_answer question (length user_answers)) user_answers t
  end.

(** [round(x)]: to the nearest integer, a tie going to the even neighbour. *)
Definition round_half_even (x : Q) : Z :=
  let n := Qfloor x in
  match Qcompare (x - inject_Z n) (1 # 2) with
  | Lt => n
  | Gt => (n + 1)%Z
  | Eq => if Z.even n then n else (n + 1)%Z
  end.

(** One turn of the second loop. *)
Definition normalise_entry (t : Tally) (entry : string * Q) : string * Z :=
  let dimension := fst entry in
  let count := dict_get_default (t_counts t) dimension 0 in
  if Qlt_le_dec 0 count then
    let avg_score := snd entry / count in
    (dimension, Z.max 1 (Z.min 10 (round_half_even avg_score)))
  else (dimension, 5%Z).

Definition analyze (questions : list Question) (answers : Dict answer)
  : Profile :=
  let t := fold_left (tally_question answers) questions initial in
  map (normalise_entry t) (t_scores t).

(** The [descriptions] table of [get_profile_description]. *)
Definition descriptions : Dict string :=
  [ ("family_friendly", "family-oriented with focus on safety and space");
    ("adventure", "adventurous and outdoor-focused");
    ("eco_conscious", "environmentally conscious");
    ("luxury", "appreciative of premium features and comfort");
    ("performance", "performance-driven and dynamic");
    ("budget_conscious", "value-focused and practical");
    ("city_driving", "urban lifestyle with compact needs");
    ("commuter", "commuter prioritizing efficiency");
    ("tech_enthusiast", "technology-forward");
    ("safety_focused", "safety-conscious") ].

Definition balanced : string :=
  "You have balanced priorities across different vehicle aspects.".

(** The loop over [top_priorities]. *)
Definition profile_parts (top_priorities : list (string * Z)) : list string :=
  flat_map
    (fun entry =>
       if (7 <=? snd entry)%Z
       then [dict_get_default descriptions (fst entry) (fst entry)]
       else [])
    top_priorities.

Definition get_profile_description (lifestyle_scores : Profile) : string :=
  let sorted_scores := sort_desc snd Z.ltb lifestyle_scores in
  let top_priorities := firstn 3 sorted_scores in
  match profile_parts top_priorities with
  | [] => balanced
  | parts => ("You appear to be " ++ PyStr.join ", " parts ++ ".")%string
  end.

End Analyzer.

(* ================================================================== *)
(** * [app.py]: the routes *)
(* ================================================================== *)

(** The module state [conversation_sessions] is passed in and out of the
    routes that use it.  A route returns the body of its success, or the
    status of its failure: 400 and 404 where the code returns them, 500 from
    the [except] clause. *)
Module App.

Inductive Response (A : Type) :=
| Success (body : A)
| Failure (status : Z).
Arguments Success {A} body.
Arguments Failure {A} status.

(** A value of [conversation_sessions]. *)
Record Session := {
  lifestyle_profile : Profile;
  conversation_history : list message;
  recommended_cars : list ScoredCar
}.

(** ** [analyze_personality] *)

(** The JSON payload; [None] is an absent key. *)
Record AnalyzeRequest := { a_answers : option (Dict Analyzer.answer) }.

(** [timestamp] is the text of [datetime.now().timestamp()]; [data] is
    [None] when the request has no JSON body. *)
Definition analyze_personality (questions : list Analyzer.Question)
  (timestamp : string) (sessions : Dict Session)
  (data : option AnalyzeRequest)
  : Response (string * Profile) * Dict Session :=
  match data with
  | None => (Failure 500, sessions)
  | Some data =>
      let answers := get_or (a_answers data) [] in
      let lifestyle_profile := Analyzer.analyze questions answers in
      let session_id := ("session_" ++ timestamp)%string in
      (Success (session_id, lifestyle_profile),
       dict_set sessions session_id
         {| lifestyle_profile := lifestyle_profile;
            conversation_history := [];
            recommended_cars := [] |})
  end.

(** ** [chat] *)

(** [re.sub(pattern, repl, s)] for a pattern that matches no empty string:
    the text is scanned from the left, a match is replaced and the scan goes
    on behind it.  [skip] counts the characters of a match still to pass. *)
Fixpoint sub_from (r : Re.regex) (repl : string) (s : string) (p : nat)
  (skip : nat) : string :=
  match s with
  | EmptyString => EmptyString
  | String c s' =>
      match skip with
      | S k => sub_from r repl s' (S p) k
      | O =>
          match Re.match_at r s p with
          | Some m =>
              if (Re.m_start m <? Re.m_end m)%nat
              then (repl ++ sub_from r repl s' (S p)
                              (Re.m_end m - Re.m_start m - 1))%string
              else String c (sub_from r repl s' (S p) 0)
          | None => String c (sub_from r repl s' (S p) 0)
          end
      end
  end.

Definition sub (r : Re.regex) (repl : string) (s : string) : string :=
  sub_from r repl s 0 0.

(** [\d+\.?\d*%\s*match] *)
Definition percent_match : list Re.regex :=
  [ Re.plus Re.Digit; Re.Opt (Re.Chr "."%char); Re.Star Re.Digit;
    Re.Chr "%"%char; Re.Star Re.Space; Re.lit "match" ].

(** [#\d+,?\s*\d+\.?\d*%\s*match] *)
Definition ranked_percent_match : list Re.regex :=
  [ Re.Chr "#"%char; Re.plus Re.Digit; Re.Opt (Re.Chr ","%char);
    Re.Star Re.Space ] ++ percent_match.

(** The five [re.sub] calls and the [strip] of the safety filter. *)
Definition clean_response (ai_response : string) : string :=
  let ai_response :=
    sub (seqs ([Re.Chr "("%char] ++ ranked_percent_match ++ [Re.Chr ")"%char]))
        "" ai_response in
  let ai_response := sub (seqs ranked_percent_match) "" ai_response in
  let ai_response := sub (seqs percent_match) "" ai_response in
  let ai_response :=
    sub (seqs [ Re.Chr "#"%char; Re.plus Re.Digit; Re.Star Re.Space;
                Re.lit "match" ]) "" ai_response in
  PyStr.strip (sub (Re.plus Re.Space) " " ai_response).

(** [l[-3:]] *)
Definition last3 {A : Type} (l : list A) : list A :=
  skipn (length l - 3) l.

(** The JSON payload of the chat route; [None] is an absent key. *)
Record ChatRequest := {
  c_session_id : option string;
  c_message : option string;
  c_budget : option Z
}.

(** What the prompt is made of and what goes with it to
    [ollama_service.generate_response]. *)
Record Prompt := {
  p_is_first_message : bool;
  p_lifestyle_profile : Profile;
  p_matched_cars : list ScoredCar;
  p_conversation_history : list message;
  p_user_message : string;
  p_max_tokens : Z
}.

Record ChatReply := {
  reply_response : string;
  reply_recommended_cars : list ScoredCar
}.

Definition user_turn (user_message : string) : message :=
  MsgDict (Some "user") (ContentStr user_message).

Definition assistant_turn (ai_response : string) : message :=
  MsgDict (Some "assistant") (ContentStr ai_response).

(** [generate_response] stands for the call to the language model, which
    returns a string whatever happens; the catalog entries have the keys
    that the summary for the prompt reads. *)
Definition chat (cars : list Car) (generate_response : Prompt -> string)
  (sessions : Dict Session) (data : option ChatRequest)
  : Response ChatReply * Dict Session :=
  match data with
  | None => (Failure 500, sessions)
  | Some data =>
      match c_session_id data with
      | None => (Failure 400, sessions)
      | Some session_id =>
          if negb (PyStr.truthy session_id) then (Failure 400, sessions)
          else
            match dict_get sessions session_id with
            | None => (Failure 400, sessions)
            | Some session =>
                match c_message data with
                | None => (Failure 500, sessions)
                | Some user_message =>
                    let history :=
                      conversation_history session ++ [user_turn user_message] in
                    let sessions :=
                      dict_set sessions session_id
                        {| lifestyle_profile := lifestyle_profile session;
                           conversation_history := history;
                           recommended_cars := recommended_cars session |} in
                    match find_matches cars (lifestyle_profile session)
                            (c_budget data) (Some history) 4 with
                    | None => (Failure 500, sessions)
                    | Some matched_cars =>
                        let is_first_message := len history <=? 1 in
                        let max_tokens :=
                          if is_first_message then 400 else 150 in
                        let ai_response :=
                          clean_response
                            (generate_response
                               {| p_is_first_message := is_first_message;
                                  p_lifestyle_profile := lifestyle_profile session;
                                  p_matched_cars := matched_cars;
                                  p_conversation_history := last3 history;
                                  p_user_message := user_message;
                                  p_max_tokens := max_tokens |}) in
                        (Success {| reply_response := ai_response;
                                    reply_recommended_cars := matched_cars |},
                         dict_set sessions session_id
                           {| lifestyle_profile := lifestyle_profile session;
                              conversation_history :=
                                history ++ [assistant_turn ai_response];
                              recommended_cars := matched_cars |})
                    end
                end
            end
      end
  end.

(** ** [get_cost_estimate] *)

(** The JSON payload of the estimate route; [None] is an absent key.  The
    amounts and the term are integers. *)
Record EstimateRequest := {
  r_trade_in_value : option Z;
  r_down_payment : option Z;
  r_loan_term : option Z
}.

(** The [estimate] dictionary, its three parts flattened. *)
Record Estimate := {
  e_make : string;
  e_model : string;
  e_msrp : Z;
  e_down_payment : Z;
  e_trade_in_value : Z;
  e_loan_amount : Z;
  e_interest_rate : R;
  e_loan_term_months : Z;
  e_monthly_payment : R;
  e_total_interest : R;
  e_total_cost : R;
  e_insurance : Z;
  e_maintenance : Z;
  e_fuel_estimate : R
}.

Section CostEstimate.
Local Open Scope R_scope.

Definition interest_rate : R := 65 / 1000.

(** The [monthly_payment] expression; the division raises when
    [(1 + interest_rate / 12) ** loan_term] is 1. *)
Definition monthly_payment (loan_amount loan_term : Z) : option R :=
  let growth := powerRZ (1 + interest_rate / 12) loan_term in
  if decide (growth - 1 = 0) then None
  else Some (IZR loan_amount * (interest_rate / 12) * growth / (growth - 1)).

Definition get_cost_estimate (cars : list Car) (car_id : string)
  (data : option EstimateRequest) : Response Estimate :=
  match data with
  | None => Failure 500
  | Some data =>
      let trade_in := get_or (r_trade_in_value data) 0%Z in
      let down_payment := get_or (r_down_payment data) 0%Z in
      let loan_term := get_or (r_loan_term data) 60%Z in
      match get_car_by_id cars car_id with
      | None => Failure 404
      | Some car =>
          let price := msrp (basic_info car) in
          let loan_amount := (price - trade_in - down_payment)%Z in
          match monthly_payment loan_amount loan_term with
          | None => Failure 500
          | Some monthly_payment =>
              let total_cost :=
                monthly_payment * IZR loan_term + IZR down_payment in
              let total_interest := total_cost - IZR price + IZR trade_in in
              match insurance_annual_estimate (costs car),
                    maintenance_annual_estimate (costs car) with
              | Some insurance, Some maintenance =>
                  let mpg := mpg_combined (specifications car) in
                  if (mpg =? 0)%Z then Failure 500
                  else
                    Success
                      {| e_make := make (basic_info car);
                         e_model := model (basic_info car);
                         e_msrp := price;
                         e_down_payment := down_payment;
                         e_trade_in_value := trade_in;
                         e_loan_amount := loan_amount;
                         e_interest_rate := interest_rate;
                         e_loan_term_months := loan_term;
                         e_monthly_payment := round2 monthly_payment;
                         e_total_interest := round2 total_interest;
                         e_total_cost := round2 total_cost;
                         e_insurance := insurance;
                         e_maintenance := maintenance;
                         e_fuel_estimate :=
                           round2 (15000 / IZR mpg * (35 / 10)) |}
              | _, _ => Failure 500
              end
          end
      end
  end.

End CostEstimate.

End App.

(* ================================================================== *)
(** * Notions the statements use *)
(* ================================================================== *)

(** [collect_matches] with every match labelled by the position of its car
    in the catalog, counted from [i]. *)
Fixpoint collect_indexed (i : nat) (cars : list Car) (f : Filters)
  (adjusted_profile : Profile) (budget : option Z)
  : option (list (nat * ScoredCar)) :=
  match cars with
  | [] => Some []
  | car :: cars' =>
      if negb (_meets_conversation_filters car f)
      then collect_indexed (S i) cars' f adjusted_profile budget
      else
        match score_car car adjusted_profile budget with
        | None => None
        | Some car_with_score =>
            match collect_indexed (S i) cars' f adjusted_profile budget with
            | None => None
            | Some matches => Some ((i, car_with_score) :: matches)
            end
        end
  end.

(** The order of a stable descending sort on labelled elements: a larger key
    first, and for equal keys the smaller label first. *)
Definition ranks_before {A : Type} (key : A -> R) (p q : nat * A) : Prop :=
  (key (snd q) < key (snd p))%R
  \/ (key (snd q) = key (snd p) /\ (fst p < fst q)%nat).

(** What each active filter demands of a car, filter by filter. *)
Definition satisfies_filters (car : Car) (f : Filters) : Prop :=
  (forall v, f_body_type f = Some v ->
     PyStr.upper (body_type (basic_info car)) = PyStr.upper v)
  /\ (forall v, f_min_mpg f = Some v -> v <= mpg_combined (specifications car))
  /\ (forall v, f_min_horsepower f = Some v ->
        v <= horsepower (specifications car))
  /\ (forall v, f_min_seating f = Some v ->
        v <= seating_capacity (specifications car))
  /\ (forall v, f_fuel_preference f = Some v ->
        (PyStr.lower v = "hybrid" ->
         PyStr.contains "hybrid" (PyStr.lower (engine (specifications car))) = true)
        /\ (PyStr.lower v = "electric" ->
            PyStr.contains "electric" (PyStr.lower (engine (specifications car)))
            = true
            \/ PyStr.contains "ev" (PyStr.lower (engine (specifications car)))
               = true))
  /\ (forall v, f_drivetrain f = Some v ->
        PyStr.contains (PyStr.upper v)
          (PyStr.upper (drivetrain (specifications car))) = true)
  /\ (forall v, f_max_price f = Some v -> msrp (basic_info car) <= v).

(** A computation keeps the store below address [n]: run on a store that has
    at least [n] objects it leaves those [n] as they are, never shrinks the
    store, and returns a value that satisfies [Q]. *)
Definition keeps {A : Type} (n : nat) (m : Store.M A) (Q : A -> Prop) : Prop :=
  forall (h : Store.Heap) (a : A) (h' : Store.Heap),
    (n <= length h)%nat ->
    m h = Some (a, h') ->
    (n <= length h')%nat
    /\ (forall l : nat, (l < n)%nat -> h' !! l = h !! l)
    /\ Q a.

(** The objects [find_matches] allocates for a list of scored cars. *)
Definition copies (scored : list ScoredCar) : list Store.Obj :=
  map (fun s => Store.CarObj (Store.as_dict s)) scored.

(** Scored cars paired with consecutive addresses from [base] on. *)
Fixpoint placed (base : nat) (scored : list ScoredCar) : list (nat * ScoredCar) :=
  match scored with
  | [] => []
  | s :: scored' => (base, s) :: placed (S base) scored'
  end.

(** Whether a conversation element is a dictionary with the role "user". *)
Definition from_user (m : message) : bool :=
  match m with
  | MsgDict (Some role) _ => String.eqb role "user"
  | _ => false
  end.

(** A conversation element with the text of its content in upper case. *)
Definition shout (m : message) : message :=
  match m with
  | MsgDict role (ContentStr s) => MsgDict role (ContentStr (PyStr.upper s))
  | _ => m
  end.

(** Whether a text has no decimal digit. *)
Fixpoint digit_free (s : string) : bool :=
  match s with
  | EmptyString => true
  | String c s' => negb (PyStr.is_digit c) && digit_free s'
  end.

(** Whether every match of a pattern has to consume a decimal digit. *)
Fixpoint needs_digit (r : Re.regex) : bool :=
  match r with
  | Re.Eps => false
  | Re.Chr c => PyStr.is_digit c
  | Re.Cls Re.Digit => true
  | Re.Cls Re.Space => false
  | Re.Seq r1 r2 => needs_digit r1 || needs_digit r2
  | Re.Star _ => false
  | Re.Opt _ => false
  | Re.Grp _ r' => needs_digit r'
  end.

(** What [filter_by_criteria] asks of a car, all criteria at once. *)
Definition passes_criteria (body_type_arg : option string)
  (min_mpg max_price min_seating : option Z) (c : Car) : bool :=
  match given_str body_type_arg with
  | Some b => String.eqb (PyStr.lower (body_type (basic_info c))) (PyStr.lower b)
  | None => true
  end
  && match given_int min_mpg with
     | Some v => v <=? mpg_combined (specifications c)
     | None => true
     end
  && match given_int max_price with
     | Some v => msrp (basic_info c) <=? v
     | None => true
     end
  && match given_int min_seating with
     | Some v => v <=? seating_capacity (specifications c)
     | None => true
     end.

(** A profile with every score multiplied by [k]. *)
Definition scale_profile (k : Z) (user_profile : Profile) : Profile :=
  map (fun e => (fst e, k * snd e)) user_profile.

(** A catalog entry with plausible numbers: positive price and fuel economy,
    no negative horsepower, seating, cargo space or cost estimate, positive
    lifestyle scores. *)
Definition plausible (car : Car) : Prop :=
  0 < msrp (basic_info car)
  /\ 0 < mpg_combined (specifications car)
  /\ 0 <= horsepower (specifications car)
  /\ 0 <= seating_capacity (specifications car)
  /\ 0 <= get_or (cargo_space (specifications car)) 15
  /\ 0 <= get_or (insurance_annual_estimate (costs car)) 1500
  /\ 0 <= get_or (maintenance_annual_estimate (costs car)) 500
  /\ (forall d c, dict_get (lifestyle_scores car) d = Some c -> 0 < c).

(** The legacy format of an answer, a non-empty string, as the list of that
    one string. *)
Definition listed (a : Analyzer.answer) : Analyzer.answer :=
  match a with
  | Analyzer.AnsStr s => if PyStr.truthy s then Analyzer.AnsList [s] else a
  | _ => a
  end.

Definition relisted (answers : Dict Analyzer.answer) : Dict Analyzer.answer :=
  map (fun e => (fst e, listed (snd e))) answers.

(** A dimension that no selected option scores. *)
Definition unscored (questions : list Analyzer.Question)
  (answers : Dict Analyzer.answer) (d : string) : Prop :=
  forall question user_answers user_answer selected_option,
    In question questions ->
    Analyzer.selected_answers (dict_get answers (Analyzer.q_id question))
    = Some user_answers ->
    In user_answer user_answers ->
    Analyzer.find_option (Analyzer.q_options question) user_answer
    = Some selected_option ->
    ~ In d (dict_keys (Analyzer.o_scores selected_option)).

(** Every option gives the dimension [d] between [lo] and [hi] points. *)
Definition points_between (lo hi : Z) (d : string)
  (questions : list Analyzer.Question) : Prop :=
  forall question option entry,
    In question questions -> In option (Analyzer.q_options question) ->
    In entry (Analyzer.o_scores option) -> fst entry = d ->
    lo <= snd entry <= hi.

(** The running sum of the dimension [d] lies between [lo] and [hi] times
    its running weight. *)
Definition mean_between (lo hi : Z) (d : string) (t : Analyzer.Tally) : Prop :=
  exists s c,
    dict_get (Analyzer.t_scores t) d = Some s
    /\ dict_get (Analyzer.t_counts t) d = Some c
    /\ (0 <= c)%Q /\ (inject_Z lo * c <= s)%Q /\ (s <= inject_Z hi * c)%Q.

(** The balance of a loan after [k] monthly payments: each month the
    balance bears one twelfth of the yearly interest and the payment is
    taken off. *)
Fixpoint outstanding (loan_amount payment : R) (k : nat) : R :=
  match k with
  | O => loan_amount
  | S k' => (outstanding loan_amount payment k' * (1 + App.interest_rate / 12)
             - payment)%R
  end.

(** Whether a string starts, or ends, with a whitespace character. *)
Definition starts_with_space (s : string) : bool :=
  match s with
  | String c _ => PyStr.is_space c
  | EmptyString => false
  end.

Fixpoint ends_with_space (s : string) : bool :=
  match s with
  | EmptyString => false
  | String c EmptyString => PyStr.is_space c
  | String _ s' => ends_with_space s'
  end.

(** Every whitespace character is a blank, and is followed by none. *)
Fixpoint single_spaced (s : string) : bool :=
  match s with
  | EmptyString => true
  | String c s' =>
      (if PyStr.is_space c
       then Ascii.eqb c " "%char && negb (starts_with_space s')
       else true)
      && single_spaced s'
  end.

(** Whether the chat request names a session that exists. *)
Definition names_session (sessions : Dict App.Session)
  (data : App.ChatRequest) : bool :=
  match App.c_session_id data with
  | Some session_id => PyStr.truthy session_id && dict_mem sessions session_id
  | None => false
  end.

(** The history of [after] begins with that of [before] and has at most
    [n] more turns; the profile is the same. *)
Definition continues (n : nat) (before after : App.Session) : Prop :=
  App.lifestyle_profile after = App.lifestyle_profile before
  /\ exists turns,
       App.conversation_history after = App.conversation_history before ++ turns
       /\ (length turns <= n)%nat.

(** Whether some catalog entry has the id. *)
Definition known_id (cars : list Car) (id : string) : bool :=
  existsb (fun car => String.eqb (car_id car) id) cars.

(** The entry [compare_cars] appends for one id. *)
Definition entry_for (cars : list Car) (id : string) : list ComparedCar :=
  match get_car_by_id cars id with
  | Some car => [compared id car]
  | None => []
  end.

(* ================================================================== *)
(** * Sample data *)
(* ================================================================== *)

Module Sample.

Definition user_says (s : string) : option (list message) :=
  Some [MsgDict (Some "user") (ContentStr s)].

Definition kids_turn : option (list message) :=
  user_says "under $40k and I need room for my kids".

Definition profile : Profile :=
  [ ("family_friendly", 9); ("adventure", 5); ("eco_conscious", 8);
    ("luxury", 5); ("performance", 5); ("budget_conscious", 5);
    ("city_driving", 5); ("commuter", 5); ("tech_enthusiast", 5);
    ("safety_focused", 5) ].

Definition hybrid_suv : Car :=
  {| car_id := "rav4-hybrid";
     basic_info :=
       {| make := "Toyota"; model := "RAV4 Hybrid"; body_type := "SUV";
          msrp := 33000; image_url := "/images/rav4.jpg" |};
     specifications :=
       {| mpg_combined := 40; horsepower := 219; seating_capacity := 5;
          cargo_space := Some 37; engine := "2.5L Hybrid"; drivetrain := "AWD" |};
     features :=
       {| safety := ["Pre-collision"; "Lane assist"];
          technology := Some ["CarPlay"]; comfort := None;
          entertainment := None |};
     lifestyle_scores := [("family_friendly", 9); ("eco_conscious", 8)];
     costs :=
       {| insurance_annual_estimate := Some 1400;
          maintenance_annual_estimate := None |};
     car_pros := ["Efficient"];
     car_cons := ["Road noise"] |}.

Definition sports_coupe : Car :=
  {| car_id := "supra";
     basic_info :=
       {| make := "Toyota"; model := "GR Supra"; body_type := "Coupe";
          msrp := 60000; image_url := "/images/supra.jpg" |};
     specifications :=
       {| mpg_combined := 26; horsepower := 382; seating_capacity := 2;
          cargo_space := Some 10; engine := "3.0L Turbo I6"; drivetrain := "RWD" |};
     features :=
       {| safety := ["Pre-collision"]; technology := None; comfort := None;
          entertainment := None |};
     lifestyle_scores := [("performance", 9)];
     costs :=
       {| insurance_annual_estimate := None;
          maintenance_annual_estimate := None |};
     car_pros := ["Fast"];
     car_cons := ["Two seats"] |}.

Definition sedan : Car :=
  {| car_id := "civic";
     basic_info :=
       {| make := "Honda"; model := "Civic"; body_type := "Sedan";
          msrp := 25000; image_url := "/images/civic.jpg" |};
     specifications :=
       {| mpg_combined := 36; horsepower := 158; seating_capacity := 5;
          cargo_space := None; engine := "2.0L I4"; drivetrain := "FWD" |};
     features :=
       {| safety := ["Airbags"]; technology := Some ["Bluetooth"];
          comfort := Some ["Heated seats"]; entertainment := None |};
     lifestyle_scores := [("commuter", 9); ("budget_conscious", 8)];
     costs :=
       {| insurance_annual_estimate := Some 1200;
          maintenance_annual_estimate := Some 400 |};
     car_pros := ["Reliable"];
     car_cons := ["Plain"] |}.

Definition catalog : list Car := [hybrid_suv; sports_coupe; sedan].

(** The store of a session: the catalog entries at addresses 0 to 2, the
    caller's profile at address 3. *)
Definition plain (c : Car) : Store.Obj :=
  Store.CarObj {| Store.cd_car := c; Store.cd_match_score := None;
                  Store.cd_score_breakdown := None;
                  Store.cd_match_reasons := None |}.

Definition heap : Store.Heap :=
  [plain hybrid_suv; plain sports_coupe; plain sedan; Store.ProfileObj profile].

(** Two questions of a test, and answers in both formats. *)
Definition questions : list Analyzer.Question :=
  [ {| Analyzer.q_id := "household";
       Analyzer.q_options :=
         [ {| Analyzer.o_value := "kids";
              Analyzer.o_scores := [("family_friendly", 9); ("safety_focused", 8)] |};
           {| Analyzer.o_value := "solo";
              Analyzer.o_scores := [("performance", 8)] |} ] |};
    {| Analyzer.q_id := "roads";
       Analyzer.q_options :=
         [ {| Analyzer.o_value := "city";
              Analyzer.o_scores := [("city_driving", 9); ("eco_conscious", 7)] |};
           {| Analyzer.o_value := "trail";
              Analyzer.o_scores := [("adventure", 10); ("eco_conscious", 4)] |} ] |} ].

Definition answers : Dict Analyzer.answer :=
  [ ("household", Analyzer.AnsStr "kids");
    ("roads", Analyzer.AnsList ["city"; "trail"]) ].

(** A session right after the analysis, and a first chat request in it. *)
Definition session : App.Session :=
  {| App.lifestyle_profile := profile;
     App.conversation_history := [];
     App.recommended_cars := [] |}.

Definition sessions : Dict App.Session := [("session_1", session)].

Definition chat_request : App.ChatRequest :=
  {| App.c_session_id := Some "session_1";
     App.c_message := Some "under $40k and I need room for my kids";
     App.c_budget := Some 35000 |}.

Definition estimate_request : App.EstimateRequest :=
  {| App.r_trade_in_value := Some 5000;
     App.r_down_payment := Some 3000;
     App.r_loan_term := Some 60 |}.

End Sample.

(* ================================================================== *)
(** * Properties of the preference extractor *)
(* ================================================================== *)

(** The scenario of the specification, evaluated. *)
Example kids_turn_preferences :
  _parse_conversation_preferences Sample.kids_turn
  = {| filters :=
         {| f_body_type := None; f_fuel_preference := None; f_min_mpg := None;
            f_min_horsepower := None; f_min_seating := Some 5;
            f_drivetrain := None; f_max_price := Some 40000 |};
       lifestyle_boosts := [("family_friendly", 2); ("safety_focused", 2)] |}.
Proof. vm_compute. reflexivity. Qed.

(** C5.  For the history whose only user turn is "under $40k and I need room
    for my kids" the extracted filters are exactly max_price = 40000 and
    min_seating = 5, every other filter key being absent, and the lifestyle
    boosts hold a positive increment for family_friendly and for
    safety_focused. *)
Theorem kids_turn_filters_and_boosts :
  filters (_parse_conversation_preferences Sample.kids_turn)
  = {| f_body_type := None; f_fuel_preference := None; f_min_mpg := None;
       f_min_horsepower := None; f_min_seating := Some 5;
       f_drivetrain := None; f_max_price := Some 40000 |}
  /\ (exists v,
        dict_get (lifestyle_boosts (_parse_conversation_preferences Sample.kids_turn))
          "family_friendly" = Some v /\ 0 < v)
  /\ (exists v,
        dict_get (lifestyle_boosts (_parse_conversation_preferences Sample.kids_turn))
          "safety_focused" = Some v /\ 0 < v).
Proof.
  rewrite kids_turn_preferences. cbn.
  split; [reflexivity | split; exists 2; split; (reflexivity || lia)].
Qed.

(** ** Dictionaries *)

Lemma dict_get_set {V : Type} (d : Dict V) (k k' : string) (v : V) :
  dict_get (dict_set d k v) k'
  = if String.eqb k k' then Some v else dict_get d k'.
Proof.
  induction d as [|[k0 v0] d IH]; simpl.
  - reflexivity.
  - destruct (String.eqb k0 k) eqn:E0; simpl.
    + apply String.eqb_eq in E0. subst k0.
      destruct (String.eqb k k'); reflexivity.
    + rewrite IH. destruct (String.eqb k0 k') eqn:E1; [|reflexivity].
      apply String.eqb_eq in E1. subst k0.
      rewrite String.eqb_sym, E0. reflexivity.
Qed.

Lemma dict_get_set_same {V : Type} (d : Dict V) (k : string) (v : V) :
  dict_get (dict_set d k v) k = Some v.
Proof. rewrite dict_get_set, String.eqb_refl. reflexivity. Qed.

Lemma dict_get_set_other {V : Type} (d : Dict V) (k k' : string) (v : V) :
  k <> k' -> dict_get (dict_set d k v) k' = dict_get d k'.
Proof.
  intros Hne. rewrite dict_get_set.
  destruct (String.eqb k k') eqn:E; [|reflexivity].
  apply String.eqb_eq in E. contradiction.
Qed.

(** ** Keyword rules: the last matching rule that writes a key decides it *)

Lemma set_boosts_other (l : list (string * Z)) (b : Dict Z) (d : string) :
  ~ In d (map fst l) -> dict_get (set_boosts b l) d = dict_get b d.
Proof.
  revert b. induction l as [|[k x] l IH]; intros b Hd; simpl in *.
  - reflexivity.
  - unfold set_boosts in *. simpl. rewrite IH by tauto.
    apply dict_get_set_other. tauto.
Qed.

Lemma set_boosts_member (l : list (string * Z)) (b : Dict Z) (d : string) (v : Z) :
  List.NoDup (map fst l) -> In (d, v) l -> dict_get (set_boosts b l) d = Some v.
Proof.
  revert b. induction l as [|[k x] l IH]; intros b Hnd Hin; simpl in *.
  - contradiction.
  - apply NoDup_cons_iff in Hnd. destruct Hnd as [Hk Hnd].
    destruct Hin as [Heq | Hin].
    + injection Heq as -> ->.
      change (dict_get (set_boosts (dict_set b d v) l) d = Some v).
      rewrite set_boosts_other by exact Hk. apply dict_get_set_same.
    + apply (IH (dict_set b k x) Hnd Hin).
Qed.

Lemma written_apply (f : Filters) (w : fwrite) (k : fkey) :
  written k (apply_fwrite f w)
  = if decide (fwrite_key w = k) then Some w else written k f.
Proof.
  destruct w, k; simpl; try reflexivity;
    match goal with
    | |- context [decide ?P] => destruct (decide P); congruence
    end.
Qed.

Lemma set_filters_other (l : list fwrite) (f : Filters) (k : fkey) :
  ~ In k (map fwrite_key l) ->
  written k (fold_left apply_fwrite l f) = written k f.
Proof.
  revert f. induction l as [|w l IH]; intros f Hk; simpl in *.
  - reflexivity.
  - rewrite IH by tauto. rewrite written_apply.
    destruct (decide (fwrite_key w = k)); [tauto | reflexivity].
Qed.

Lemma set_filters_member (l : list fwrite) (f : Filters) (w : fwrite) :
  List.NoDup (map fwrite_key l) -> In w l ->
  written (fwrite_key w) (fold_left apply_fwrite l f) = Some w.
Proof.
  revert f. induction l as [|w0 l IH]; intros f Hnd Hin; simpl in *.
  - contradiction.
  - apply NoDup_cons_iff in Hnd. destruct Hnd as [Hk Hnd].
    destruct Hin as [-> | Hin].
    + rewrite set_filters_other by exact Hk. rewrite written_apply.
      destruct (decide (fwrite_key w = fwrite_key w)); congruence.
    + apply (IH _ Hnd Hin).
Qed.

Lemma analyse_unfold (text : string) :
  analyse text
  = price_step text
      (fold_left (apply_rule text) keyword_rules
         (body_type_step text no_preferences)).
Proof. reflexivity. Qed.

(** The function either takes an early return or analyses the joined,
    lowered text of the user turns. *)
Lemma parse_cases (ctx : option (list message)) :
  _parse_conversation_preferences ctx = no_preferences
  \/ exists user_messages,
       _parse_conversation_preferences ctx
       = analyse (PyStr.join " " user_messages).
Proof.
  unfold _parse_conversation_preferences.
  destruct ctx as [[|m msgs]|]; auto.
  destruct (collect_user_messages (m :: msgs) []) as [user_messages|]; auto.
  destruct (negb _ || negb _); eauto.
Qed.

Lemma body_type_step_boosts (text : string) (p : Preferences) :
  lifestyle_boosts (body_type_step text p) = lifestyle_boosts p.
Proof. unfold body_type_step. destruct detect_body_type; reflexivity. Qed.

Lemma price_step_boosts (text : string) (p : Preferences) :
  lifestyle_boosts (price_step text p) = lifestyle_boosts p.
Proof. unfold price_step. destruct extract_price; reflexivity. Qed.

Lemma price_step_written (text : string) (p : Preferences) (k : fkey) :
  k <> KMaxPrice -> written k (filters (price_step text p)) = written k (filters p).
Proof.
  intros Hk. unfold price_step.
  destruct (extract_price price_patterns text) as [price|]; [|reflexivity].
  change (written k (apply_fwrite (filters p) (SetMaxPrice price))
          = written k (filters p)).
  rewrite written_apply.
  destruct (decide (fwrite_key (SetMaxPrice price) = k)) as [E|E]; [|reflexivity].
  simpl in E. congruence.
Qed.

Lemma rules_boosts_other (text : string) (rs : list Rule) (p : Preferences)
  (d : string) :
  Forall (fun r => rule_matches r text = true -> ~ In d (map fst (r_boosts r))) rs ->
  dict_get (lifestyle_boosts (fold_left (apply_rule text) rs p)) d
  = dict_get (lifestyle_boosts p) d.
Proof.
  intros H. revert p. induction H as [|r rs Hr _ IH]; intros p; simpl.
  - reflexivity.
  - rewrite IH. unfold apply_rule.
    destruct (rule_matches r text); [|reflexivity].
    simpl. apply set_boosts_other. auto.
Qed.

Lemma rules_filters_other (text : string) (rs : list Rule) (p : Preferences)
  (k : fkey) :
  Forall (fun r => rule_matches r text = true
                   -> ~ In k (map fwrite_key (r_filters r))) rs ->
  written k (filters (fold_left (apply_rule text) rs p)) = written k (filters p).
Proof.
  intros H. revert p. induction H as [|r rs Hr _ IH]; intros p; simpl.
  - reflexivity.
  - rewrite IH. unfold apply_rule.
    destruct (rule_matches r text); [|reflexivity].
    simpl. apply set_filters_other. auto.
Qed.

(** No block assigns a key twice, and none assigns [max_price]. *)
Lemma keyword_rules_wf :
  Forall (fun r => List.NoDup (map fst (r_boosts r))
                   /\ List.NoDup (map fwrite_key (r_filters r))
                   /\ ~ In KMaxPrice (map fwrite_key (r_filters r)))
         keyword_rules.
Proof.
  unfold keyword_rules.
  repeat (apply List.Forall_cons; [ split; [| split] | ]);
    try apply List.Forall_nil;
    simpl;
    repeat (apply List.NoDup_cons; simpl);
    try apply List.NoDup_nil;
    intuition congruence.
Qed.

Lemma detect_body_type_first (table : list (string * list string))
  (text body : string) :
  detect_body_type table text = Some body <->
  exists before category keywords after,
    table = before ++ (category, keywords) :: after
    /\ Forall (fun e => PyStr.any_in (snd e) text = false) before
    /\ PyStr.any_in keywords text = true
    /\ body = PyStr.upper category.
Proof.
  induction table as [|[c kws] table IH]; simpl.
  - split; [discriminate |].
    intros (before & ? & ? & ? & H & _). destruct before; discriminate.
  - destruct (PyStr.any_in kws text) eqn:E.
    + split.
      * intros [= <-]. exists [], c, kws, table. auto.
      * intros (before & c' & kws' & after & Ht & Hb & Hm & ->).
        destruct before as [|e before]; simpl in Ht.
        -- injection Ht as -> -> _. reflexivity.
        -- injection Ht as <- _. inversion Hb; subst. simpl in *. congruence.
    + rewrite IH. split.
      * intros (before & c' & kws' & after & -> & Hb & Hm & ->).
        exists ((c, kws) :: before), c', kws', after. auto.
      * intros (before & c' & kws' & after & Ht & Hb & Hm & ->).
        destruct before as [|e before]; simpl in Ht.
        -- injection Ht as -> -> _. congruence.
        -- injection Ht as <- ->. inversion Hb; subst.
           exists before, c', kws', after. auto.
Qed.

(** C6.  For every conversation text: the body-type detection goes through
    the 8 categories in their fixed order and the filter it sets is the one
    of the first category that has a keyword in the text (none when no
    category has one); and when several keyword rules that match the text
    write the same lifestyle dimension, or the same filter key, the value in
    the result is the one written by the last of them. *)
Theorem first_body_type_last_rule_wins (text : string) :
  (length body_type_keywords = 8%nat
   /\ forall body,
        f_body_type (filters (analyse text)) = Some body <->
        exists before category keywords after,
          body_type_keywords = before ++ (category, keywords) :: after
          /\ Forall (fun e => PyStr.any_in (snd e) text = false) before
          /\ PyStr.any_in keywords text = true
          /\ body = PyStr.upper category)
  /\ (forall before r after d v,
        keyword_rules = before ++ r :: after ->
        rule_matches r text = true ->
        In (d, v) (r_boosts r) ->
        Forall (fun r' => rule_matches r' text = true
                          -> ~ In d (map fst (r_boosts r'))) after ->
        dict_get (lifestyle_boosts (analyse text)) d = Some v)
  /\ (forall before r after w,
        keyword_rules = before ++ r :: after ->
        rule_matches r text = true ->
        In w (r_filters r) ->
        Forall (fun r' => rule_matches r' text = true
                          -> ~ In (fwrite_key w) (map fwrite_key (r_filters r')))
               after ->
        written (fwrite_key w) (filters (analyse text)) = Some w).
Proof.
  assert (Hwf : forall before r after,
             keyword_rules = before ++ r :: after ->
             List.NoDup (map fst (r_boosts r))
             /\ List.NoDup (map fwrite_key (r_filters r))
             /\ ~ In KMaxPrice (map fwrite_key (r_filters r))).
  { intros before r after Heq.
    pose proof keyword_rules_wf as H. rewrite List.Forall_forall in H.
    apply H. rewrite Heq. apply in_or_app. right. left. reflexivity. }
  split; [split; [reflexivity |] | split].
  - intros body. rewrite <- detect_body_type_first.
    assert (Hk : KBodyType <> KMaxPrice) by discriminate.
    pose proof (price_step_written text
                  (fold_left (apply_rule text) keyword_rules
                     (body_type_step text no_preferences)) KBodyType Hk) as H1.
    rewrite <- analyse_unfold in H1.
    rewrite rules_filters_other in H1.
    + unfold body_type_step in H1.
      destruct (detect_body_type body_type_keywords text) as [b|];
        simpl in H1;
        destruct (f_body_type (filters (analyse text))); simpl in H1;
        split; congruence.
    + unfold keyword_rules.
      repeat (apply List.Forall_cons; [ intros _; simpl; intuition discriminate | ]).
      apply List.Forall_nil.
  - intros before r after d v Heq Hm Hin Hafter.
    destruct (Hwf _ _ _ Heq) as (Hnd & _ & _).
    rewrite analyse_unfold, price_step_boosts, Heq, fold_left_app. simpl.
    rewrite rules_boosts_other by exact Hafter.
    unfold apply_rule. rewrite Hm. simpl.
    apply set_boosts_member; assumption.
  - intros before r after w Heq Hm Hin Hafter.
    destruct (Hwf _ _ _ Heq) as (_ & Hnd & Hmax).
    assert (Hk : fwrite_key w <> KMaxPrice).
    { intros Hk. apply Hmax. rewrite <- Hk. apply in_map. exact Hin. }
    rewrite analyse_unfold, price_step_written by exact Hk.
    rewrite Heq, fold_left_app. simpl.
    rewrite rules_filters_other by exact Hafter.
    unfold apply_rule. rewrite Hm. simpl.
    apply set_filters_member; assumption.
Qed.

Lemma first_body_type_last_rule_wins_witness :
  let text := "i want a hybrid or electric sedan or suv" in
  f_body_type (filters (analyse text)) = Some "SUV"
  /\ dict_get (lifestyle_boosts (analyse text)) "eco_conscious" = Some 4
  /\ written KFuelPreference (filters (analyse text))
     = Some (SetFuelPreference "electric").
Proof.
  intros text.
  destruct (first_body_type_last_rule_wins text) as ((_ & Hbody) & Hboost & Hfilter).
  split; [| split].
  - apply Hbody.
    exists [], "suv", ["suv"; "crossover"; "suvs"], (tl body_type_keywords).
    repeat split; try reflexivity. apply List.Forall_nil.
  - apply (Hboost [rule_hybrid] rule_electric
             (tl (tl keyword_rules)) "eco_conscious" 4).
    + reflexivity.
    + vm_compute. reflexivity.
    + simpl. left. reflexivity.
    + simpl.
      repeat (apply List.Forall_cons;
              [ intros Hm; vm_compute in Hm; simpl; intuition congruence | ]).
      apply List.Forall_nil.
  - apply (Hfilter [rule_hybrid] rule_electric
             (tl (tl keyword_rules)) (SetFuelPreference "electric")).
    + reflexivity.
    + vm_compute. reflexivity.
    + simpl. left. reflexivity.
    + simpl.
      repeat (apply List.Forall_cons;
              [ intros Hm; simpl; intuition congruence | ]).
      apply List.Forall_nil.
Defined.

(* ================================================================== *)
(** * Properties of [filter_by_criteria], [get_car_by_id], [compare_cars] *)
(* ================================================================== *)

(** C10.  [filter_by_criteria] treats a criterion of 0 (min_mpg, max_price,
    min_seating) and an empty body_type as it treats an absent one: that
    filter is not applied, and with all four criteria zero or empty the whole
    catalog comes back. *)
Theorem filter_by_criteria_zero_is_absent (cars : list Car)
  (b : option string) (m p s : option Z) :
  filter_by_criteria cars (Some "") m p s = filter_by_criteria cars None m p s
  /\ filter_by_criteria cars b (Some 0) p s = filter_by_criteria cars b None p s
  /\ filter_by_criteria cars b m (Some 0) s = filter_by_criteria cars b m None s
  /\ filter_by_criteria cars b m p (Some 0) = filter_by_criteria cars b m p None
  /\ filter_by_criteria cars (Some "") (Some 0) (Some 0) (Some 0) = cars
  /\ filter_by_criteria cars None None None None = cars.
Proof. repeat split; reflexivity. Qed.

Lemma get_car_by_id_none (cars : list Car) (id : string) :
  get_car_by_id cars id = None <-> ~ In id (map car_id cars).
Proof.
  induction cars as [|car cars IH]; simpl.
  - tauto.
  - destruct (String.eqb (car_id car) id) eqn:E.
    + apply String.eqb_eq in E. split; [discriminate | tauto].
    + apply String.eqb_neq in E. rewrite IH. tauto.
Qed.

Lemma get_car_by_id_some (cars : list Car) (id : string) (car : Car) :
  get_car_by_id cars id = Some car -> In car cars /\ car_id car = id.
Proof.
  induction cars as [|c cars IH]; simpl; [discriminate |].
  destruct (String.eqb (car_id c) id) eqn:E.
  - intros [= <-]. apply String.eqb_eq in E. auto.
  - intros H. destruct (IH H). auto.
Qed.

Lemma known_id_spec (cars : list Car) (id : string) :
  known_id cars id = true <-> In id (map car_id cars).
Proof.
  unfold known_id. rewrite existsb_exists, in_map_iff.
  split; intros (car & H1 & H2).
  - apply String.eqb_eq in H2. eauto.
  - exists car. rewrite H1, String.eqb_refl. auto.
Qed.

Lemma compare_cars_fold (cars : list Car) (ids : list string) (acc : Comparison) :
  cmp_cars (fold_left (compare_step cars) ids acc)
  = cmp_cars acc ++ flat_map (entry_for cars) ids.
Proof.
  revert acc. induction ids as [|id ids IH]; intros acc; simpl.
  - rewrite app_nil_r. reflexivity.
  - rewrite IH. unfold compare_step, entry_for.
    destruct (get_car_by_id cars id); simpl.
    + rewrite <- app_assoc. reflexivity.
    + reflexivity.
Qed.

(** C8.  [compare_cars] is total (no id makes it raise); its list of cars has,
    in the order of the requested ids, one entry for each id that the catalog
    has and nothing for an id it does not have; hence as many entries as ids
    when every id exists, and exactly 3 entries for 3 existing ids. *)
Theorem compare_cars_entries (cars : list Car) (ids : list string) :
  cmp_cars (compare_cars cars ids) = flat_map (entry_for cars) ids
  /\ map cc_id (cmp_cars (compare_cars cars ids))
     = List.filter (known_id cars) ids
  /\ (Forall (fun id => In id (map car_id cars)) ids ->
      length (cmp_cars (compare_cars cars ids)) = length ids)
  /\ (forall a b c,
        ids = [a; b; c] ->
        In a (map car_id cars) -> In b (map car_id cars) ->
        In c (map car_id cars) ->
        exists ca cb cc,
          get_car_by_id cars a = Some ca /\ get_car_by_id cars b = Some cb
          /\ get_car_by_id cars c = Some cc
          /\ cmp_cars (compare_cars cars ids)
             = [compared a ca; compared b cb; compared c cc]).
Proof.
  assert (Hall : cmp_cars (compare_cars cars ids) = flat_map (entry_for cars) ids).
  { unfold compare_cars. rewrite compare_cars_fold. reflexivity. }
  assert (Hfound : forall id, In id (map car_id cars) ->
                     exists car, get_car_by_id cars id = Some car).
  { intros id Hin. destruct (get_car_by_id cars id) as [car|] eqn:E.
    - exists car. reflexivity.
    - apply get_car_by_id_none in E. contradiction. }
  split; [exact Hall | split; [| split]].
  - rewrite Hall. clear Hall. induction ids as [|id ids IH]; simpl.
    + reflexivity.
    + rewrite map_app, IH. unfold entry_for.
      destruct (get_car_by_id cars id) as [car|] eqn:E.
      * apply get_car_by_id_some in E. destruct E as [Hin Hid].
        assert (Hk : known_id cars id = true).
        { apply known_id_spec. rewrite <- Hid. apply in_map. exact Hin. }
        rewrite Hk. reflexivity.
      * apply get_car_by_id_none in E.
        destruct (known_id cars id) eqn:Hk; [| reflexivity].
        apply known_id_spec in Hk. contradiction.
  - rewrite Hall. clear Hall. intros Hids.
    induction Hids as [|id ids Hid _ IH]; simpl.
    + reflexivity.
    + rewrite length_app, IH. unfold entry_for.
      destruct (Hfound id Hid) as [car ->]. reflexivity.
  - intros a b c -> Ha Hb Hc.
    destruct (Hfound a Ha) as [ca Ea].
    destruct (Hfound b Hb) as [cb Eb].
    destruct (Hfound c Hc) as [cc Ec].
    exists ca, cb, cc. rewrite Hall. simpl. unfold entry_for.
    rewrite Ea, Eb, Ec. auto.
Qed.

Lemma compare_cars_entries_witness :
  length (cmp_cars (compare_cars Sample.catalog ["civic"; "supra"; "rav4-hybrid"]))
  = 3%nat
  /\ cmp_cars (compare_cars Sample.catalog ["civic"; "supra"; "rav4-hybrid"])
     = [ compared "civic" Sample.sedan; compared "supra" Sample.sports_coupe;
         compared "rav4-hybrid" Sample.hybrid_suv ].
Proof.
  destruct (compare_cars_entries Sample.catalog ["civic"; "supra"; "rav4-hybrid"])
    as (_ & _ & Hlen & H3).
  split.
  - apply Hlen. repeat apply List.Forall_cons; try apply List.Forall_nil;
      simpl; tauto.
  - assert (Ha : In "civic" (map car_id Sample.catalog)) by (simpl; tauto).
    assert (Hb : In "supra" (map car_id Sample.catalog)) by (simpl; tauto).
    assert (Hc : In "rav4-hybrid" (map car_id Sample.catalog)) by (simpl; tauto).
    destruct (H3 _ _ _ eq_refl Ha Hb Hc) as (ca & cb & cc & Ea & Eb & Ec & E).
    rewrite E. simpl in Ea, Eb, Ec.
    injection Ea as <-. injection Eb as <-. injection Ec as <-. reflexivity.
Defined.

(** An id the catalog does not have leaves no trace in the comparison. *)
Example compare_cars_unknown_id :
  map cc_id (cmp_cars (compare_cars Sample.catalog ["civic"; "no-such-car"; "supra"]))
  = ["civic"; "supra"].
Proof. reflexivity. Qed.

(* ================================================================== *)
(** * Properties of the budget-affinity curve *)
(* ================================================================== *)

Section BudgetAffinity.
Local Open Scope R_scope.

(** The curve as a function of the ratio: what [_calculate_budget_affinity]
    computes once the budget is known to be positive. *)
Lemma budget_affinity_ratio (P B : Z) :
  (0 < B)%Z ->
  let r := IZR P / IZR B in
  _calculate_budget_affinity P (Some B)
  = if decide (r <= 1) then 100 - (1 - r) * 5
    else if decide (r <= 110 / 100) then 100 - (r - 1) * 150
    else if decide (r <= 120 / 100) then 100 - (15 + (r - 110 / 100) * 250)
    else if decide (r <= 130 / 100) then 100 - (40 + (r - 120 / 100) * 300)
    else Rmax 0 (30 - (r - 130 / 100) * 50).
Proof.
  intros HB r. unfold _calculate_budget_affinity.
  replace (B =? 0)%Z with false by (symmetry; apply Z.eqb_neq; lia).
  replace (B <=? 0)%Z with false by (symmetry; apply Z.leb_gt; lia).
  reflexivity.
Qed.

Ltac curve_cases :=
  repeat match goal with
         | |- context [decide ?P] => destruct (decide P)
         | H : context [decide ?P] |- _ => destruct (decide P)
         end;
  unfold Rmax in *;
  repeat match goal with
         | |- context [Rle_dec ?a ?b] => destruct (Rle_dec a b)
         | H : context [Rle_dec ?a ?b] |- _ => destruct (Rle_dec a b)
         end;
  try lra.



(** The anchors at a budget of 20000. *)
Example budget_affinity_anchors :
  _calculate_budget_affinity 20000 (Some 20000%Z) = 100
  /\ _calculate_budget_affinity 22000 (Some 20000%Z) = 85
  /\ _calculate_budget_affinity 24000 (Some 20000%Z) = 60
  /\ _calculate_budget_affinity 26000 (Some 20000%Z) = 30
  /\ _calculate_budget_affinity 26200 (Some 20000%Z) = 295 / 10
  /\ _calculate_budget_affinity 38000 (Some 20000%Z) = 0
  /\ _calculate_budget_affinity 90000 (Some 20000%Z) = 0
  /\ _calculate_budget_affinity 10000 (Some 20000%Z) = 975 / 10.
Proof.
  repeat split;
    (rewrite budget_affinity_ratio by lia; cbv zeta; curve_cases).
Qed.

(** Without a usable budget the function itself answers 85. *)
Lemma budget_affinity_default (P B : Z) :
  _calculate_budget_affinity P None = 85
  /\ ((B <= 0)%Z -> _calculate_budget_affinity P (Some B) = 85).
Proof.
  split; [reflexivity |]. intros HB. unfold _calculate_budget_affinity.
  destruct (B =? 0)%Z; [reflexivity |].
  replace (B <=? 0)%Z with true by (symmetry; apply Z.leb_le; lia).
  reflexivity.
Qed.

End BudgetAffinity.

(* ================================================================== *)
(** * Rounding *)
(* ================================================================== *)

Section Rounding.
Local Open Scope R_scope.

Lemma Int_part_IZR (n : Z) : Int_part (IZR n) = n.
Proof. symmetry. apply Int_part_spec. lra. Qed.

Lemma frac_part_IZR (n : Z) : frac_part (IZR n) = 0.
Proof. unfold frac_part. rewrite Int_part_IZR. lra. Qed.

Lemma round_half_even_IZR (n : Z) : round_half_even (IZR n) = n.
Proof.
  unfold round_half_even. rewrite frac_part_IZR, Int_part_IZR.
  destruct (decide (0 < 1 / 2)); [reflexivity | lra].
Qed.

(** A value with at most two decimals is its own rounding. *)
Lemma round2_hundredths (n : Z) : round2 (IZR n / 100) = IZR n / 100.
Proof.
  unfold round2. replace (IZR n / 100 * 100) with (IZR n) by field.
  rewrite round_half_even_IZR. reflexivity.
Qed.

End Rounding.

(* ================================================================== *)
(** * Properties of [find_matches] *)
(* ================================================================== *)

Section FindMatches.
Local Open Scope R_scope.

(** Every match is the scored copy of a catalog entry that passed the
    filters. *)
Lemma collect_matches_members (cars : list Car) (f : Filters)
  (adjusted : Profile) (budget : option Z) (matches : list ScoredCar) :
  collect_matches cars f adjusted budget = Some matches ->
  Forall (fun s => exists car,
            In car cars
            /\ _meets_conversation_filters car f = true
            /\ score_car car adjusted budget = Some s) matches.
Proof.
  revert matches. induction cars as [|car cars IH]; intros matches; simpl.
  - intros [= <-]. apply List.Forall_nil.
  - destruct (_meets_conversation_filters car f) eqn:Em; simpl.
    + destruct (score_car car adjusted budget) as [s|] eqn:Es; [| discriminate].
      destruct (collect_matches cars f adjusted budget) as [ms|]; [| discriminate].
      intros [= <-]. apply List.Forall_cons.
      * exists car. auto.
      * eapply List.Forall_impl; [| apply IH; reflexivity].
        intros s' (c & Hc & H). exists c. split; [right; exact Hc | exact H].
    + intros H. eapply List.Forall_impl; [| apply IH; exact H].
      intros s' (c & Hc & H'). exists c. split; [right; exact Hc | exact H'].
Qed.

Lemma score_car_fields (car : Car) (adjusted : Profile) (budget : option Z)
  (s : ScoredCar) :
  score_car car adjusted budget = Some s ->
  sc_car s = car
  /\ budget_fit (score_breakdown s) = round2 (budget_score_of car budget).
Proof.
  unfold score_car. destruct (_calculate_value_score car); [| discriminate].
  intros [= <-]. split; reflexivity.
Qed.

End FindMatches.

(* ================================================================== *)
(** * The stable descending sort and slices *)
(* ================================================================== *)

Section SortFacts.
Context {A : Type}.
Variable key : A -> R.

Lemma insert_desc_In (x y : A) (l : list A) :
  In y (insert_desc key Rltb x l) <-> y = x \/ In y l.
Proof.
  induction l as [|z l IH]; simpl.
  - intuition.
  - destruct (Rltb (key x) (key z)); simpl; [rewrite IH |]; intuition.
Qed.

Lemma sort_desc_In (y : A) (l : list A) :
  In y (sort_desc key Rltb l) <-> In y l.
Proof.
  induction l as [|x l IH]; simpl; [tauto |].
  rewrite insert_desc_In, IH. intuition.
Qed.

Lemma insert_desc_length (x : A) (l : list A) :
  length (insert_desc key Rltb x l) = S (length l).
Proof.
  induction l as [|z l IH]; simpl; [reflexivity |].
  destruct (Rltb (key x) (key z)); simpl; [rewrite IH |]; reflexivity.
Qed.

Lemma sort_desc_length (l : list A) :
  length (sort_desc key Rltb l) = length l.
Proof.
  induction l as [|x l IH]; simpl; [reflexivity |].
  rewrite insert_desc_length, IH. reflexivity.
Qed.
End SortFacts.

Section SortLabelled.
Context {A : Type}.
Variable key : A -> R.

Let lkey (p : nat * A) : R := key (snd p).

Lemma insert_desc_ranks (p : nat * A) (l : list (nat * A)) :
  StronglySorted (ranks_before key) l ->
  Forall (fun q => (fst p < fst q)%nat) l ->
  StronglySorted (ranks_before key) (insert_desc lkey Rltb p l).
Proof.
  induction 1 as [|q l Hl IH Hq]; intros Hp; simpl.
  - apply SSorted_cons; [apply SSorted_nil | apply List.Forall_nil].
  - inversion Hp as [|? ? Hpq Hpl]; subst.
    unfold Rltb at 1. unfold lkey at 1 2.
    destruct (bool_decide (key (snd p) < key (snd q))%R) eqn:E;
      [apply bool_decide_eq_true in E; rename E into Hlt
      |apply bool_decide_eq_false in E; rename E into Hge].
    + apply SSorted_cons; [apply IH; exact Hpl |].
      apply List.Forall_forall. intros x Hx.
      apply insert_desc_In in Hx. destruct Hx as [-> | Hx].
      * left. exact Hlt.
      * rewrite List.Forall_forall in Hq. apply Hq. exact Hx.
    + apply SSorted_cons; [apply SSorted_cons; assumption |].
      assert (Hpq' : ranks_before key p q).
      { unfold ranks_before.
        destruct (Rle_lt_or_eq_dec (key (snd q)) (key (snd p))) as [H|H];
          [lra | left; exact H | right; split; [exact H | exact Hpq]]. }
      apply List.Forall_cons; [exact Hpq' |].
      rewrite List.Forall_forall in Hq, Hpl |- *. intros x Hx.
      specialize (Hq x Hx). specialize (Hpl x Hx).
      unfold ranks_before in *.
      destruct Hq as [Hq | [Hq _]]; destruct Hpq' as [Hpq' | [Hpq' _]];
        try (left; lra).
      right. split; [lra | exact Hpl].
Qed.

(** On a list whose labels increase, the sort puts larger keys first and
    keeps the elements with equal keys in the order of their labels. *)
Lemma sort_desc_ranks (l : list (nat * A)) :
  StronglySorted (fun p q => (fst p < fst q)%nat) l ->
  StronglySorted (ranks_before key) (sort_desc lkey Rltb l).
Proof.
  induction 1 as [|p l Hl IH Hp]; simpl.
  - apply SSorted_nil.
  - apply insert_desc_ranks; [exact IH |].
    rewrite List.Forall_forall in Hp |- *. intros q Hq.
    apply Hp. apply sort_desc_In in Hq. exact Hq.
Qed.

Lemma insert_desc_snd (p : nat * A) (l : list (nat * A)) :
  map snd (insert_desc lkey Rltb p l)
  = insert_desc key Rltb (snd p) (map snd l).
Proof.
  induction l as [|q l IH]; simpl; [reflexivity |].
  unfold lkey at 1 2. destruct (Rltb (key (snd p)) (key (snd q))); simpl.
  - rewrite IH. reflexivity.
  - reflexivity.
Qed.

(** Sorting does not look at the labels. *)
Lemma sort_desc_snd (l : list (nat * A)) :
  map snd (sort_desc lkey Rltb l) = sort_desc key Rltb (map snd l).
Proof.
  induction l as [|p l IH]; simpl; [reflexivity |].
  rewrite insert_desc_snd, IH. reflexivity.
Qed.
End SortLabelled.

Section Slices.
Context {A : Type}.

Lemma firstn_In (k : nat) (l : list A) (x : A) :
  In x (firstn k l) -> In x l.
Proof.
  revert k. induction l as [|y l IH]; intros [|k]; simpl; try tauto.
  intros [H | H]; [left; exact H | right; apply (IH k H)].
Qed.

Lemma py_prefix_firstn (n : Z) (l : list A) :
  exists k, py_prefix n l = firstn k l.
Proof. unfold py_prefix. destruct (n <? 0); eauto. Qed.

Lemma py_prefix_length (n : Z) (l : list A) :
  0 <= n -> len (py_prefix n l) <= n.
Proof.
  intros Hn. unfold py_prefix, len.
  replace (n <? 0) with false by (symmetry; apply Z.ltb_ge; lia).
  rewrite length_firstn. lia.
Qed.

Lemma py_prefix_negative_length (n : Z) (l : list A) :
  n < 0 -> len (py_prefix n l) = Z.max 0 (len l + n).
Proof.
  intros Hn. unfold py_prefix, len.
  replace (n <? 0) with true by (symmetry; apply Z.ltb_lt; lia).
  rewrite length_firstn. lia.
Qed.

Lemma py_prefix_map {B : Type} (g : A -> B) (n : Z) (l : list A) :
  py_prefix n (map g l) = map g (py_prefix n l).
Proof.
  unfold py_prefix. rewrite length_map.
  destruct (n <? 0); apply firstn_map.
Qed.

Lemma Forall_py_prefix (P : A -> Prop) (n : Z) (l : list A) :
  Forall P l -> Forall P (py_prefix n l).
Proof.
  intros H. destruct (py_prefix_firstn n l) as [k ->].
  rewrite List.Forall_forall in H |- *. intros x Hx.
  apply H. eapply firstn_In; eauto.
Qed.

Lemma StronglySorted_firstn (R : A -> A -> Prop) (k : nat) (l : list A) :
  StronglySorted R l -> StronglySorted R (firstn k l).
Proof.
  intros H. revert k. induction H as [|x l Hl IH Hx]; intros [|k]; simpl;
    try apply SSorted_nil.
  apply SSorted_cons; [apply IH |].
  rewrite List.Forall_forall in Hx |- *. intros y Hy.
  apply Hx. eapply firstn_In; eauto.
Qed.

Lemma StronglySorted_lookup (R : A -> A -> Prop) (l : list A) :
  StronglySorted R l ->
  forall (i j : nat) (x y : A),
    (i < j)%nat -> l !! i = Some x -> l !! j = Some y -> R x y.
Proof.
  induction 1 as [|z l Hl IH Hz]; intros i j x y Hij Hi Hj.
  - destruct i; discriminate.
  - destruct j as [|j]; [lia |]. simpl in Hj.
    destruct i as [|i]; simpl in Hi.
    + injection Hi as <-. rewrite List.Forall_forall in Hz. apply Hz.
      apply list_elem_of_In. eapply list_elem_of_lookup_2. exact Hj.
    + apply (IH i j); [lia | assumption | assumption].
Qed.
End Slices.

(* ================================================================== *)
(** * Filters, length and order of the ranking *)
(* ================================================================== *)

Lemma fuel_rejects_false (car : Car) (v : string) :
  fuel_rejects car v = false ->
  (PyStr.lower v = "hybrid" ->
   PyStr.contains "hybrid" (PyStr.lower (engine (specifications car))) = true)
  /\ (PyStr.lower v = "electric" ->
      PyStr.contains "electric" (PyStr.lower (engine (specifications car))) = true
      \/ PyStr.contains "ev" (PyStr.lower (engine (specifications car))) = true).
Proof.
  unfold fuel_rejects. intros H. split; intros Hv; rewrite Hv in H; simpl in H.
  - destruct (PyStr.contains "hybrid" _); [reflexivity | discriminate].
  - destruct (PyStr.contains "electric" _); [left; reflexivity |].
    destruct (PyStr.contains "ev" _); [right; reflexivity | discriminate].
Qed.

(** A car the function accepts meets every filter that is set. *)
Lemma meets_filters_satisfies (car : Car) (f : Filters) :
  _meets_conversation_filters car f = true -> satisfies_filters car f.
Proof.
  unfold _meets_conversation_filters. intros H.
  destruct (filters_empty f) eqn:Ee.
  - destruct f as [[?|] [?|] [?|] [?|] [?|] [?|] [?|]]; try discriminate Ee.
    unfold satisfies_filters. simpl. repeat split; intros; discriminate.
  - repeat match type of H with
           | (if ?b then false else _) = true =>
               let E := fresh "E" in destruct b eqn:E; [discriminate H |]
           end.
    unfold satisfies_filters.
    refine (conj _ (conj _ (conj _ (conj _ (conj _ (conj _ _))))));
      intros v Hv;
      match goal with
      | E : rejected_by ?field _ = false, Hv : ?field = Some _ |- _ =>
          rewrite Hv in E; simpl in E
      end.
    + apply negb_false_iff in E. apply String.eqb_eq in E. exact E.
    + apply Z.ltb_ge in E0. exact E0.
    + apply Z.ltb_ge in E1. exact E1.
    + apply Z.ltb_ge in E2. exact E2.
    + apply (fuel_rejects_false car v E3).
    + apply negb_false_iff in E4. exact E4.
    + apply Z.ltb_ge in E5. exact E5.
Qed.

Section RankingFacts.
Local Open Scope R_scope.

Lemma value_score_defined (car : Car) :
  msrp (basic_info car) <> 0%Z ->
  mpg_combined (specifications car) <> 0%Z ->
  exists v, _calculate_value_score car = Some v.
Proof.
  intros Hp Hm. unfold _calculate_value_score.
  apply Z.eqb_neq in Hp. apply Z.eqb_neq in Hm. rewrite Hp, Hm. eauto.
Qed.

Lemma score_car_defined (car : Car) (adjusted : Profile) (budget : option Z) :
  msrp (basic_info car) <> 0%Z ->
  mpg_combined (specifications car) <> 0%Z ->
  exists s, score_car car adjusted budget = Some s.
Proof.
  intros Hp Hm. unfold score_car.
  destruct (value_score_defined car Hp Hm) as [v ->]. eauto.
Qed.

(** The loop raises only on a division by zero: when no car has a price or a
    fuel economy of 0 it yields the scored copies of the cars that pass the
    filters, in catalog order. *)
Lemma collect_matches_defined (cars : list Car) (f : Filters)
  (adjusted : Profile) (budget : option Z) :
  Forall (fun car => msrp (basic_info car) <> 0%Z
                     /\ mpg_combined (specifications car) <> 0%Z) cars ->
  exists matches,
    collect_matches cars f adjusted budget = Some matches
    /\ map sc_car matches
       = List.filter (fun car => _meets_conversation_filters car f) cars.
Proof.
  induction 1 as [|car cars [Hp Hm] _ (matches & IH1 & IH2)]; simpl.
  - exists []. auto.
  - destruct (_meets_conversation_filters car f) eqn:Em; simpl.
    + destruct (score_car_defined car adjusted budget Hp Hm) as [s Es].
      rewrite Es, IH1. exists (s :: matches). split; [reflexivity |].
      simpl. rewrite IH2. apply score_car_fields in Es. destruct Es as [-> _].
      reflexivity.
    + exists matches. auto.
Qed.

Lemma find_matches_defined (cars : list Car) (profile : Profile)
  (budget : option Z) (ctx : option (list message)) (top_n : Z) :
  Forall (fun car => msrp (basic_info car) <> 0%Z
                     /\ mpg_combined (specifications car) <> 0%Z) cars ->
  exists res, find_matches cars profile budget ctx top_n = Some res.
Proof.
  intros H. unfold find_matches.
  destruct (collect_matches_defined cars
              (filters (_parse_conversation_preferences ctx))
              (adjust_profile profile
                 (lifestyle_boosts (_parse_conversation_preferences ctx)))
              budget H) as (matches & -> & _).
  eauto.
Qed.

Lemma sample_catalog_divisors :
  Forall (fun car => msrp (basic_info car) <> 0%Z
                     /\ mpg_combined (specifications car) <> 0%Z) Sample.catalog.
Proof.
  repeat apply List.Forall_cons; try apply List.Forall_nil;
    split; discriminate.
Qed.




End RankingFacts.

Section Order.
Local Open Scope R_scope.

Lemma collect_indexed_snd (i : nat) (cars : list Car) (f : Filters)
  (adjusted : Profile) (budget : option Z) :
  option_map (map snd) (collect_indexed i cars f adjusted budget)
  = collect_matches cars f adjusted budget.
Proof.
  revert i. induction cars as [|car cars IH]; intros i; simpl.
  - reflexivity.
  - destruct (negb (_meets_conversation_filters car f)); [apply IH |].
    destruct (score_car car adjusted budget) as [s|]; [| reflexivity].
    rewrite <- (IH (S i)).
    destruct (collect_indexed (S i) cars f adjusted budget); reflexivity.
Qed.

(** The labels are catalog positions: they increase along the list of
    matches, and each match is the scored copy of the car at its label. *)
Lemma collect_indexed_labels (i : nat) (cars : list Car) (f : Filters)
  (adjusted : Profile) (budget : option Z) (dl : list (nat * ScoredCar)) :
  collect_indexed i cars f adjusted budget = Some dl ->
  StronglySorted (fun p q => (fst p < fst q)%nat) dl
  /\ Forall (fun p => (i <= fst p)%nat
                      /\ exists car, cars !! (fst p - i)%nat = Some car
                                     /\ score_car car adjusted budget = Some (snd p))
            dl.
Proof.
  revert i dl. induction cars as [|car cars IH]; intros i dl; simpl.
  - intros [= <-]. split; [apply SSorted_nil | apply List.Forall_nil].
  - assert (Hshift : forall dl',
               Forall (fun p => (S i <= fst p)%nat
                        /\ exists c, cars !! (fst p - S i)%nat = Some c
                                     /\ score_car c adjusted budget = Some (snd p))
                      dl' ->
               Forall (fun p => (i <= fst p)%nat
                        /\ exists c, (car :: cars) !! (fst p - i)%nat = Some c
                                     /\ score_car c adjusted budget = Some (snd p))
                      dl').
    { intros dl' H. eapply List.Forall_impl; [| exact H].
      intros p (Hle & c & Hc & Hs). split; [lia |]. exists c. split; [| exact Hs].
      replace (fst p - i)%nat with (S (fst p - S i)) by lia. exact Hc. }
    destruct (negb (_meets_conversation_filters car f)).
    + intros H. destruct (IH _ _ H) as [Hs Hf]. split; [exact Hs | auto].
    + destruct (score_car car adjusted budget) as [s|] eqn:Es; [| discriminate].
      destruct (collect_indexed (S i) cars f adjusted budget) as [dl'|] eqn:Ed;
        [| discriminate].
      intros [= <-]. destruct (IH _ _ Ed) as [Hs Hf]. split.
      * apply SSorted_cons; [exact Hs |].
        eapply List.Forall_impl; [| exact Hf].
        intros p (Hle & _). simpl. lia.
      * apply List.Forall_cons; [| auto].
        simpl. split; [lia |]. exists car. rewrite Nat.sub_diag. auto.
Qed.

Lemma lookup_map {A B : Type} (g : A -> B) (l : list A) (k : nat) :
  map g l !! k = option_map g (l !! k).
Proof.
  revert k. induction l as [|x l IH]; intros [|k]; simpl; auto.
Qed.

(** C4.  Whenever [find_matches] returns, its entries can be labelled with
    positions of the catalog (entry k is the scored copy of the car at
    position origin[k]) so that, for any two entries, the earlier one has a
    match score (the composite rounded to 2 decimals) at least that of the
    later one, and when the two scores are equal the earlier one comes from
    the earlier catalog position. *)
Theorem find_matches_sorted_stable (cars : list Car) (profile : Profile)
  (budget : option Z) (ctx : option (list message)) (top_n : Z)
  (res : list ScoredCar) :
  find_matches cars profile budget ctx top_n = Some res ->
  exists origin : list nat,
    length origin = length res
    /\ (forall k i s,
          origin !! k = Some i -> res !! k = Some s ->
          exists car,
            cars !! i = Some car /\ sc_car s = car
            /\ score_car car
                 (adjust_profile profile
                    (lifestyle_boosts (_parse_conversation_preferences ctx)))
                 budget = Some s)
    /\ (forall k1 k2 i1 i2 s1 s2,
          (k1 < k2)%nat ->
          origin !! k1 = Some i1 -> origin !! k2 = Some i2 ->
          res !! k1 = Some s1 -> res !! k2 = Some s2 ->
          match_score s2 <= match_score s1
          /\ (match_score s1 = match_score s2 -> (i1 < i2)%nat)).
Proof.
  unfold find_matches.
  set (f := filters (_parse_conversation_preferences ctx)).
  set (adjusted := adjust_profile profile _).
  rewrite <- (collect_indexed_snd 0 cars f adjusted budget).
  destruct (collect_indexed 0 cars f adjusted budget) as [dl|] eqn:Ed;
    [| discriminate].
  simpl. intros [= <-].
  destruct (collect_indexed_labels _ _ _ _ _ _ Ed) as [Hinc Hlab].
  pose proof (sort_desc_ranks match_score dl Hinc) as Hsorted.
  rewrite <- (sort_desc_snd match_score dl), py_prefix_map.
  set (sorted := sort_desc (fun p => match_score (snd p)) Rltb dl) in *.
  assert (Hpre : StronglySorted (ranks_before match_score) (py_prefix top_n sorted)).
  { destruct (py_prefix_firstn top_n sorted) as [k ->].
    apply StronglySorted_firstn. exact Hsorted. }
  assert (Hmem : forall p, In p (py_prefix top_n sorted) -> In p dl).
  { intros p Hp. destruct (py_prefix_firstn top_n sorted) as [k Hk].
    rewrite Hk in Hp. apply firstn_In in Hp.
    exact (proj1 (sort_desc_In (fun q => match_score (snd q)) p dl) Hp). }
  assert (Hpair : forall k i s,
             map fst (py_prefix top_n sorted) !! k = Some i ->
             map snd (py_prefix top_n sorted) !! k = Some s ->
             py_prefix top_n sorted !! k = Some (i, s)).
  { intros k i s. rewrite !lookup_map.
    destruct (py_prefix top_n sorted !! k) as [[i' s']|]; simpl;
      [intros [= ->] [= ->]; reflexivity | discriminate]. }
  exists (map fst (py_prefix top_n sorted)). split; [| split].
  - rewrite !length_map. reflexivity.
  - intros k i s Hi Hs. pose proof (Hpair k i s Hi Hs) as Hk.
    apply list_elem_of_lookup_2, list_elem_of_In, Hmem in Hk.
    rewrite List.Forall_forall in Hlab.
    destruct (Hlab _ Hk) as (_ & car & Hcar & Hsc). simpl in *.
    rewrite Nat.sub_0_r in Hcar. exists car.
    split; [exact Hcar | split; [| exact Hsc]].
    apply score_car_fields in Hsc. tauto.
  - intros k1 k2 i1 i2 s1 s2 Hlt Hi1 Hi2 Hs1 Hs2.
    pose proof (StronglySorted_lookup _ _ Hpre k1 k2 _ _ Hlt
                  (Hpair _ _ _ Hi1 Hs1) (Hpair _ _ _ Hi2 Hs2)) as Hr.
    unfold ranks_before in Hr. simpl in Hr.
    destruct Hr as [Hr | [Hr1 Hr2]]; split; try lra; intros; try lra; exact Hr2.
Qed.

Lemma find_matches_sorted_stable_witness :
  exists res origin,
    find_matches Sample.catalog Sample.profile (Some 35000%Z) Sample.kids_turn 4
    = Some res
    /\ length origin = length res
    /\ forall k1 k2 i1 i2 s1 s2,
         (k1 < k2)%nat ->
         origin !! k1 = Some i1 -> origin !! k2 = Some i2 ->
         res !! k1 = Some s1 -> res !! k2 = Some s2 ->
         match_score s2 <= match_score s1
         /\ (match_score s1 = match_score s2 -> (i1 < i2)%nat).
Proof.
  destruct (find_matches_defined Sample.catalog Sample.profile (Some 35000%Z)
              Sample.kids_turn 4 sample_catalog_divisors) as [res Hres].
  destruct (find_matches_sorted_stable _ _ _ _ _ _ Hres) as (origin & Hlen & _ & Hord).
  exists res, origin. auto.
Defined.

End Order.

Section MissingBudget.
Local Open Scope R_scope.

Lemma score_car_budget (car : Car) (adjusted : Profile) (budget : option Z)
  (s : ScoredCar) :
  score_car car adjusted budget = Some s ->
  exists v,
    _calculate_value_score car = Some v
    /\ match_score s
       = round2 (composite_of
                   (_calculate_cosine_similarity (lifestyle_scores car) adjusted)
                   (budget_score_of car budget)
                   (_calculate_feature_score car adjusted) v)
    /\ budget_fit (score_breakdown s) = round2 (budget_score_of car budget).
Proof.
  unfold score_car. destruct (_calculate_value_score car) as [v|]; [| discriminate].
  intros [= <-]. exists v. auto.
Qed.

(** What every entry of a ranking reports when the budget is [None] or 0. *)
Lemma find_matches_falsy_budget (cars : list Car) (profile : Profile)
  (budget : option Z) (ctx : option (list message)) (top_n : Z)
  (res : list ScoredCar) :
  budget = None \/ budget = Some 0%Z ->
  find_matches cars profile budget ctx top_n = Some res ->
  Forall (fun s => budget_fit (score_breakdown s) = 85 / 100) res.
Proof.
  intros Hb. unfold find_matches.
  destruct (collect_matches cars _ _ budget) as [matches|] eqn:Ec; [| discriminate].
  intros [= <-]. apply Forall_py_prefix.
  apply collect_matches_members in Ec.
  rewrite List.Forall_forall in Ec |- *. intros s Hs.
  apply sort_desc_In in Hs.
  destruct (Ec s Hs) as (car & _ & _ & Hsc).
  apply score_car_fields in Hsc. destruct Hsc as [_ ->].
  replace (budget_score_of car budget) with (85 / 100)
    by (destruct Hb as [-> | ->]; reflexivity).
  apply round2_hundredths.
Qed.

(** C1 (the code at the failing input).  Called without a budget, or with a
    budget of 0, [find_matches] uses 0.85 as the budget score of the
    composite and reports 0.85, not 85, as budget_fit; only a negative budget
    reaches the default of 85 inside [_calculate_budget_affinity]. *)
Theorem missing_budget_scores_085 :
  (forall car,
     budget_score_of car None = 85 / 100
     /\ budget_score_of car (Some 0%Z) = 85 / 100
     /\ forall p, budget_score_of car (Some (Z.neg p)) = 85)
  /\ exists res,
       find_matches Sample.catalog Sample.profile None None 4 = Some res
       /\ length res = 3%nat
       /\ Forall (fun s => budget_fit (score_breakdown s) = 85 / 100
                           /\ budget_fit (score_breakdown s) <> 85) res.
Proof.
  split.
  - intros car. repeat split; reflexivity.
  - destruct (find_matches_defined Sample.catalog Sample.profile None None 4
                sample_catalog_divisors) as [res Hres].
    exists res. split; [exact Hres | split].
    + revert Hres. unfold find_matches.
      destruct (collect_matches_defined Sample.catalog
                  (filters (_parse_conversation_preferences None))
                  (adjust_profile Sample.profile
                     (lifestyle_boosts (_parse_conversation_preferences None)))
                  None sample_catalog_divisors) as (matches & -> & Hcars).
      intros [= <-].
      assert (Hlen : length matches = 3%nat).
      { rewrite <- (length_map sc_car), Hcars. reflexivity. }
      unfold py_prefix. simpl. rewrite length_firstn, sort_desc_length, Hlen.
      reflexivity.
    + eapply List.Forall_impl;
        [| apply (find_matches_falsy_budget _ _ None _ _ _ (or_introl eq_refl) Hres)].
      intros s ->. split; lra.
Qed.

End MissingBudget.

(* ================================================================== *)
(** * Properties of the weighted cosine similarity *)
(* ================================================================== *)

Section Cosine.
Local Open Scope R_scope.

Lemma importance_positive (dimension : string) :
  0 < dict_get_default dimension_importance dimension 1.
Proof.
  unfold dict_get_default, dimension_importance. cbn [dict_get].
  repeat match goal with
         | |- context [String.eqb ?a ?b] => destruct (String.eqb a b)
         end; lra.
Qed.

Variable car_scores : Dict Z.

(** The sums over vectors that agree where both are defined. *)
Lemma cosine_fold_identical (l : Profile) (acc : CosineAcc) :
  (forall d u c, In (d, u) l -> dict_get car_scores d = Some c ->
                 c = u /\ (0 < u)%Z) ->
  dot_product acc = car_magnitude acc ->
  car_magnitude acc = user_magnitude acc ->
  0 <= car_magnitude acc ->
  let acc' := fold_left (cosine_step car_scores) l acc in
  dot_product acc' = car_magnitude acc'
  /\ car_magnitude acc' = user_magnitude acc'
  /\ car_magnitude acc <= car_magnitude acc'
  /\ ((exists d u, In (d, u) l /\ dict_mem car_scores d = true) ->
      0 < car_magnitude acc').
Proof.
  revert acc. induction l as [|[d u] l IH]; intros acc Hl Hdc Hcu Hc; simpl.
  - repeat split; try assumption; try lra.
    intros (? & ? & [] & _).
  - assert (Hl' : forall d u c, In (d, u) l -> dict_get car_scores d = Some c ->
                                c = u /\ (0 < u)%Z).
    { intros d' u' c' Hin. apply Hl. right. exact Hin. }
    set (acc1 := cosine_step car_scores acc (d, u)).
    assert (Hacc1 : dot_product acc1 = car_magnitude acc1
                    /\ car_magnitude acc1 = user_magnitude acc1
                    /\ car_magnitude acc <= car_magnitude acc1
                    /\ (dict_mem car_scores d = true -> 0 < car_magnitude acc1)).
    { unfold acc1, cosine_step, dict_mem. simpl fst. simpl snd.
      destruct (dict_get car_scores d) as [c|] eqn:Ec.
      - destruct (Hl d u c (or_introl eq_refl) Ec) as [-> Hu].
        pose proof (importance_positive d) as Hw.
        set (w := dict_get_default dimension_importance d 1) in *.
        assert (Hpos : 0 < IZR u * w)
          by (apply Rmult_lt_0_compat; [apply IZR_lt; lia | lra]).
        simpl. repeat split; try nra.
      - simpl. repeat split; try assumption; try lra; try discriminate. }
    destruct Hacc1 as (A1 & A2 & A3 & A4).
    destruct (IH acc1 Hl' A1 A2 ltac:(lra)) as (H1 & H2 & H3 & H4).
    repeat split; try assumption; try lra.
    intros (d' & u' & [Heq | Hin] & Hmem).
    + injection Heq as <- <-. specialize (A4 Hmem). lra.
    + apply H4. eauto.
Qed.

Lemma cauchy_schwarz_step (D A B a b : R) :
  0 <= D -> 0 <= A -> 0 <= B -> 0 <= a -> 0 <= b ->
  D * D <= A * B ->
  (D + a * b) * (D + a * b) <= (A + a * a) * (B + b * b).
Proof.
  intros HD HA HB Ha Hb H.
  assert (Hab : 0 <= a * b) by (apply Rmult_le_pos; assumption).
  assert (Hx : 0 <= A * (b * b) + B * (a * a)).
  { apply Rplus_le_le_0_compat; apply Rmult_le_pos; try assumption; apply Rle_0_sqr. }
  assert (Hy : 0 <= 2 * D * (a * b)).
  { apply Rmult_le_pos; [lra | assumption]. }
  assert (Hsq : (2 * D * (a * b)) * (2 * D * (a * b))
                <= (A * (b * b) + B * (a * a)) * (A * (b * b) + B * (a * a))).
  { assert (H1 : 0 <= (A * (b * b) - B * (a * a)) * (A * (b * b) - B * (a * a)))
      by apply Rle_0_sqr.
    assert (H2 : 0 <= (a * b) * (a * b) * (A * B - D * D)).
    { apply Rmult_le_pos; [apply Rle_0_sqr | lra]. }
    replace ((A * (b * b) + B * (a * a)) * (A * (b * b) + B * (a * a)))
      with ((A * (b * b) - B * (a * a)) * (A * (b * b) - B * (a * a))
            + 4 * ((a * b) * (a * b) * (A * B - D * D))
            + 2 * D * (a * b) * (2 * D * (a * b))) by ring.
    lra. }
  assert (Hle : 2 * D * (a * b) <= A * (b * b) + B * (a * a)).
  { apply Rsqr_incr_0; unfold Rsqr; assumption. }
  replace ((D + a * b) * (D + a * b))
    with (D * D + 2 * D * (a * b) + a * a * (b * b)) by ring.
  replace ((A + a * a) * (B + b * b))
    with (A * B + (A * (b * b) + B * (a * a)) + a * a * (b * b)) by ring.
  lra.
Qed.

(** The sums over positive vectors obey the Cauchy-Schwarz inequality. *)
Lemma cosine_fold_bounded (l : Profile) (acc : CosineAcc) :
  (forall d u, In (d, u) l -> (0 < u)%Z) ->
  (forall d c, dict_get car_scores d = Some c -> (0 < c)%Z) ->
  0 <= dot_product acc -> 0 <= car_magnitude acc -> 0 <= user_magnitude acc ->
  dot_product acc * dot_product acc <= car_magnitude acc * user_magnitude acc ->
  let acc' := fold_left (cosine_step car_scores) l acc in
  0 <= dot_product acc'
  /\ 0 <= car_magnitude acc' /\ 0 <= user_magnitude acc'
  /\ dot_product acc' * dot_product acc'
     <= car_magnitude acc' * user_magnitude acc'.
Proof.
  intros Hl Hcar. revert acc.
  induction l as [|[d u] l IH]; intros acc HD HA HB Hcs; simpl.
  - auto.
  - assert (Hl' : forall d u, In (d, u) l -> (0 < u)%Z).
    { intros d' u' Hin. apply (Hl d'). right. exact Hin. }
    apply (IH Hl'); unfold cosine_step; simpl fst; simpl snd;
      destruct (dict_get car_scores d) as [c|] eqn:Ec; simpl; try assumption;
      pose proof (importance_positive d) as Hw;
      pose proof (IZR_lt 0 u (Hl d u (or_introl eq_refl))) as Hu;
      pose proof (IZR_lt 0 c (Hcar d c Ec)) as Hc;
      set (w := dict_get_default dimension_importance d 1) in *;
      assert (Ha : 0 <= IZR c * w) by nra;
      assert (Hb : 0 <= IZR u * w) by nra;
      try nra.
    rewrite !Rmult_1_r. apply cauchy_schwarz_step; assumption.
Qed.

End Cosine.

Section CosineTheorems.
Local Open Scope R_scope.




End CosineTheorems.

(* ================================================================== *)
(** * The frame of [find_matches] in the store model *)
(* ================================================================== *)

Module StoreFacts.
Import Store.

Lemma keeps_ret {A : Type} (n : nat) (a : A) (Q : A -> Prop) :
  Q a -> keeps n (ret a) Q.
Proof. intros HQ h a' h' Hn [= <- <-]. auto. Qed.

Lemma keeps_bind {A B : Type} (n : nat) (m : M A) (k : A -> M B)
  (Q : A -> Prop) (Q' : B -> Prop) :
  keeps n m Q -> (forall a, Q a -> keeps n (k a) Q') -> keeps n (bind m k) Q'.
Proof.
  intros Hm Hk h b h' Hn. unfold bind.
  destruct (m h) as [[a h1]|] eqn:Em; [| discriminate].
  intros Ek. destruct (Hm _ _ _ Hn Em) as (Hn1 & Hf1 & HQ).
  destruct (Hk a HQ _ _ _ Hn1 Ek) as (Hn2 & Hf2 & HQ').
  split; [exact Hn2 | split; [| exact HQ']].
  intros l Hl. rewrite Hf2, Hf1 by exact Hl. reflexivity.
Qed.

Lemma keeps_weaken {A : Type} (n : nat) (m : M A) (Q Q' : A -> Prop) :
  keeps n m Q -> (forall a, Q a -> Q' a) -> keeps n m Q'.
Proof.
  intros Hm HQ h a h' Hn E. destruct (Hm _ _ _ Hn E) as (? & ? & ?). auto.
Qed.

Lemma keeps_raise {A : Type} (n : nat) (Q : A -> Prop) : keeps n raise Q.
Proof. intros h a h' _ H. discriminate H. Qed.

Lemma keeps_lift {A : Type} (n : nat) (o : option A) :
  keeps n (lift o) (fun _ => True).
Proof. destruct o; [apply keeps_ret; exact I | apply keeps_raise]. Qed.

Lemma keeps_load (n : nat) (l : loc) : keeps n (load l) (fun _ => True).
Proof.
  intros h o h' Hn. unfold load. destruct (h !! l); [| discriminate].
  intros [= <- <-]. auto.
Qed.

(** A new object gets an address that is not below [n]. *)
Lemma keeps_alloc (n : nat) (o : Obj) :
  keeps n (alloc o) (fun l => (n <= l)%nat).
Proof.
  intros h l h' Hn [= <- <-]. rewrite length_app. simpl.
  split; [lia | split; [| exact Hn]].
  intros l Hl. apply lookup_app_l. lia.
Qed.

(** A write at an address that is not below [n]. *)
Lemma keeps_store (n : nat) (l : loc) (o : Obj) :
  (n <= l)%nat -> keeps n (store l o) (fun _ => True).
Proof.
  intros Hl h u h' Hn. unfold store.
  destruct (decide (l < length h)%nat); [| discriminate].
  intros [= <- <-]. rewrite length_insert.
  split; [exact Hn | split; [| exact I]].
  intros l' Hl'. apply list_lookup_insert_ne. lia.
Qed.

Lemma keeps_load_profile (n : nat) (l : loc) :
  keeps n (load_profile l) (fun _ => True).
Proof.
  unfold load_profile. eapply keeps_bind; [apply keeps_load |].
  intros [p | d] _; [apply keeps_ret; exact I | apply keeps_raise].
Qed.

Lemma keeps_load_car (n : nat) (l : loc) :
  keeps n (load_car l) (fun _ => True).
Proof.
  unfold load_car. eapply keeps_bind; [apply keeps_load |].
  intros [p | d] _; [apply keeps_raise | apply keeps_ret; exact I].
Qed.

Lemma keeps_copy (n : nat) (l : loc) :
  keeps n (copy l) (fun l' => (n <= l')%nat).
Proof.
  unfold copy. eapply keeps_bind; [apply keeps_load |].
  intros o _. apply keeps_alloc.
Qed.

Lemma keeps_profile_setitem (n : nat) (l : loc) (k : string) (v : Z) :
  (n <= l)%nat -> keeps n (profile_setitem l k v) (fun _ => True).
Proof.
  intros Hl. unfold profile_setitem.
  eapply keeps_bind; [apply keeps_load_profile |].
  intros p _. apply keeps_store. exact Hl.
Qed.

Lemma keeps_set_match_score (n : nat) (l : loc) (v : R) :
  (n <= l)%nat -> keeps n (set_match_score l v) (fun _ => True).
Proof.
  intros Hl. unfold set_match_score.
  eapply keeps_bind; [apply keeps_load_car |].
  intros d _. apply keeps_store. exact Hl.
Qed.

Lemma keeps_set_score_breakdown (n : nat) (l : loc) (v : ScoreBreakdown) :
  (n <= l)%nat -> keeps n (set_score_breakdown l v) (fun _ => True).
Proof.
  intros Hl. unfold set_score_breakdown.
  eapply keeps_bind; [apply keeps_load_car |].
  intros d _. apply keeps_store. exact Hl.
Qed.

Lemma keeps_set_match_reasons (n : nat) (l : loc) (v : list string) :
  (n <= l)%nat -> keeps n (set_match_reasons l v) (fun _ => True).
Proof.
  intros Hl. unfold set_match_reasons.
  eapply keeps_bind; [apply keeps_load_car |].
  intros d _. apply keeps_store. exact Hl.
Qed.

(** A loop keeps the store when its body does and maintains [Q]. *)
Lemma keeps_for_each {A S : Type} (n : nat) (l : list A) (s : S)
  (body : S -> A -> M S) (Q : S -> Prop) :
  Q s ->
  (forall s a, Q s -> keeps n (body s a) Q) ->
  keeps n (for_each l s body) Q.
Proof.
  intros Hs Hbody. revert s Hs. induction l as [|a l IH]; intros s Hs; simpl.
  - apply keeps_ret. exact Hs.
  - eapply keeps_bind; [apply Hbody; exact Hs |].
    intros s' Hs'. apply IH. exact Hs'.
Qed.

Lemma keeps_apply_boosts (n : nat) (adjusted_profile : loc) (boosts : Dict Z) :
  (n <= adjusted_profile)%nat ->
  keeps n (apply_boosts adjusted_profile boosts) (fun _ => True).
Proof.
  intros Hl. unfold apply_boosts. apply keeps_for_each; [exact I |].
  intros [] entry _.
  eapply keeps_bind; [apply keeps_load_profile |].
  intros p _. destruct (dict_get p (fst entry)).
  - apply keeps_profile_setitem. exact Hl.
  - apply keeps_ret. exact I.
Qed.

Lemma keeps_match_step (n : nat) (f : Filters) (adjusted_profile : loc)
  (budget : option Z) (matches : list loc) (car_ref : loc) :
  Forall (fun l => (n <= l)%nat) matches ->
  keeps n (match_step f adjusted_profile budget matches car_ref)
    (Forall (fun l => (n <= l)%nat)).
Proof.
  intros Hm. unfold match_step.
  eapply keeps_bind; [apply keeps_load_car |]. intros d _.
  destruct (negb (_meets_conversation_filters (cd_car d) f)).
  - apply keeps_ret. exact Hm.
  - eapply keeps_bind; [apply keeps_load_profile |]. intros profile _.
    eapply keeps_bind; [apply keeps_lift |]. intros v _.
    eapply keeps_bind; [apply keeps_copy |]. intros car_with_score Hfresh.
    eapply keeps_bind; [apply keeps_set_match_score; exact Hfresh |]. intros _ _.
    eapply keeps_bind; [apply keeps_set_score_breakdown; exact Hfresh |].
    intros _ _.
    eapply keeps_bind; [apply keeps_set_match_reasons; exact Hfresh |].
    intros _ _. apply keeps_ret.
    apply Forall_app. split; [exact Hm |].
    apply List.Forall_cons; [exact Hfresh | apply List.Forall_nil].
Qed.

Lemma keeps_sort_keys (n : nat) (matches : list loc) :
  Forall (fun l => (n <= l)%nat) matches ->
  keeps n (sort_keys matches) (Forall (fun p => (n <= fst p)%nat)).
Proof.
  intros Hm. unfold sort_keys.
  assert (H : forall keyed,
             Forall (fun p : loc * R => (n <= fst p)%nat) keyed ->
             keeps n (for_each matches keyed (fun keyed l =>
                        d <- load_car l ;;
                        key <- lift (cd_match_score d) ;;
                        ret (keyed ++ [(l, key)])))
                   (Forall (fun p => (n <= fst p)%nat))).
  { induction Hm as [|l matches Hl _ IH]; intros keyed Hk; simpl.
    - apply keeps_ret. exact Hk.
    - eapply keeps_bind; [| intros keyed' Hk'; apply IH; exact Hk'].
      eapply keeps_bind; [apply keeps_load_car |]. intros d _.
      eapply keeps_bind; [apply keeps_lift |]. intros key _.
      apply keeps_ret. apply Forall_app. split; [exact Hk |].
      apply List.Forall_cons; [exact Hl | apply List.Forall_nil]. }
  apply H. apply List.Forall_nil.
Qed.

Lemma keeps_find_matches (n : nat) (cars : list loc) (lifestyle_profile : loc)
  (budget : option Z) (ctx : option (list message)) (top_n : Z) :
  keeps n (find_matches cars lifestyle_profile budget ctx top_n)
    (Forall (fun l => (n <= l)%nat)).
Proof.
  unfold find_matches.
  eapply keeps_bind; [apply keeps_copy |]. intros adjusted_profile Hfresh.
  eapply keeps_bind; [apply keeps_apply_boosts; exact Hfresh |]. intros _ _.
  eapply keeps_bind.
  { apply keeps_for_each; [apply List.Forall_nil |].
    intros matches car_ref Hm. apply keeps_match_step. exact Hm. }
  intros matches Hm.
  eapply keeps_bind; [apply keeps_sort_keys; exact Hm |]. intros keyed Hk.
  apply keeps_ret. apply Forall_py_prefix.
  rewrite List.Forall_forall in Hk |- *. intros l Hl.
  apply in_map_iff in Hl. destruct Hl as (p & <- & Hp).
  apply sort_desc_In in Hp. apply Hk. exact Hp.
Qed.

End StoreFacts.

(** Sorting commutes with a map that the key function factors through. *)
Lemma sort_desc_map {A B K : Type} (g : B -> A) (key : A -> K)
  (lt : K -> K -> bool) (l : list B) :
  map g (sort_desc (fun b => key (g b)) lt l) = sort_desc key lt (map g l).
Proof.
  induction l as [|b l IH]; simpl; [reflexivity |].
  rewrite <- IH. generalize (sort_desc (fun b => key (g b)) lt l) as s.
  induction s as [|c s IHs]; simpl; [reflexivity |].
  destruct (lt (key (g b)) (key (g c))); simpl; [rewrite IHs |]; reflexivity.
Qed.

(* ================================================================== *)
(** * The store model computes what the value model computes *)
(* ================================================================== *)

Module StoreRefinement.
Import Store.

Lemma placed_fst (base : nat) (scored : list ScoredCar) :
  map fst (placed base scored) = seq base (length scored).
Proof.
  revert base. induction scored as [|s l IH]; intros base; simpl;
    [| rewrite IH]; reflexivity.
Qed.

Lemma placed_snd (base : nat) (scored : list ScoredCar) :
  map snd (placed base scored) = scored.
Proof.
  revert base. induction scored as [|s l IH]; intros base; simpl;
    [| rewrite IH]; reflexivity.
Qed.

Lemma placed_lookup (pre : list Obj) (scored : list ScoredCar) :
  Forall (fun p => (pre ++ copies scored) !! fst p = Some (CarObj (as_dict (snd p))))
         (placed (length pre) scored).
Proof.
  revert pre. induction scored as [|s l IH]; intros pre; simpl.
  - apply List.Forall_nil.
  - apply List.Forall_cons.
    + simpl. apply list_lookup_middle. reflexivity.
    + specialize (IH (pre ++ [CarObj (as_dict s)])).
      rewrite length_app in IH. simpl in IH.
      replace (length pre + 1)%nat with (S (length pre)) in IH by lia.
      unfold copies in *. rewrite <- app_assoc in IH. exact IH.
Qed.

Lemma read_cars_lookup (h : list Obj) (ls : list nat) (ds : list CarDict) :
  read_cars h ls = Some ds ->
  Forall2 (fun l d => h !! l = Some (CarObj d)) ls ds.
Proof.
  revert ds. induction ls as [|l ls IH]; intros ds; simpl.
  - intros [= <-]. apply Forall2_nil. exact I.
  - destruct (h !! l) as [[p|d]|] eqn:El; try discriminate.
    destruct (read_cars h ls) as [ds'|]; [| discriminate].
    intros [= <-]. apply Forall2_cons. split; [exact El | apply IH; reflexivity].
Qed.

Lemma load_car_at (h : list Obj) (l : nat) (d : CarDict) :
  h !! l = Some (CarObj d) -> load_car l h = Some (d, h).
Proof. intros E. unfold load_car, bind, load. rewrite E. reflexivity. Qed.

Lemma load_profile_at (h : list Obj) (l : nat) (p : Profile) :
  h !! l = Some (ProfileObj p) -> load_profile l h = Some (p, h).
Proof. intros E. unfold load_profile, bind, load. rewrite E. reflexivity. Qed.

Lemma store_last (h : list Obj) (o o' : Obj) :
  store (length h) o' (h ++ [o]) = Some (tt, h ++ [o']).
Proof.
  unfold store. rewrite length_app. simpl.
  destruct (decide (length h < length h + 1)%nat); [| lia].
  rewrite insert_app_r_alt by lia. rewrite Nat.sub_diag. reflexivity.
Qed.

Lemma lookup_last (h : list Obj) (o : Obj) : (h ++ [o]) !! length h = Some o.
Proof. apply list_lookup_middle. reflexivity. Qed.

(** The loop over the boosts leaves the adjusted profile of the value model
    at the address of the copy. *)
Lemma apply_boosts_run (h : list Obj) (boosts : Dict Z) (p : Profile) :
  apply_boosts (length h) boosts (h ++ [ProfileObj p])
  = Some (tt, h ++ [ProfileObj (adjust_profile p boosts)]).
Proof.
  unfold apply_boosts, adjust_profile. revert p.
  induction boosts as [|entry boosts IH]; intros p; simpl.
  - reflexivity.
  - unfold bind at 1. unfold bind at 1.
    rewrite (load_profile_at _ _ p) by apply lookup_last.
    unfold adjust_step at 2.
    destruct (dict_get p (fst entry)) as [v|].
    + unfold profile_setitem, bind.
      rewrite (load_profile_at _ _ p) by apply lookup_last.
      rewrite store_last. apply IH.
    + apply IH.
Qed.

(** One turn of the loop over the cars. *)
Lemma match_step_run (f : Filters) (a : nat) (budget : option Z)
  (matches : list nat) (car_ref : nat) (h : list Obj) (d : CarDict)
  (adjusted : Profile) :
  h !! car_ref = Some (CarObj d) ->
  h !! a = Some (ProfileObj adjusted) ->
  match_step f a budget matches car_ref h
  = if negb (_meets_conversation_filters (cd_car d) f) then Some (matches, h)
    else match score_car (cd_car d) adjusted budget with
         | Some s => Some (matches ++ [length h], h ++ [CarObj (as_dict s)])
         | None => None
         end.
Proof.
  intros Hcar Hprofile. unfold match_step. unfold bind at 1.
  rewrite (load_car_at _ _ d Hcar).
  destruct (negb (_meets_conversation_filters (cd_car d) f)); [reflexivity |].
  unfold bind at 1. rewrite (load_profile_at _ _ adjusted Hprofile).
  unfold score_car.
  destruct (_calculate_value_score (cd_car d)) as [v|]; [| reflexivity].
  unfold bind at 1. simpl lift. unfold ret at 1.
  unfold bind at 1. unfold copy, bind at 1, load. rewrite Hcar. unfold alloc.
  unfold bind at 1. unfold set_match_score, bind at 1.
  rewrite (load_car_at _ _ d) by apply lookup_last. rewrite store_last.
  unfold bind at 1. unfold set_score_breakdown, bind at 1.
  rewrite (load_car_at _ _ _ (lookup_last _ _)). rewrite store_last.
  unfold bind at 1. unfold set_match_reasons, bind at 1.
  rewrite (load_car_at _ _ _ (lookup_last _ _)). rewrite store_last.
  reflexivity.
Qed.

(** The loop over the cars: it raises when the loop of the value model does,
    and otherwise appends one copy per match to the store. *)
Lemma match_loop_run (f : Filters) (budget : option Z) (adjusted : Profile)
  (h : list Obj) (a : nat) :
  h !! a = Some (ProfileObj adjusted) ->
  forall (cars : list nat) (ds : list CarDict) (objs : list Obj)
         (matches : list nat),
    Forall2 (fun l d => h !! l = Some (CarObj d)) cars ds ->
    for_each cars matches (match_step f a budget) (h ++ objs)
    = match collect_matches (map cd_car ds) f adjusted budget with
      | Some scored =>
          Some (matches ++ seq (length (h ++ objs)) (length scored),
                h ++ objs ++ copies scored)
      | None => None
      end.
Proof.
  intros Ha cars ds objs matches Hcars. revert objs matches.
  induction Hcars as [|l d cars ds Hl _ IH]; intros objs matches; simpl.
  - rewrite !app_nil_r. reflexivity.
  - unfold bind at 1.
    rewrite (match_step_run f a budget matches l (h ++ objs) d adjusted).
    2: { rewrite lookup_app_l; [exact Hl |]. eapply lookup_lt_Some. exact Hl. }
    2: { rewrite lookup_app_l; [exact Ha |]. eapply lookup_lt_Some. exact Ha. }
    destruct (negb (_meets_conversation_filters (cd_car d) f)); [apply IH |].
    destruct (score_car (cd_car d) adjusted budget) as [s|]; [| reflexivity].
    rewrite <- app_assoc. rewrite IH.
    destruct (collect_matches (map cd_car ds) f adjusted budget) as [scored|];
      [| reflexivity].
    simpl. rewrite <- !app_assoc. simpl.
    rewrite !length_app. simpl.
    replace (length h + (length objs + 1))%nat
      with (S (length h + length objs)) by lia.
    reflexivity.
Qed.

(** The keys of the sort, read from the copies. *)
Lemma sort_keys_run (h : list Obj) (zipped : list (nat * ScoredCar)) :
  Forall (fun p => h !! fst p = Some (CarObj (as_dict (snd p)))) zipped ->
  sort_keys (map fst zipped) h
  = Some (map (fun p => (fst p, match_score (snd p))) zipped, h).
Proof.
  unfold sort_keys.
  assert (H : forall keyed,
             Forall (fun p => h !! fst p = Some (CarObj (as_dict (snd p)))) zipped ->
             for_each (map fst zipped) keyed
               (fun keyed l =>
                  d <- load_car l ;;
                  key <- lift (cd_match_score d) ;;
                  ret (keyed ++ [(l, key)])) h
             = Some (keyed ++ map (fun p => (fst p, match_score (snd p))) zipped, h)).
  { induction zipped as [|[l s] zipped IH]; intros keyed Hz; simpl.
    - rewrite app_nil_r. reflexivity.
    - inversion Hz as [|? ? Hl Hz']; subst. simpl in Hl.
      unfold bind at 1. unfold bind at 1. rewrite (load_car_at _ _ _ Hl).
      simpl. unfold bind at 1. unfold ret at 1.
      rewrite IH by exact Hz'. rewrite <- app_assoc. reflexivity. }
  intros Hz. apply (H [] Hz).
Qed.

Lemma read_cars_placed (h : list Obj) (zipped : list (nat * ScoredCar)) :
  Forall (fun p => h !! fst p = Some (CarObj (as_dict (snd p)))) zipped ->
  read_cars h (map fst zipped) = Some (map as_dict (map snd zipped)).
Proof.
  induction 1 as [|[l s] zipped Hl _ IH]; simpl.
  - reflexivity.
  - simpl in Hl. rewrite Hl, IH. reflexivity.
Qed.

Lemma bind_run {A B : Type} (m : M A) (k : A -> M B) (h : list Obj) :
  bind m k h = match m h with Some (a, h') => k a h' | None => None end.
Proof. reflexivity. Qed.

Lemma copy_run (h : list Obj) (l : nat) (o : Obj) :
  h !! l = Some o -> copy l h = Some (length h, h ++ [o]).
Proof. intros E. unfold copy, bind, load, alloc. rewrite E. reflexivity. Qed.

End StoreRefinement.

(** The store model against the value model.  On a store that holds the
    catalog entries at the addresses [cars] and the profile at the address
    [lifestyle_profile], the store model raises exactly when the value model
    does; when it returns, the dictionaries at the addresses it returns are
    the scored cars the value model returns, in the same order. *)
Theorem store_find_matches_refines (cars : list nat) (lifestyle_profile : nat)
  (budget : option Z) (ctx : option (list message)) (top_n : Z)
  (h : list Store.Obj) (ds : list Store.CarDict) (profile : Profile) :
  Store.read_cars h cars = Some ds ->
  Store.read_profile h lifestyle_profile = Some profile ->
  match find_matches (map Store.cd_car ds) profile budget ctx top_n with
  | Some scored =>
      exists res h',
        Store.find_matches cars lifestyle_profile budget ctx top_n h
        = Some (res, h')
        /\ Store.read_cars h' res = Some (map Store.as_dict scored)
  | None =>
      Store.find_matches cars lifestyle_profile budget ctx top_n h = None
  end.
Proof.
  intros Hcars Hprofile.
  apply StoreRefinement.read_cars_lookup in Hcars.
  unfold Store.read_profile in Hprofile.
  destruct (h !! lifestyle_profile) as [[p|d]|] eqn:Ep; try discriminate.
  injection Hprofile as ->.
  unfold Store.find_matches, find_matches.
  set (prefs := _parse_conversation_preferences ctx).
  set (adjusted := adjust_profile profile (lifestyle_boosts prefs)).
  rewrite StoreRefinement.bind_run, (StoreRefinement.copy_run _ _ _ Ep).
  rewrite StoreRefinement.bind_run, StoreRefinement.apply_boosts_run.
  fold adjusted.
  set (h1 := h ++ [Store.ProfileObj adjusted]).
  assert (Ha : h1 !! length h = Some (Store.ProfileObj adjusted))
    by apply StoreRefinement.lookup_last.
  assert (Hcars1 : Forall2 (fun l d => h1 !! l = Some (Store.CarObj d)) cars ds).
  { eapply Forall2_impl; [exact Hcars |]. intros l d Hl. unfold h1.
    rewrite lookup_app_l; [exact Hl |]. eapply lookup_lt_Some. exact Hl. }
  rewrite StoreRefinement.bind_run.
  pose proof (StoreRefinement.match_loop_run (filters prefs) budget adjusted
                h1 (length h) Ha cars ds [] [] Hcars1) as Hloop.
  rewrite app_nil_r in Hloop. rewrite Hloop. clear Hloop.
  destruct (collect_matches (map Store.cd_car ds) (filters prefs) adjusted budget)
    as [scored|]; [| reflexivity].
  simpl app.
  set (zipped := placed (length h1) scored).
  set (h2 := h1 ++ copies scored).
  assert (Hz : Forall (fun p => h2 !! fst p
                                = Some (Store.CarObj (Store.as_dict (snd p))))
                      zipped)
    by apply StoreRefinement.placed_lookup.
  rewrite <- (StoreRefinement.placed_fst (length h1) scored). fold zipped.
  rewrite StoreRefinement.bind_run, (StoreRefinement.sort_keys_run h2 zipped Hz).
  unfold Store.ret.
  rewrite <- (sort_desc_map (fun p : nat * ScoredCar => (fst p, match_score (snd p)))
                snd Rltb zipped).
  simpl snd. rewrite map_map. simpl fst.
  set (sorted := sort_desc (fun b : nat * ScoredCar => match_score (snd b)) Rltb
                   zipped).
  rewrite py_prefix_map.
  assert (Hs : sort_desc match_score Rltb scored = map snd sorted).
  { unfold sorted. rewrite (sort_desc_map snd match_score Rltb zipped).
    unfold zipped. rewrite StoreRefinement.placed_snd. reflexivity. }
  rewrite Hs, py_prefix_map.
  eexists _, h2. split; [reflexivity |].
  apply StoreRefinement.read_cars_placed.
  rewrite List.Forall_forall in Hz |- *. intros q Hq. apply Hz.
  destruct (py_prefix_firstn top_n sorted) as [k Hk]. rewrite Hk in Hq.
  apply firstn_In in Hq.
  exact (proj1 (sort_desc_In (fun b => match_score (snd b)) q zipped) Hq).
Qed.

Lemma read_cars_frame (h h' : list Store.Obj) (ls : list nat) (ds : list Store.CarDict) :
  (forall l o, h !! l = Some o -> h' !! l = Some o) ->
  Store.read_cars h ls = Some ds -> Store.read_cars h' ls = Some ds.
Proof.
  intros Hf. revert ds. induction ls as [|l ls IH]; intros ds; simpl.
  - auto.
  - destruct (h !! l) as [[p|d]|] eqn:El; try discriminate.
    destruct (Store.read_cars h ls) as [ds'|]; [| discriminate].
    intros [= <-]. rewrite (Hf _ _ El), (IH ds' eq_refl). reflexivity.
Qed.



(* ================================================================== *)
(** * The definitions at work on the sample data *)
(* ================================================================== *)

Example price_phrases :
  extract_price price_patterns "something under $40k please" = Some 40000
  /\ extract_price price_patterns "i have $30,000" = Some 30000
  /\ extract_price price_patterns "i have $30000" = Some 30000
  /\ extract_price price_patterns "budget 50k" = Some 50000
  /\ extract_price price_patterns "$45k   max" = Some 45000
  /\ extract_price price_patterns "less than 25000" = Some 25000
  /\ extract_price price_patterns "a cheap car" = None.
Proof. vm_compute. repeat split; reflexivity. Qed.

Example body_type_order :
  detect_body_type body_type_keywords "a sedan or maybe an suv" = Some "SUV"
  /\ detect_body_type body_type_keywords "a minivan" = Some "MINIVAN"
  /\ detect_body_type body_type_keywords "anything" = None.
Proof. vm_compute. repeat split; reflexivity. Qed.

Example malformed_turns_are_skipped :
  _parse_conversation_preferences
    (Some [MsgOther; MsgDict None (ContentStr "suv");
           MsgDict (Some "assistant") (ContentStr "an suv?");
           MsgDict (Some "user") ContentAbsent;
           MsgDict (Some "user") (ContentOther false)])
  = no_preferences
  /\ _parse_conversation_preferences
       (Some [MsgDict (Some "user") (ContentStr "an SUV");
              MsgDict (Some "user") (ContentOther true)])
     = no_preferences
  /\ _parse_conversation_preferences None = no_preferences.
Proof. vm_compute. repeat split; reflexivity. Qed.

Example sample_filters :
  let f := filters (_parse_conversation_preferences Sample.kids_turn) in
  _meets_conversation_filters Sample.hybrid_suv f = true
  /\ _meets_conversation_filters Sample.sports_coupe f = false
  /\ _meets_conversation_filters Sample.sedan f = true
  /\ _meets_conversation_filters Sample.sedan
       (filters (_parse_conversation_preferences
                   (Sample.user_says "a hybrid with awd"))) = false
  /\ _meets_conversation_filters Sample.hybrid_suv
       (filters (_parse_conversation_preferences
                   (Sample.user_says "a hybrid with awd"))) = true.
Proof. vm_compute. repeat split; reflexivity. Qed.

Example sample_adjusted_profile :
  adjust_profile Sample.profile
    (lifestyle_boosts (_parse_conversation_preferences Sample.kids_turn))
  = [ ("family_friendly", 10); ("adventure", 5); ("eco_conscious", 8);
      ("luxury", 5); ("performance", 5); ("budget_conscious", 5);
      ("city_driving", 5); ("commuter", 5); ("tech_enthusiast", 5);
      ("safety_focused", 7) ].
Proof. vm_compute. reflexivity. Qed.

Example sample_match_reasons :
  _generate_match_reasons Sample.hybrid_suv Sample.profile
  = ["Strong Family Friendly match"; "Strong Eco Conscious match";
     "Excellent fuel economy"]
  /\ _generate_match_reasons Sample.sports_coupe Sample.profile
     = ["Premium features"; "High performance"].
Proof. vm_compute. split; reflexivity. Qed.

Example sample_filter_by_criteria :
  map car_id (filter_by_criteria Sample.catalog (Some "suv") None None None)
  = ["rav4-hybrid"]
  /\ map car_id (filter_by_criteria Sample.catalog None (Some 30) (Some 30000) (Some 5))
     = ["civic"]
  /\ filter_by_criteria Sample.catalog (Some "") (Some 0) None (Some 0)
     = Sample.catalog.
Proof. vm_compute. repeat split; reflexivity. Qed.

Example sample_lookup :
  get_car_by_id Sample.catalog "supra" = Some Sample.sports_coupe
  /\ get_car_by_id Sample.catalog "no-such-car" = None.
Proof. split; reflexivity. Qed.

Example sample_slices :
  py_prefix 2 [1; 2; 3] = [1; 2] /\ py_prefix 5 [1; 2; 3] = [1; 2; 3]
  /\ py_prefix 0 [1; 2; 3] = [] /\ py_prefix (-1) [1; 2; 3] = [1; 2]
  /\ py_prefix (-7) [1; 2; 3] = [].
Proof. repeat split; reflexivity. Qed.

Example sample_sorted_by_score :
  sort_desc snd Z.ltb [("a", 5); ("b", 9); ("c", 5); ("d", 8); ("e", 9)]
  = [("b", 9); ("e", 9); ("d", 8); ("a", 5); ("c", 5)].
Proof. reflexivity. Qed.

Section Tie.
Local Open Scope R_scope.

(** The sample SUV under another id. *)
Let twin : Car :=
  {| car_id := "rav4-twin";
     basic_info := basic_info Sample.hybrid_suv;
     specifications := specifications Sample.hybrid_suv;
     features := features Sample.hybrid_suv;
     lifestyle_scores := lifestyle_scores Sample.hybrid_suv;
     costs := costs Sample.hybrid_suv;
     car_pros := car_pros Sample.hybrid_suv;
     car_cons := car_cons Sample.hybrid_suv |}.

(** Two cars with the same score come back in catalog order, whichever of
    them stands first in the catalog. *)
Example equal_scores_keep_catalog_order :
  (exists s1 s2,
     find_matches [Sample.hybrid_suv; twin] Sample.profile None None 4
     = Some [s1; s2]
     /\ sc_car s1 = Sample.hybrid_suv /\ sc_car s2 = twin)
  /\ (exists s1 s2,
        find_matches [twin; Sample.hybrid_suv] Sample.profile None None 4
        = Some [s1; s2]
        /\ sc_car s1 = twin /\ sc_car s2 = Sample.hybrid_suv).
Proof.
  assert (Hsame : forall s1 s2,
             score_car Sample.hybrid_suv Sample.profile None = Some s1 ->
             score_car twin Sample.profile None = Some s2 ->
             match_score s1 = match_score s2).
  { intros s1 s2 E1 E2.
    destruct (score_car_budget _ _ _ _ E1) as (v1 & Ev1 & -> & _).
    destruct (score_car_budget _ _ _ _ E2) as (v2 & Ev2 & -> & _).
    change (_calculate_value_score twin)
      with (_calculate_value_score Sample.hybrid_suv) in Ev2.
    rewrite Ev1 in Ev2. injection Ev2 as <-. reflexivity. }
  destruct (score_car_defined Sample.hybrid_suv Sample.profile None)
    as [s1 E1]; try discriminate.
  destruct (score_car_defined twin Sample.profile None)
    as [s2 E2]; try discriminate.
  pose proof (Hsame s1 s2 E1 E2) as Heq.
  pose proof (score_car_fields _ _ _ _ E1) as [C1 _].
  pose proof (score_car_fields _ _ _ _ E2) as [C2 _].
  assert (Hno : forall x, Rltb x x = false).
  { intros x. apply bool_decide_eq_false. lra. }
  split.
  - exists s1, s2. split; [| auto].
    unfold find_matches. change (_parse_conversation_preferences None)
      with no_preferences.
    change (adjust_profile Sample.profile (lifestyle_boosts no_preferences))
      with Sample.profile.
    cbn [collect_matches filters no_preferences].
    change (_meets_conversation_filters Sample.hybrid_suv no_filters) with true.
    change (_meets_conversation_filters twin no_filters) with true.
    cbn [negb]. rewrite E1, E2. cbn [sort_desc fold_right insert_desc].
    rewrite Heq, Hno. reflexivity.
  - exists s2, s1. split; [| auto].
    unfold find_matches. change (_parse_conversation_preferences None)
      with no_preferences.
    change (adjust_profile Sample.profile (lifestyle_boosts no_preferences))
      with Sample.profile.
    cbn [collect_matches filters no_preferences].
    change (_meets_conversation_filters Sample.hybrid_suv no_filters) with true.
    change (_meets_conversation_filters twin no_filters) with true.
    cbn [negb]. rewrite E1, E2. cbn [sort_desc fold_right insert_desc].
    rewrite Heq, Hno. reflexivity.
Qed.

End Tie.

(* ================================================================== *)
(** * Further properties of the scorers *)
(* ================================================================== *)

Section ScorerRanges.
Local Open Scope R_scope.

Lemma profile_weight_nonneg (user_profile : Profile) (dimension : string) :
  (forall d v, dict_get user_profile d = Some v -> (0 <= v)%Z) ->
  0 <= profile_weight user_profile dimension.
Proof.
  intros H. unfold profile_weight, dict_get_default.
  destruct (dict_get user_profile dimension) as [v|] eqn:E.
  - pose proof (IZR_le 0 v (H _ _ E)). lra.
  - lra.
Qed.

Lemma weighted_mean_bounds (a1 a2 a3 a4 a5 w1 w2 w3 w4 w5 lo hi : R) :
  0 <= w1 -> 0 <= w2 -> 0 <= w3 -> 0 <= w4 -> 0 <= w5 ->
  0 < w1 + w2 + w3 + w4 + w5 ->
  lo <= a1 <= hi -> lo <= a2 <= hi -> lo <= a3 <= hi -> lo <= a4 <= hi ->
  lo <= a5 <= hi ->
  lo <= (a1 * w1 + a2 * w2 + a3 * w3 + a4 * w4 + a5 * w5)
        / (w1 + w2 + w3 + w4 + w5) <= hi.
Proof.
  intros H1 H2 H3 H4 H5 HW A1 A2 A3 A4 A5.
  set (W := w1 + w2 + w3 + w4 + w5) in *.
  assert (Hlo : lo * W <= a1 * w1 + a2 * w2 + a3 * w3 + a4 * w4 + a5 * w5)
    by (unfold W; nra).
  assert (Hhi : a1 * w1 + a2 * w2 + a3 * w3 + a4 * w4 + a5 * w5 <= hi * W)
    by (unfold W; nra).
  split.
  - apply (Rmult_le_reg_r W); [exact HW |].
    unfold Rdiv. rewrite Rmult_assoc, Rinv_l by lra. lra.
  - apply (Rmult_le_reg_r W); [exact HW |].
    unfold Rdiv. rewrite Rmult_assoc, Rinv_l by lra. lra.
Qed.

Lemma feature_score_bounds (car : Car) (user_profile : Profile) :
  (forall d v, dict_get user_profile d = Some v -> (0 <= v)%Z) ->
  _calculate_feature_score car user_profile <= 100
  /\ ((0 <= mpg_combined (specifications car))%Z ->
      (0 <= horsepower (specifications car))%Z ->
      (0 <= seating_capacity (specifications car))%Z ->
      (0 <= get_or (cargo_space (specifications car)) 15%Z)%Z ->
      0 <= _calculate_feature_score car user_profile).
Proof.
  intros Hp. unfold _calculate_feature_score. cbv zeta.
  pose proof (profile_weight_nonneg user_profile "eco_conscious" Hp) as He.
  pose proof (profile_weight_nonneg user_profile "budget_conscious" Hp) as Hb.
  pose proof (profile_weight_nonneg user_profile "commuter" Hp) as Hc.
  pose proof (profile_weight_nonneg user_profile "performance" Hp) as Hpf.
  pose proof (profile_weight_nonneg user_profile "family_friendly" Hp) as Hf.
  pose proof (profile_weight_nonneg user_profile "safety_focused" Hp) as Hs.
  pose proof (profile_weight_nonneg user_profile "tech_enthusiast" Hp) as Ht.
  set (we := profile_weight user_profile "eco_conscious") in *.
  set (wb := profile_weight user_profile "budget_conscious") in *.
  set (wc := profile_weight user_profile "commuter") in *.
  set (w2 := profile_weight user_profile "performance") in *.
  set (w3 := profile_weight user_profile "family_friendly") in *.
  set (w4 := profile_weight user_profile "safety_focused") in *.
  set (w5 := profile_weight user_profile "tech_enthusiast") in *.
  set (w1 := (we + wb + wc) / 3).
  assert (H1 : 0 <= w1) by (unfold w1; lra).
  set (a1 := Rmin 100 (IZR (mpg_combined (specifications car)) / 50 * 100)).
  set (a2 := Rmin 100 (IZR (horsepower (specifications car)) / 400 * 100)).
  set (a3 := IZR (Z.min 100 (seating_capacity (specifications car) * 10
                             + get_or (cargo_space (specifications car)) 15%Z * 2))).
  set (a4 := Rmin 100 (IZR (len (safety (features car))) / 10 * 100)).
  set (a5 := Rmin 100 (IZR (feature_count (technology (features car))) / 8 * 100)).
  assert (U1 : a1 <= 100) by apply Rmin_l.
  assert (U2 : a2 <= 100) by apply Rmin_l.
  assert (U3 : a3 <= 100) by (apply IZR_le; apply Z.le_min_l).
  assert (U4 : a4 <= 100) by apply Rmin_l.
  assert (U5 : a5 <= 100) by apply Rmin_l.
  assert (L4 : 0 <= a4).
  { apply Rmin_glb; [lra |].
    pose proof (IZR_le 0 (len (safety (features car)))
                  ltac:(unfold len; lia)). lra. }
  assert (L5 : 0 <= a5).
  { apply Rmin_glb; [lra |].
    pose proof (IZR_le 0 (feature_count (technology (features car)))
                  ltac:(unfold feature_count, len; lia)). lra. }
  replace (0 + a1 * w1 + a2 * w2 + a3 * w3 + a4 * w4 + a5 * w5)
    with (a1 * w1 + a2 * w2 + a3 * w3 + a4 * w4 + a5 * w5) by ring.
  replace (0 + w1 + w2 + w3 + w4 + w5) with (w1 + w2 + w3 + w4 + w5) by ring.
  destruct (decide (0 < w1 + w2 + w3 + w4 + w5)) as [HW | HW].
  - split.
    + set (lo := Rmin 0 (Rmin a1 (Rmin a2 a3))).
      assert (Hlo1 : lo <= a1)
        by (unfold lo; eapply Rle_trans; [apply Rmin_r | apply Rmin_l]).
      assert (Hlo2 : lo <= a2).
      { unfold lo. eapply Rle_trans; [apply Rmin_r |].
        eapply Rle_trans; [apply Rmin_r | apply Rmin_l]. }
      assert (Hlo3 : lo <= a3).
      { unfold lo. eapply Rle_trans; [apply Rmin_r |].
        eapply Rle_trans; [apply Rmin_r | apply Rmin_r]. }
      assert (Hlo0 : lo <= 0) by (unfold lo; apply Rmin_l).
      apply (weighted_mean_bounds a1 a2 a3 a4 a5 w1 w2 w3 w4 w5 lo 100);
        try assumption; split; try assumption; lra.
    + intros Hm Hh Hseat Hcargo.
      assert (L1 : 0 <= a1).
      { apply Rmin_glb; [lra |]. pose proof (IZR_le 0 _ Hm). lra. }
      assert (L2 : 0 <= a2).
      { apply Rmin_glb; [lra |]. pose proof (IZR_le 0 _ Hh). lra. }
      assert (L3 : 0 <= a3) by (apply IZR_le; lia).
      apply (weighted_mean_bounds a1 a2 a3 a4 a5 w1 w2 w3 w4 w5 0 100);
        try assumption; split; assumption.
  - split; [lra | intros; lra].
Qed.



(** A profile whose seven weighting dimensions are all 0 gives the neutral
    score 50 instead of a division by zero. *)
Theorem feature_score_zero_weights (car : Car) (user_profile : Profile) :
  Forall (fun d => dict_get user_profile d = Some 0%Z)
    ["eco_conscious"; "budget_conscious"; "commuter"; "performance";
     "family_friendly"; "safety_focused"; "tech_enthusiast"] ->
  _calculate_feature_score car user_profile = 50.
Proof.
  intros H. rewrite List.Forall_forall in H.
  assert (Hw : forall d, In d ["eco_conscious"; "budget_conscious"; "commuter";
                               "performance"; "family_friendly";
                               "safety_focused"; "tech_enthusiast"] ->
                         profile_weight user_profile d = 0).
  { intros d Hd. unfold profile_weight, dict_get_default. rewrite (H d Hd). lra. }
  unfold _calculate_feature_score. cbv zeta.
  rewrite !Hw by (simpl; tauto).
  destruct (decide (0 < _)) as [HW | HW]; [lra | reflexivity].
Qed.

Lemma feature_score_zero_weights_witness :
  _calculate_feature_score Sample.sedan
    [ ("eco_conscious", 0%Z); ("budget_conscious", 0%Z); ("commuter", 0%Z);
      ("performance", 0%Z); ("family_friendly", 0%Z); ("safety_focused", 0%Z);
      ("tech_enthusiast", 0%Z); ("luxury", 9%Z) ] = 50.
Proof.
  apply feature_score_zero_weights.
  repeat apply List.Forall_cons; try apply List.Forall_nil; reflexivity.
Defined.

End ScorerRanges.

Section ValueAndBudgetRanges.
Local Open Scope R_scope.

Lemma value_score_none_iff (car : Car) :
  _calculate_value_score car = None
  <-> msrp (basic_info car) = 0%Z \/ mpg_combined (specifications car) = 0%Z.
Proof.
  unfold _calculate_value_score.
  destruct (msrp (basic_info car) =? 0)%Z eqn:Ep.
  - apply Z.eqb_eq in Ep. tauto.
  - apply Z.eqb_neq in Ep.
    destruct (mpg_combined (specifications car) =? 0)%Z eqn:Em.
    + apply Z.eqb_eq in Em. tauto.
    + apply Z.eqb_neq in Em. split; [discriminate | tauto].
Qed.

(** The value score raises (a division by zero) exactly for a price of 0 or
    a fuel economy of 0; when it raises so does the scoring of the car, and a
    car with neither is always scored. *)
Theorem value_score_raises_iff (car : Car) (adjusted : Profile)
  (budget : option Z) :
  (_calculate_value_score car = None
   <-> msrp (basic_info car) = 0%Z \/ mpg_combined (specifications car) = 0%Z)
  /\ (score_car car adjusted budget = None
      <-> msrp (basic_info car) = 0%Z \/ mpg_combined (specifications car) = 0%Z).
Proof.
  split; [apply value_score_none_iff |].
  rewrite <- value_score_none_iff. unfold score_car.
  destruct (_calculate_value_score car); split; congruence.
Qed.

Lemma Rdiv_pos_pos (a b : R) : 0 <= a -> 0 < b -> 0 <= a / b.
Proof.
  intros Ha Hb. unfold Rdiv. apply Rmult_le_pos; [exact Ha |].
  left. apply Rinv_0_lt_compat. exact Hb.
Qed.

Lemma value_score_bounds (car : Car) (v : R) :
  (0 < msrp (basic_info car))%Z ->
  (0 < mpg_combined (specifications car))%Z ->
  (0 <= get_or (insurance_annual_estimate (costs car)) 1500%Z)%Z ->
  (0 <= get_or (maintenance_annual_estimate (costs car)) 500%Z)%Z ->
  _calculate_value_score car = Some v ->
  0 <= v < 112.
Proof.
  intros Hp Hm Hi Hmt. unfold _calculate_value_score.
  replace (msrp (basic_info car) =? 0)%Z with false
    by (symmetry; apply Z.eqb_neq; lia).
  replace (mpg_combined (specifications car) =? 0)%Z with false
    by (symmetry; apply Z.eqb_neq; lia).
  intros [= <-].
  pose proof (IZR_lt 0 _ Hp) as Hp'. pose proof (IZR_lt 0 _ Hm) as Hm'.
  set (price := IZR (msrp (basic_info car))) in *.
  set (mpg := IZR (mpg_combined (specifications car))) in *.
  set (n := (len (safety (features car))
             + feature_count (technology (features car))
             + feature_count (comfort (features car))
             + feature_count (entertainment (features car)))%Z).
  assert (Hn : 0 <= IZR n)
    by (apply IZR_le; unfold n, feature_count, len; lia).
  set (fixed := IZR (get_or (insurance_annual_estimate (costs car)) 1500%Z
                     + get_or (maintenance_annual_estimate (costs car)) 500%Z)).
  assert (Hfixed : 0 <= fixed) by (apply IZR_le; lia).
  assert (Hden : 0 < price / 10000) by (unfold Rdiv; nra).
  assert (Hfd : 0 <= IZR n / (price / 10000)) by (apply Rdiv_pos_pos; assumption).
  assert (Hmv : 0 <= mpg / (price / 10000)) by (apply Rdiv_pos_pos; lra).
  assert (Hfuel : 0 < 15000 / mpg * (350 / 100)).
  { apply Rmult_lt_0_compat; [| lra]. unfold Rdiv.
    apply Rmult_lt_0_compat; [lra | apply Rinv_0_lt_compat; exact Hm']. }
  set (fs := Rmin 100 (IZR n / (price / 10000) * 15)).
  set (ms := Rmin 100 (mpg / (price / 10000) * 20)).
  set (ce := Rmax 0 (100 - (fixed + 15000 / mpg * (350 / 100) - 2000) / 50)).
  assert (F : 0 <= fs <= 100).
  { split; [apply Rmin_glb; lra | apply Rmin_l]. }
  assert (M : 0 <= ms <= 100).
  { split; [apply Rmin_glb; lra | apply Rmin_l]. }
  assert (C : 0 <= ce < 140).
  { split; [apply Rmax_l |]. unfold ce. apply Rmax_lub_lt; lra. }
  lra.
Qed.



Lemma budget_affinity_bounds (P B : Z) :
  (0 <= P)%Z -> (0 < B)%Z ->
  0 <= _calculate_budget_affinity P (Some B) <= 100
  /\ ((P <= B)%Z -> 95 <= _calculate_budget_affinity P (Some B)).
Proof.
  intros HP HB. rewrite (budget_affinity_ratio P B HB). cbv zeta.
  pose proof (IZR_le 0 P HP) as HP'. pose proof (IZR_lt 0 B HB) as HB'.
  assert (Hr : 0 <= IZR P / IZR B) by (apply Rdiv_pos_pos; assumption).
  assert (Hle : (P <= B)%Z -> IZR P / IZR B <= 1).
  { intros H. apply IZR_le in H.
    apply (Rmult_le_reg_r (IZR B)); [exact HB' |].
    unfold Rdiv. rewrite Rmult_assoc, Rinv_l by lra. lra. }
  set (r := IZR P / IZR B) in *.
  split; [| intros H; specialize (Hle H)];
    repeat match goal with
           | |- context [decide ?Q] => destruct (decide Q)
           end;
    unfold Rmax;
    repeat match goal with
           | |- context [Rle_dec ?a ?b] => destruct (Rle_dec a b)
           end;
    lra.
Qed.

(** For a price that is not negative and a positive budget the affinity lies
    in [0, 100], and in [95, 100] when the price is within the budget. *)
Theorem budget_affinity_range (P B : Z) :
  (0 <= P)%Z -> (0 < B)%Z ->
  0 <= _calculate_budget_affinity P (Some B) <= 100
  /\ ((P <= B)%Z -> 95 <= _calculate_budget_affinity P (Some B)).
Proof. exact (budget_affinity_bounds P B). Qed.

Lemma budget_affinity_range_witness :
  0 <= _calculate_budget_affinity 33000 (Some 35000%Z) <= 100
  /\ 95 <= _calculate_budget_affinity 33000 (Some 35000%Z).
Proof.
  destruct (budget_affinity_range 33000 35000) as [H1 H2]; try lia.
  split; [exact H1 | apply H2; lia].
Defined.

End ValueAndBudgetRanges.

(* ================================================================== *)
(** * Further properties of the preference extractor *)
(* ================================================================== *)

Lemma dict_set_keys {V : Type} (d : Dict V) (k : string) (v v0 : V) :
  dict_get d k = Some v0 -> dict_keys (dict_set d k v) = dict_keys d.
Proof.
  unfold dict_keys. induction d as [|[k' v'] d IH]; simpl; [discriminate |].
  destruct (String.eqb k' k); simpl; [reflexivity |].
  intros H. f_equal. apply IH. exact H.
Qed.

Lemma dict_set_In {V : Type} (d : Dict V) (k : string) (v : V) (e : string * V) :
  In e (dict_set d k v) -> snd e = v \/ In e d.
Proof.
  induction d as [|[k' v'] d IH]; simpl.
  - intros [<- | []]. left. reflexivity.
  - destruct (String.eqb k' k); simpl.
    + intros [<- | H]; [left; reflexivity | right; right; exact H].
    + intros [<- | H]; [right; left; reflexivity |].
      destruct (IH H); [left | right; right]; assumption.
Qed.

Lemma dict_set_keys_incl {V : Type} (d : Dict V) (k k' : string) (v : V) :
  In k' (dict_keys (dict_set d k v)) -> k' = k \/ In k' (dict_keys d).
Proof.
  induction d as [|[k0 v0] d IH]; simpl.
  - intros [<- | []]. left. reflexivity.
  - destruct (String.eqb k0 k) eqn:E; simpl.
    + tauto.
    + intros [<- | H]; [right; left; reflexivity |].
      destruct (IH H); [left | right; right]; assumption.
Qed.

Lemma dict_set_NoDup {V : Type} (d : Dict V) (k : string) (v : V) :
  List.NoDup (dict_keys d) -> List.NoDup (dict_keys (dict_set d k v)).
Proof.
  induction d as [|[k0 v0] d IH]; simpl; intros Hnd.
  - apply List.NoDup_cons; [intros [] | apply List.NoDup_nil].
  - apply List.NoDup_cons_iff in Hnd. destruct Hnd as [Hk Hnd].
    destruct (String.eqb k0 k) eqn:E; simpl.
    + apply List.NoDup_cons; assumption.
    + apply List.NoDup_cons; [| apply IH; exact Hnd].
      intros Hin. apply dict_set_keys_incl in Hin. destruct Hin as [-> | Hin].
      * rewrite String.eqb_refl in E. discriminate.
      * contradiction.
Qed.

Lemma dict_get_In {V : Type} (d : Dict V) (k : string) (v : V) :
  dict_get d k = Some v -> In (k, v) d.
Proof.
  induction d as [|[k' v'] d IH]; simpl; [discriminate |].
  destruct (String.eqb k' k) eqn:E.
  - apply String.eqb_eq in E. intros [= ->]. left. congruence.
  - intros H. right. apply IH. exact H.
Qed.

Lemma adjust_profile_shape (lifestyle_profile : Profile) (boosts : Dict Z) :
  dict_keys (adjust_profile lifestyle_profile boosts) = dict_keys lifestyle_profile
  /\ ((forall e, In e lifestyle_profile -> 1 <= snd e <= 10) ->
      (forall e, In e boosts -> 0 <= snd e) ->
      (forall e, In e (adjust_profile lifestyle_profile boosts) -> 1 <= snd e <= 10)
      /\ (forall d v v',
            dict_get lifestyle_profile d = Some v ->
            dict_get (adjust_profile lifestyle_profile boosts) d = Some v' ->
            v <= v')).
Proof.
  unfold adjust_profile. revert lifestyle_profile.
  induction boosts as [|[k b] boosts IH]; intros p; simpl.
  - split; [reflexivity |]. intros Hp _. split; [exact Hp |].
    intros d v v' H1 H2. rewrite H1 in H2. injection H2 as <-. lia.
  - destruct (IH (adjust_step p (k, b))) as [IHk IHr].
    assert (Hstep_keys : dict_keys (adjust_step p (k, b)) = dict_keys p).
    { unfold adjust_step. simpl.
      destruct (dict_get p k) as [v|] eqn:E; [| reflexivity].
      apply (dict_set_keys p k _ v E). }
    split; [rewrite IHk; exact Hstep_keys |].
    intros Hp Hb.
    assert (Hb0 : 0 <= b) by (apply (Hb (k, b)); left; reflexivity).
    assert (Hstep_range : forall e, In e (adjust_step p (k, b)) -> 1 <= snd e <= 10).
    { intros e. unfold adjust_step. simpl.
      destruct (dict_get p k) as [v|] eqn:E; [| apply Hp].
      intros He. apply dict_set_In in He. destruct He as [-> | He]; [| apply Hp; exact He].
      pose proof (Hp _ (dict_get_In _ _ _ E)) as Hv. simpl in Hv. lia. }
    assert (Hstep_mono : forall d v v1,
               dict_get p d = Some v ->
               dict_get (adjust_step p (k, b)) d = Some v1 -> v <= v1).
    { intros d v v1 H1. unfold adjust_step. simpl.
      destruct (dict_get p k) as [vk|] eqn:E.
      - rewrite dict_get_set. destruct (String.eqb k d) eqn:Ek.
        + apply String.eqb_eq in Ek. subst d. rewrite E in H1.
          injection H1 as ->. intros [= <-].
          pose proof (Hp _ (dict_get_In _ _ _ E)) as Hv. simpl in Hv. lia.
        + rewrite H1. intros [= <-]. lia.
      - rewrite H1. intros [= <-]. lia. }
    destruct (IHr Hstep_range (fun e He => Hb e (or_intror He))) as [IH1 IH2].
    split; [exact IH1 |].
    intros d v v' H1 H2.
    destruct (dict_get (adjust_step p (k, b)) d) as [v1|] eqn:E1.
    + pose proof (Hstep_mono d v v1 H1 E1). pose proof (IH2 d v1 v' E1 H2). lia.
    + exfalso. unfold adjust_step in E1. simpl in E1.
      destruct (dict_get p k) as [vk|] eqn:E; [| congruence].
      rewrite dict_get_set in E1. destruct (String.eqb k d); congruence.
Qed.

(** The adjusted profile has the dimensions of the profile, in the same
    order: a boost never adds or removes one.  When the profile holds values
    between 1 and 10 and no boost is negative, so does the adjusted profile,
    and no dimension is lower than it was. *)
Theorem adjust_profile_keeps_shape (lifestyle_profile : Profile) (boosts : Dict Z) :
  dict_keys (adjust_profile lifestyle_profile boosts) = dict_keys lifestyle_profile
  /\ ((forall e, In e lifestyle_profile -> 1 <= snd e <= 10) ->
      (forall e, In e boosts -> 0 <= snd e) ->
      (forall e, In e (adjust_profile lifestyle_profile boosts) -> 1 <= snd e <= 10)
      /\ (forall d v v',
            dict_get lifestyle_profile d = Some v ->
            dict_get (adjust_profile lifestyle_profile boosts) d = Some v' ->
            v <= v')).
Proof. exact (adjust_profile_shape lifestyle_profile boosts). Qed.

Lemma adjust_profile_keeps_shape_witness :
  dict_keys (adjust_profile Sample.profile
               (lifestyle_boosts (_parse_conversation_preferences Sample.kids_turn)))
  = dict_keys Sample.profile
  /\ Forall (fun e => 1 <= snd e <= 10)
       (adjust_profile Sample.profile
          (lifestyle_boosts (_parse_conversation_preferences Sample.kids_turn))).
Proof.
  destruct (adjust_profile_keeps_shape Sample.profile
              (lifestyle_boosts (_parse_conversation_preferences Sample.kids_turn)))
    as [Hk H].
  split; [exact Hk |]. apply List.Forall_forall. apply H.
  - intros e He. simpl in He.
    repeat (destruct He as [<- | He]; [simpl; lia |]). contradiction.
  - intros e. rewrite kids_turn_preferences. simpl.
    intros [<- | [<- | []]]; simpl; lia.
Defined.

Lemma dict_set_entries {V : Type} (d : Dict V) (k : string) (v : V)
  (e : string * V) :
  In e (dict_set d k v) -> e = (k, v) \/ In e d.
Proof.
  induction d as [|[k' v'] d IH]; simpl.
  - intros [<- | []]. left. reflexivity.
  - destruct (String.eqb k' k) eqn:E; simpl.
    + apply String.eqb_eq in E. subst k'.
      intros [<- | H]; [left; reflexivity | right; right; exact H].
    + intros [<- | H]; [right; left; reflexivity |].
      destruct (IH H); [left | right; right]; assumption.
Qed.

Lemma set_boosts_Forall (P : string * Z -> Prop) (l : list (string * Z))
  (b : Dict Z) :
  Forall P b -> Forall P l -> Forall P (set_boosts b l).
Proof.
  intros Hb Hl. revert b Hb. unfold set_boosts.
  induction Hl as [|[k v] l Hkv _ IH]; intros b Hb; simpl; [exact Hb |].
  apply IH. rewrite List.Forall_forall in Hb |- *. intros e He.
  apply dict_set_entries in He. destruct He as [-> | He]; auto.
Qed.

Lemma set_boosts_NoDup (l : list (string * Z)) (b : Dict Z) :
  List.NoDup (dict_keys b) -> List.NoDup (dict_keys (set_boosts b l)).
Proof.
  revert b. unfold set_boosts. induction l as [|[k v] l IH]; intros b Hb; simpl.
  - exact Hb.
  - apply IH. apply dict_set_NoDup. exact Hb.
Qed.

(** What the extractor can put into the boosts. *)
Lemma keyword_rules_boosts :
  Forall (fun r =>
            Forall (fun e => In (fst e) (dict_keys dimension_importance)
                             /\ 1 <= snd e <= 4) (r_boosts r))
         keyword_rules.
Proof.
  unfold keyword_rules.
  repeat (apply List.Forall_cons;
          [ simpl; repeat (apply List.Forall_cons; [simpl; split; [tauto | lia] |]);
            apply List.Forall_nil | ]).
  apply List.Forall_nil.
Qed.

Lemma extracted_boosts_bounds (ctx : option (list message)) :
  List.NoDup (dict_keys (lifestyle_boosts (_parse_conversation_preferences ctx)))
  /\ Forall (fun e => In (fst e) (dict_keys dimension_importance)
                      /\ 1 <= snd e <= 4)
       (lifestyle_boosts (_parse_conversation_preferences ctx)).
Proof.
  destruct (parse_cases ctx) as [-> | [user_messages ->]].
  - split; [apply List.NoDup_nil | apply List.Forall_nil].
  - rewrite analyse_unfold, price_step_boosts.
    set (text := PyStr.join " " user_messages).
    assert (H : forall rs p,
               Forall (fun r =>
                         Forall (fun e => In (fst e) (dict_keys dimension_importance)
                                          /\ 1 <= snd e <= 4) (r_boosts r)) rs ->
               List.NoDup (dict_keys (lifestyle_boosts p))
               /\ Forall (fun e => In (fst e) (dict_keys dimension_importance)
                                   /\ 1 <= snd e <= 4) (lifestyle_boosts p) ->
               List.NoDup (dict_keys (lifestyle_boosts
                                        (fold_left (apply_rule text) rs p)))
               /\ Forall (fun e => In (fst e) (dict_keys dimension_importance)
                                   /\ 1 <= snd e <= 4)
                    (lifestyle_boosts (fold_left (apply_rule text) rs p))).
    { intros rs p Hrs. revert p. induction Hrs as [|r rs Hr _ IH]; intros p Hp; simpl.
      - exact Hp.
      - apply IH. unfold apply_rule. destruct (rule_matches r text); [| exact Hp].
        simpl. destruct Hp as [Hnd Hall]. split.
        + apply set_boosts_NoDup. exact Hnd.
        + apply set_boosts_Forall; assumption. }
    apply H; [apply keyword_rules_boosts |].
    rewrite body_type_step_boosts. simpl.
    split; [apply List.NoDup_nil | apply List.Forall_nil].
Qed.

(** Whatever the conversation, the boosts the extractor returns name each
    dimension at most once, name only dimensions of the importance table, and
    are between 1 and 4. *)
Theorem extracted_boosts_are_bounded (ctx : option (list message)) :
  List.NoDup (dict_keys (lifestyle_boosts (_parse_conversation_preferences ctx)))
  /\ Forall (fun e => In (fst e) (dict_keys dimension_importance)
                      /\ 1 <= snd e <= 4)
       (lifestyle_boosts (_parse_conversation_preferences ctx)).
Proof. exact (extracted_boosts_bounds ctx). Qed.

Lemma collect_user_messages_filter (msgs : list message) (acc : list string) :
  collect_user_messages (List.filter from_user msgs) acc
  = collect_user_messages msgs acc.
Proof.
  revert acc. induction msgs as [|m msgs IH]; intros acc; simpl; [reflexivity |].
  destruct m as [[role|] c|]; simpl; try apply IH.
  destruct (String.eqb role "user") eqn:E; [| apply IH].
  simpl. rewrite E.
  destruct c as [|s|[|]]; try apply IH; try reflexivity.
  destruct (PyStr.truthy s); apply IH.
Qed.

(** Only the turns of the user take part: the preferences extracted from a
    conversation are those extracted from its user turns alone. *)
Theorem non_user_turns_are_ignored (msgs : list message) :
  _parse_conversation_preferences (Some msgs)
  = _parse_conversation_preferences (Some (List.filter from_user msgs)).
Proof.
  unfold _parse_conversation_preferences.
  rewrite <- (collect_user_messages_filter msgs []).
  destruct msgs as [|m msgs]; [reflexivity |].
  destruct (List.filter from_user (m :: msgs)) as [|m' msgs'] eqn:E.
  - reflexivity.
  - reflexivity.
Qed.

Lemma lower_upper_char (c : ascii) :
  PyStr.lower_char (PyStr.upper_char c) = PyStr.lower_char c.
Proof.
  destruct c as [[] [] [] [] [] [] [] []]; reflexivity.
Qed.

Lemma lower_upper (s : string) : PyStr.lower (PyStr.upper s) = PyStr.lower s.
Proof.
  unfold PyStr.lower, PyStr.upper.
  induction s as [|c s IH]; simpl; [reflexivity |].
  rewrite IH, lower_upper_char. reflexivity.
Qed.

Lemma collect_user_messages_shout (msgs : list message) (acc : list string) :
  collect_user_messages (map shout msgs) acc = collect_user_messages msgs acc.
Proof.
  revert acc. induction msgs as [|m msgs IH]; intros acc; simpl; [reflexivity |].
  destruct m as [[role|] c|]; simpl.
  - destruct c as [|s|[|]]; simpl; destruct (String.eqb role "user");
      try apply IH; try reflexivity.
    rewrite lower_upper. destruct s; simpl; apply IH.
  - destruct c; apply IH.
  - apply IH.
Qed.


(** ** Price phrases *)

Lemma star_digit_free (k : Re.cls) (s : string) (p : nat)
  (g : list (nat * string)) (kont : Re.cont) (res : Re.mstate) :
  digit_free s = true ->
  Re.star k s p g kont = Some res ->
  exists st', digit_free (Re.rest st') = true /\ kont st' = Some res.
Proof.
  revert p. induction s as [|c s IH]; intros p Hs; simpl.
  - intros H. eexists. split; [| exact H]. reflexivity.
  - simpl in Hs. apply andb_true_iff in Hs. destruct Hs as [Hc Hs].
    assert (Hhere : kont {| Re.rest := String c s; Re.pos := p; Re.groups := g |}
                    = Some res ->
                    exists st', digit_free (Re.rest st') = true /\ kont st' = Some res).
    { intros H. eexists. split; [| exact H]. simpl. rewrite Hc, Hs. reflexivity. }
    destruct (Re.cls_match k c); [| exact Hhere].
    destruct (Re.star k s (S p) g kont) as [r|] eqn:E; [| exact Hhere].
    intros [= <-]. apply (IH (S p) Hs E).
Qed.

(** On a text without digits a pattern either fails or hands a text without
    digits to what follows it, and it fails when it needs a digit. *)
Lemma run_digit_free (r : Re.regex) :
  forall (st : Re.mstate) (kont : Re.cont),
    digit_free (Re.rest st) = true ->
    (forall res, Re.run r st kont = Some res ->
                 exists st', digit_free (Re.rest st') = true /\ kont st' = Some res)
    /\ (needs_digit r = true -> Re.run r st kont = None).
Proof.
  induction r as [|c|k|r1 IH1 r2 IH2|k|r IH|n r IH]; intros st kont Hst; simpl.
  - split; [| discriminate]. intros res H. eauto.
  - destruct (Re.rest st) as [|d s'] eqn:Er; [split; [discriminate | reflexivity] |].
    simpl in Hst. apply andb_true_iff in Hst. destruct Hst as [Hd Hs'].
    destruct (Ascii.eqb c d) eqn:E; [| split; [discriminate | reflexivity]].
    apply Ascii.eqb_eq in E. subst d. split.
    + intros res H. eexists. split; [| exact H]. exact Hs'.
    + intros Hc. rewrite Hc in Hd. discriminate.
  - destruct (Re.rest st) as [|d s'] eqn:Er;
      [split; [discriminate | reflexivity] |].
    simpl in Hst. apply andb_true_iff in Hst. destruct Hst as [Hd Hs'].
    destruct k; simpl.
    + apply negb_true_iff in Hd. rewrite Hd. split; [discriminate | reflexivity].
    + destruct (PyStr.is_space d); split; try discriminate.
      intros res H. eexists. split; [| exact H]. exact Hs'.
  - split.
    + intros res H.
      destruct (proj1 (IH1 st _ Hst) res H) as (st1 & Hst1 & H1).
      apply (proj1 (IH2 st1 kont Hst1) res H1).
    + intros Hn. apply orb_true_iff in Hn.
      destruct (Re.run r1 st (fun st' => Re.run r2 st' kont)) as [res|] eqn:E;
        [| reflexivity].
      exfalso. destruct Hn as [Hn | Hn].
      * rewrite (proj2 (IH1 st _ Hst) Hn) in E. discriminate.
      * destruct (proj1 (IH1 st _ Hst) res E) as (st1 & Hst1 & H1).
        rewrite (proj2 (IH2 st1 kont Hst1) Hn) in H1. discriminate.
  - split; [| discriminate]. intros res H.
    apply (star_digit_free k _ _ _ _ _ Hst H).
  - split; [| discriminate]. intros res.
    destruct (Re.run r st kont) as [res'|] eqn:E.
    + intros [= <-]. apply (proj1 (IH st kont Hst) res' E).
    + intros H. eauto.
  - split.
    + intros res H.
      destruct (proj1 (IH st _ Hst) res H) as (st1 & Hst1 & H1).
      eexists. split; [| exact H1]. exact Hst1.
    + intros Hn. apply (proj2 (IH st _ Hst) Hn).
Qed.

Lemma match_at_digit_free (r : Re.regex) (s : string) (p : nat) :
  needs_digit r = true -> digit_free s = true -> Re.match_at r s p = None.
Proof.
  intros Hr Hs. unfold Re.match_at.
  rewrite (proj2 (run_digit_free r
                    {| Re.rest := s; Re.pos := p; Re.groups := [] |} Some Hs) Hr).
  reflexivity.
Qed.

Lemma search_digit_free (r : Re.regex) (s : string) (p : nat) :
  needs_digit r = true -> digit_free s = true -> Re.search_from r s p = None.
Proof.
  intros Hr. revert p. induction s as [|c s IH]; intros p Hs; simpl.
  - rewrite (match_at_digit_free r _ p Hr Hs). reflexivity.
  - rewrite (match_at_digit_free r _ p Hr Hs).
    simpl in Hs. apply andb_true_iff in Hs. apply IH. tauto.
Qed.

Lemma int_digits_nonneg (s : string) (acc z : Z) :
  0 <= acc -> PyStr.int_digits acc s = Some z -> 0 <= z.
Proof.
  revert acc. induction s as [|c s IH]; intros acc Hacc; simpl.
  - intros [= <-]. exact Hacc.
  - destruct (PyStr.is_digit c) eqn:E; [| discriminate].
    apply IH. unfold PyStr.is_digit in E. apply andb_true_iff in E.
    destruct E as [E1 E2]. apply N.leb_le in E1. unfold PyStr.digit_value. lia.
Qed.

Lemma int_nonneg (s : string) (z : Z) : PyStr.int s = Some z -> 0 <= z.
Proof.
  unfold PyStr.int. destruct s; [discriminate |].
  apply int_digits_nonneg. lia.
Qed.



(* ================================================================== *)
(** * Further properties of the filters and the ranking *)
(* ================================================================== *)

Lemma fuel_rejects_true (car : Car) (v : string) :
  fuel_rejects car v = true ->
  (PyStr.lower v = "hybrid"
   /\ PyStr.contains "hybrid" (PyStr.lower (engine (specifications car))) = false)
  \/ (PyStr.lower v = "electric"
      /\ PyStr.contains "electric" (PyStr.lower (engine (specifications car))) = false
      /\ PyStr.contains "ev" (PyStr.lower (engine (specifications car))) = false).
Proof.
  unfold fuel_rejects.
  destruct (String.eqb (PyStr.lower v) "hybrid") eqn:Eh; simpl.
  - apply String.eqb_eq in Eh.
    destruct (PyStr.contains "hybrid" _) eqn:Ec; simpl.
    + rewrite Eh. simpl. discriminate.
    + intros _. left. auto.
  - destruct (String.eqb (PyStr.lower v) "electric") eqn:Ee; simpl;
      [| discriminate].
    apply String.eqb_eq in Ee. intros H. apply andb_true_iff in H.
    destruct H as [H1 H2]. apply negb_true_iff in H1, H2. right. auto.
Qed.


Section RankingShape.
Local Open Scope R_scope.

(** The matches are the scored copies of the cars that pass the filters, one
    each, in catalog order. *)
Lemma collect_matches_cars (cars : list Car) (f : Filters) (adjusted : Profile)
  (budget : option Z) (matches : list ScoredCar) :
  collect_matches cars f adjusted budget = Some matches ->
  map sc_car matches
  = List.filter (fun car => _meets_conversation_filters car f) cars.
Proof.
  revert matches. induction cars as [|car cars IH]; intros matches; simpl.
  - intros [= <-]. reflexivity.
  - destruct (_meets_conversation_filters car f); simpl; [| apply IH].
    destruct (score_car car adjusted budget) as [s|] eqn:Es; [| discriminate].
    destruct (collect_matches cars f adjusted budget) as [ms|]; [| discriminate].
    intros [= <-]. simpl. rewrite (IH ms eq_refl).
    apply score_car_fields in Es. destruct Es as [-> _]. reflexivity.
Qed.

(** The loop raises exactly when a car that passes the filters has a price
    or a fuel economy of 0. *)
Lemma collect_matches_raises_iff (cars : list Car) (f : Filters)
  (adjusted : Profile) (budget : option Z) :
  collect_matches cars f adjusted budget = None
  <-> Exists (fun car => _meets_conversation_filters car f = true
                         /\ (msrp (basic_info car) = 0%Z
                             \/ mpg_combined (specifications car) = 0%Z)) cars.
Proof.
  induction cars as [|car cars IH]; simpl.
  - split; [discriminate | intros H; inversion H].
  - destruct (_meets_conversation_filters car f) eqn:Em; simpl.
    + unfold score_car at 1.
      destruct (_calculate_value_score car) as [v|] eqn:Ev.
      * assert (Hok : ~ (msrp (basic_info car) = 0%Z
                         \/ mpg_combined (specifications car) = 0%Z)).
        { intros H. apply value_score_none_iff in H. congruence. }
        destruct (collect_matches cars f adjusted budget) as [ms|].
        -- split; [discriminate |]. intros H. inversion H as [? ? [_ H1] | ? ? H1]; subst.
           ++ contradiction.
           ++ apply IH in H1. discriminate.
        -- split; [| reflexivity]. intros _. apply List.Exists_cons_tl.
           apply IH. reflexivity.
      * split; [| reflexivity]. intros _. apply List.Exists_cons_hd.
        split; [exact Em |]. apply value_score_none_iff. exact Ev.
    + rewrite IH. split.
      * intros H. apply List.Exists_cons_tl. exact H.
      * intros H. inversion H as [? ? [H1 _] | ? ? H1]; subst; [congruence | exact H1].
Qed.

(** [find_matches] raises exactly when some car that passes the extracted
    filters has a price of 0 or a fuel economy of 0; a car the filters reject
    is never scored and cannot make it raise. *)
Theorem find_matches_raises_iff (cars : list Car) (profile : Profile)
  (budget : option Z) (ctx : option (list message)) (top_n : Z) :
  find_matches cars profile budget ctx top_n = None
  <-> Exists (fun car =>
                _meets_conversation_filters car
                  (filters (_parse_conversation_preferences ctx)) = true
                /\ (msrp (basic_info car) = 0%Z
                    \/ mpg_combined (specifications car) = 0%Z)) cars.
Proof.
  rewrite <- (collect_matches_raises_iff cars _
                (adjust_profile profile
                   (lifestyle_boosts (_parse_conversation_preferences ctx)))
                budget).
  unfold find_matches.
  destruct (collect_matches cars _ _ budget); split; congruence.
Qed.

(** For a top_n that is not negative the ranking has exactly top_n entries
    when that many cars pass the filters, and one entry per passing car
    otherwise. *)
Theorem find_matches_length (cars : list Car) (profile : Profile)
  (budget : option Z) (ctx : option (list message)) (top_n : Z)
  (res : list ScoredCar) :
  (0 <= top_n)%Z ->
  find_matches cars profile budget ctx top_n = Some res ->
  len res
  = Z.min top_n
      (len (List.filter
              (fun car => _meets_conversation_filters car
                            (filters (_parse_conversation_preferences ctx)))
              cars)).
Proof.
  intros Hn. unfold find_matches.
  destruct (collect_matches cars _ _ budget) as [matches|] eqn:Ec; [| discriminate].
  intros [= <-]. apply collect_matches_cars in Ec.
  unfold py_prefix, len.
  replace (top_n <? 0)%Z with false by (symmetry; apply Z.ltb_ge; lia).
  rewrite length_firstn, sort_desc_length, <- Ec, length_map.
  rewrite Nat2Z.inj_min, Z2Nat.id by exact Hn. reflexivity.
Qed.

Lemma find_matches_length_witness :
  exists res,
    find_matches Sample.catalog Sample.profile (Some 35000%Z) Sample.kids_turn 4
    = Some res
    /\ len res = 2%Z.
Proof.
  destruct (find_matches_defined Sample.catalog Sample.profile (Some 35000%Z)
              Sample.kids_turn 4 sample_catalog_divisors) as [res Hres].
  exists res. split; [exact Hres |].
  rewrite (find_matches_length _ _ _ _ 4%Z _ ltac:(lia) Hres).
  rewrite kids_turn_preferences. reflexivity.
Defined.

(** Asking for fewer results gives the first entries of the longer ranking:
    for 0 <= k <= n the ranking for top_n = k is the first k entries of the
    ranking for top_n = n. *)
Theorem find_matches_prefix (cars : list Car) (profile : Profile)
  (budget : option Z) (ctx : option (list message)) (k n : Z)
  (res : list ScoredCar) :
  (0 <= k <= n)%Z ->
  find_matches cars profile budget ctx n = Some res ->
  find_matches cars profile budget ctx k = Some (firstn (Z.to_nat k) res).
Proof.
  intros Hkn. unfold find_matches.
  destruct (collect_matches cars _ _ budget) as [matches|]; [| discriminate].
  intros [= <-]. f_equal. unfold py_prefix.
  replace (k <? 0)%Z with false by (symmetry; apply Z.ltb_ge; lia).
  replace (n <? 0)%Z with false by (symmetry; apply Z.ltb_ge; lia).
  rewrite firstn_firstn. f_equal. lia.
Qed.

Lemma find_matches_prefix_witness :
  exists res,
    find_matches Sample.catalog Sample.profile None None 4 = Some res
    /\ find_matches Sample.catalog Sample.profile None None 2
       = Some (firstn 2 res).
Proof.
  destruct (find_matches_defined Sample.catalog Sample.profile None None 4
              sample_catalog_divisors) as [res Hres].
  exists res. split; [exact Hres |].
  apply (find_matches_prefix _ _ _ _ 2 4 res); [lia | exact Hres].
Defined.

End RankingShape.

Lemma insert_desc_perm {A K : Type} (key : A -> K) (lt : K -> K -> bool)
  (x : A) (l : list A) :
  Permutation (insert_desc key lt x l) (x :: l).
Proof.
  induction l as [|y l IH]; simpl; [reflexivity |].
  destruct (lt (key x) (key y)); [| reflexivity].
  rewrite IH. apply perm_swap.
Qed.

Lemma sort_desc_perm {A K : Type} (key : A -> K) (lt : K -> K -> bool)
  (l : list A) :
  Permutation (sort_desc key lt l) l.
Proof.
  induction l as [|x l IH]; simpl; [reflexivity |].
  rewrite insert_desc_perm, IH. reflexivity.
Qed.

(** When top_n is at least the number of cars that pass the filters, the
    ranking holds each passing car exactly once: its cars are a rearrangement
    of the passing cars of the catalog. *)
Theorem find_matches_complete (cars : list Car) (profile : Profile)
  (budget : option Z) (ctx : option (list message)) (top_n : Z)
  (res : list ScoredCar) :
  len (List.filter
         (fun car => _meets_conversation_filters car
                       (filters (_parse_conversation_preferences ctx))) cars)
  <= top_n ->
  find_matches cars profile budget ctx top_n = Some res ->
  Permutation (map sc_car res)
    (List.filter
       (fun car => _meets_conversation_filters car
                     (filters (_parse_conversation_preferences ctx))) cars).
Proof.
  intros Hn. unfold find_matches.
  destruct (collect_matches cars _ _ budget) as [matches|] eqn:Ec; [| discriminate].
  intros [= <-]. apply collect_matches_cars in Ec. rewrite <- Ec in *.
  unfold len in Hn. rewrite length_map in Hn.
  unfold py_prefix.
  replace (top_n <? 0) with false by (symmetry; apply Z.ltb_ge; lia).
  rewrite firstn_all2 by (rewrite sort_desc_length; lia).
  apply Permutation_map. apply sort_desc_perm.
Qed.

Lemma find_matches_complete_witness :
  exists res,
    find_matches Sample.catalog Sample.profile None None 4 = Some res
    /\ Permutation (map sc_car res) Sample.catalog.
Proof.
  destruct (find_matches_defined Sample.catalog Sample.profile None None 4
              sample_catalog_divisors) as [res Hres].
  exists res. split; [exact Hres |].
  change Sample.catalog
    with (List.filter
            (fun car => _meets_conversation_filters car
                          (filters (_parse_conversation_preferences None)))
            Sample.catalog).
  apply (find_matches_complete Sample.catalog Sample.profile None None 4 res);
    [vm_compute; discriminate | exact Hres].
Defined.

(* ================================================================== *)
(** * Further properties of the catalog operations *)
(* ================================================================== *)

(** [get_car_by_id] returns the first car of the catalog that has the id:
    nothing before it has the id. *)
Theorem get_car_by_id_first (cars : list Car) (id : string) (car : Car) :
  get_car_by_id cars id = Some car <->
  exists before after,
    cars = before ++ car :: after
    /\ car_id car = id
    /\ Forall (fun c => car_id c <> id) before.
Proof.
  induction cars as [|c cars IH]; simpl.
  - split; [discriminate |]. intros (before & ? & H & _).
    destruct before; discriminate.
  - destruct (String.eqb (car_id c) id) eqn:E.
    + apply String.eqb_eq in E. split.
      * intros [= <-]. exists [], cars. auto.
      * intros (before & after & Hc & Hid & Hb).
        destruct before as [|b before]; simpl in Hc.
        -- injection Hc as -> _. reflexivity.
        -- injection Hc as <- _. inversion Hb; subst. contradiction.
    + apply String.eqb_neq in E. rewrite IH. split.
      * intros (before & after & -> & Hid & Hb).
        exists (c :: before), after. auto.
      * intros (before & after & Hc & Hid & Hb).
        destruct before as [|b before]; simpl in Hc.
        -- injection Hc as -> _. contradiction.
        -- injection Hc as <- ->. inversion Hb; subst. eauto.
Qed.

Lemma compare_fold_categories (cars : list Car) (ids : list string)
  (acc : Comparison) :
  let result := fold_left (compare_step cars) ids acc in
  let found := flat_map (entry_for cars) ids in
  cat_safety (cmp_categories result) = cat_safety (cmp_categories acc)
  /\ cat_space (cmp_categories result) = cat_space (cmp_categories acc)
  /\ cat_price (cmp_categories result)
     = cat_price (cmp_categories acc)
       ++ map (fun e => {| ce_car := cc_name e; ce_value := cc_price e |}) found
  /\ cat_fuel_efficiency (cmp_categories result)
     = cat_fuel_efficiency (cmp_categories acc)
       ++ map (fun e => {| ce_car := cc_name e;
                           ce_value := mpg_combined (cc_specs e) |}) found
  /\ cat_performance (cmp_categories result)
     = cat_performance (cmp_categories acc)
       ++ map (fun e => {| ce_car := cc_name e;
                           ce_value := horsepower (cc_specs e) |}) found.
Proof.
  cbv zeta. revert acc. induction ids as [|id ids IH]; intros acc; simpl.
  - rewrite !app_nil_r. auto.
  - destruct (IH (compare_step cars acc id)) as (H1 & H2 & H3 & H4 & H5).
    rewrite H1, H2, H3, H4, H5. unfold compare_step, entry_for.
    destruct (get_car_by_id cars id) as [car|]; simpl.
    + rewrite <- !app_assoc. auto.
    + auto.
Qed.

(** In a comparison the price, fuel-efficiency and performance lists have one
    entry per compared car, in the same order and with that car's name, price,
    mpg and horsepower; the safety and space lists are never filled. *)
Theorem compare_cars_categories (cars : list Car) (ids : list string) :
  let comparison := compare_cars cars ids in
  cat_safety (cmp_categories comparison) = []
  /\ cat_space (cmp_categories comparison) = []
  /\ cat_price (cmp_categories comparison)
     = map (fun e => {| ce_car := cc_name e; ce_value := cc_price e |})
         (cmp_cars comparison)
  /\ cat_fuel_efficiency (cmp_categories comparison)
     = map (fun e => {| ce_car := cc_name e;
                        ce_value := mpg_combined (cc_specs e) |})
         (cmp_cars comparison)
  /\ cat_performance (cmp_categories comparison)
     = map (fun e => {| ce_car := cc_name e;
                        ce_value := horsepower (cc_specs e) |})
         (cmp_cars comparison).
Proof.
  cbv zeta. unfold compare_cars.
  destruct (compare_fold_categories cars ids empty_comparison)
    as (H1 & H2 & H3 & H4 & H5).
  rewrite compare_cars_fold. simpl. auto.
Qed.

Lemma filter_filter {A : Type} (f g : A -> bool) (l : list A) :
  List.filter g (List.filter f l) = List.filter (fun x => f x && g x) l.
Proof.
  induction l as [|x l IH]; simpl; [reflexivity |].
  destruct (f x); simpl; [destruct (g x); rewrite IH |]; auto.
Qed.

Lemma filter_true {A : Type} (l : list A) : List.filter (fun _ => true) l = l.
Proof. induction l as [|x l IH]; simpl; [| rewrite IH]; reflexivity. Qed.

Lemma upper_truthy (s : string) : PyStr.truthy (PyStr.upper s) = PyStr.truthy s.
Proof. destruct s; reflexivity. Qed.

(** [filter_by_criteria] returns, in catalog order, exactly the cars that
    meet all the criteria that are given; and the body type is compared
    without regard to case, so that asking in upper case gives the same
    list. *)
Theorem filter_by_criteria_spec (cars : list Car) (b : option string)
  (m p s : option Z) :
  filter_by_criteria cars b m p s = List.filter (passes_criteria b m p s) cars
  /\ filter_by_criteria cars (option_map PyStr.upper b) m p s
     = filter_by_criteria cars b m p s.
Proof.
  assert (H : forall b, filter_by_criteria cars b m p s
                        = List.filter (passes_criteria b m p s) cars).
  { intros b0. unfold filter_by_criteria, passes_criteria. cbv zeta.
    destruct (given_str b0), (given_int m), (given_int p), (given_int s);
      cbn [andb]; rewrite ?filter_filter;
      try (symmetry; apply filter_true);
      apply List.filter_ext; intros c; rewrite ?andb_true_r, ?andb_assoc;
      reflexivity. }
  split; [apply H |].
  rewrite !H. apply List.filter_ext. intros c. unfold passes_criteria.
  destruct b as [x|]; [| reflexivity]. simpl.
  rewrite upper_truthy. destruct (PyStr.truthy x); [| reflexivity].
  rewrite lower_upper. reflexivity.
Qed.

(* ================================================================== *)
(** * Further properties of the reasons *)
(* ================================================================== *)

Lemma priority_reasons_sound (car : Car) (entries : list (string * Z))
  (r : string) :
  In r (priority_reasons car entries) ->
  exists d v,
    In (d, v) entries /\ 7 <= v
    /\ 7 <= dict_get_default (lifestyle_scores car) d 5
    /\ r = ("Strong " ++ PyStr.title (PyStr.replace_char "_" " " d) ++ " match")%string.
Proof.
  unfold priority_reasons. rewrite in_flat_map.
  intros ([d v] & Hin & Hr). simpl in Hr.
  destruct (7 <=? v) eqn:E1; [| contradiction].
  destruct (7 <=? dict_get_default (lifestyle_scores car) d 5) eqn:E2;
    [| contradiction].
  destruct Hr as [<- | []].
  apply Z.leb_le in E1, E2. exists d, v. auto.
Qed.

Lemma match_reasons_backed (car : Car) (user_profile : Profile) :
  (length (_generate_match_reasons car user_profile) <= 4)%nat
  /\ (forall r, In r (_generate_match_reasons car user_profile) ->
        (exists d v,
           In (d, v) user_profile /\ 7 <= v
           /\ 7 <= dict_get_default (lifestyle_scores car) d 5
           /\ r = ("Strong " ++ PyStr.title (PyStr.replace_char "_" " " d)
                   ++ " match")%string)
        \/ (r = "Great value" /\ msrp (basic_info car) < 30000)
        \/ (r = "Premium features" /\ 50000 < msrp (basic_info car))
        \/ (r = "Excellent fuel economy" /\ 35 < mpg_combined (specifications car))
        \/ (r = "High performance" /\ 300 < horsepower (specifications car))
        \/ (r = "Advanced safety tech" /\ 5 < len (safety (features car)))).
Proof.
  split.
  - unfold _generate_match_reasons. cbv zeta. rewrite length_firstn. lia.
  - intros r. unfold _generate_match_reasons. cbv zeta. intros Hr.
    apply firstn_In in Hr. simpl app in Hr.
    assert (Hstrong : In r (priority_reasons car
                              (firstn 3 (sort_desc snd Z.ltb user_profile))) ->
                      exists d v,
                        In (d, v) user_profile /\ 7 <= v
                        /\ 7 <= dict_get_default (lifestyle_scores car) d 5
                        /\ r = ("Strong " ++ PyStr.title
                                  (PyStr.replace_char "_" " " d) ++ " match")%string).
    { intros H. apply priority_reasons_sound in H.
      destruct H as (d & v & Hin & H). exists d, v. split; [| exact H].
      apply firstn_In in Hin.
      eapply Permutation_in; [apply (sort_desc_perm snd Z.ltb user_profile) | exact Hin]. }
    destruct (msrp (basic_info car) <? 30000) eqn:E1;
      [apply Z.ltb_lt in E1 |
       destruct (50000 <? msrp (basic_info car)) eqn:E1';
       [apply Z.ltb_lt in E1' |]];
      destruct (35 <? mpg_combined (specifications car)) eqn:E2;
      try apply Z.ltb_lt in E2;
      destruct (300 <? horsepower (specifications car)) eqn:E3;
      try apply Z.ltb_lt in E3;
      destruct (5 <? len (safety (features car))) eqn:E4;
      try apply Z.ltb_lt in E4;
      repeat (apply in_app_or in Hr; destruct Hr as [Hr | Hr]);
      try (left; apply Hstrong; exact Hr);
      try (destruct Hr as [<- | []]; right; tauto).
Qed.

Lemma match_reasons_never_both (car : Car) (user_profile : Profile) :
  ~ (In "Great value" (_generate_match_reasons car user_profile)
     /\ In "Premium features" (_generate_match_reasons car user_profile)).
Proof.
  intros [H1 H2].
  destruct (match_reasons_backed car user_profile) as [_ H].
  destruct (H _ H1) as [(d & v & _ & _ & _ & E) | [[_ G] | [[E _] | [[E _] | [[E _] | [E _]]]]]];
    try discriminate E.
  destruct (H _ H2) as [(d & v & _ & _ & _ & E) | [[E _] | [[_ P] | [[E _] | [[E _] | [E _]]]]]];
    try discriminate E.
  lia.
Qed.

(** Every reason given for a match is backed by the data: a "Strong ...
    match" names a dimension that scores at least 7 both in the profile and
    for the car (5 standing for a score the car lacks), and the other five
    reasons appear only beyond their thresholds; there are at most 4 reasons,
    and "Great value" and "Premium features" never appear together. *)
Theorem match_reasons_sound (car : Car) (user_profile : Profile) :
  (length (_generate_match_reasons car user_profile) <= 4)%nat
  /\ (forall r, In r (_generate_match_reasons car user_profile) ->
        (exists d v,
           In (d, v) user_profile /\ 7 <= v
           /\ 7 <= dict_get_default (lifestyle_scores car) d 5
           /\ r = ("Strong " ++ PyStr.title (PyStr.replace_char "_" " " d)
                   ++ " match")%string)
        \/ (r = "Great value" /\ msrp (basic_info car) < 30000)
        \/ (r = "Premium features" /\ 50000 < msrp (basic_info car))
        \/ (r = "Excellent fuel economy" /\ 35 < mpg_combined (specifications car))
        \/ (r = "High performance" /\ 300 < horsepower (specifications car))
        \/ (r = "Advanced safety tech" /\ 5 < len (safety (features car))))
  /\ ~ (In "Great value" (_generate_match_reasons car user_profile)
        /\ In "Premium features" (_generate_match_reasons car user_profile)).
Proof.
  destruct (match_reasons_backed car user_profile) as [H1 H2].
  split; [exact H1 | split; [exact H2 | apply match_reasons_never_both]].
Qed.

Lemma match_reasons_sound_witness :
  35 < mpg_combined (specifications Sample.hybrid_suv)
  /\ exists d v,
       In (d, v) Sample.profile /\ 7 <= v
       /\ 7 <= dict_get_default (lifestyle_scores Sample.hybrid_suv) d 5
       /\ "Strong Eco Conscious match"
          = ("Strong " ++ PyStr.title (PyStr.replace_char "_" " " d)
             ++ " match")%string.
Proof.
  destruct (match_reasons_sound Sample.hybrid_suv Sample.profile) as (_ & H & _).
  assert (In1 : In "Excellent fuel economy"
                  (_generate_match_reasons Sample.hybrid_suv Sample.profile))
    by (vm_compute; tauto).
  assert (In2 : In "Strong Eco Conscious match"
                  (_generate_match_reasons Sample.hybrid_suv Sample.profile))
    by (vm_compute; tauto).
  split.
  - destruct (H _ In1)
      as [(d & v & _ & _ & _ & E) | [[E _] | [[E _] | [[_ G] | [[E _] | [E _]]]]]];
      try discriminate E; try exact G.
  - destruct (H _ In2)
      as [S | [[E _] | [[E _] | [[E _] | [[E _] | [E _]]]]]];
      try discriminate E.
    exact S.
Defined.

(* ================================================================== *)
(** * Further properties of the similarity and of the composite score *)
(* ================================================================== *)

Section CosineScale.
Local Open Scope R_scope.

Lemma cosine_fold_scale (car_scores : Dict Z) (k : Z) (l : Profile)
  (acc acc' : CosineAcc) :
  dot_product acc' = IZR k * dot_product acc ->
  car_magnitude acc' = car_magnitude acc ->
  user_magnitude acc' = IZR k * IZR k * user_magnitude acc ->
  let r := fold_left (cosine_step car_scores) l acc in
  let r' := fold_left (cosine_step car_scores) (scale_profile k l) acc' in
  dot_product r' = IZR k * dot_product r
  /\ car_magnitude r' = car_magnitude r
  /\ user_magnitude r' = IZR k * IZR k * user_magnitude r.
Proof.
  revert acc acc'. induction l as [|[d u] l IH]; intros acc acc' H1 H2 H3; simpl.
  - auto.
  - apply IH; unfold cosine_step; simpl fst; simpl snd;
      destruct (dict_get car_scores d) as [c|]; simpl; try assumption;
      rewrite ?mult_IZR, ?H1, ?H2, ?H3; ring.
Qed.



End CosineScale.

Section CompositeRange.
Local Open Scope R_scope.

Lemma round_half_even_near (x : R) :
  x - 1 / 2 <= IZR (round_half_even x) <= x + 1 / 2.
Proof.
  unfold round_half_even.
  pose proof (Rplus_Int_part_frac_part x) as Hx.
  pose proof (base_fp x) as [Hf0 Hf1].
  set (n := Int_part x) in *. set (f := frac_part x) in *.
  destruct (decide (f < 1 / 2)); [lra |].
  destruct (decide (1 / 2 < f)); [rewrite plus_IZR; lra |].
  destruct (Z.even n); [| rewrite plus_IZR]; lra.
Qed.

Lemma round_half_even_mono (x y : R) :
  x <= y -> (round_half_even x <= round_half_even y)%Z.
Proof.
  intros [Hlt | ->]; [| lia].
  pose proof (round_half_even_near x) as [_ Hx].
  pose proof (round_half_even_near y) as [Hy _].
  assert (H : IZR (round_half_even x) < IZR (round_half_even y + 1)).
  { rewrite plus_IZR. lra. }
  apply lt_IZR in H. lia.
Qed.

Lemma round2_mono (x y : R) : x <= y -> round2 x <= round2 y.
Proof.
  intros H. unfold round2.
  assert (H' : x * 100 <= y * 100) by lra.
  apply round_half_even_mono, IZR_le in H'. lra.
Qed.

(** The adjusted profile of a profile with scores from 1 to 10 has positive
    scores only. *)
Lemma adjusted_profile_positive (profile : Profile) (ctx : option (list message)) :
  (forall e, In e profile -> (1 <= snd e <= 10)%Z) ->
  forall d u,
    In (d, u) (adjust_profile profile
                 (lifestyle_boosts (_parse_conversation_preferences ctx))) ->
    (0 < u)%Z.
Proof.
  intros Hp d u Hin.
  destruct (adjust_profile_shape profile
              (lifestyle_boosts (_parse_conversation_preferences ctx)))
    as [_ H].
  destruct H as [Hrange _]; [exact Hp | |].
  - destruct (extracted_boosts_bounds ctx) as [_ Hb].
    rewrite List.Forall_forall in Hb. intros e He.
    destruct (Hb e He) as [_ ?]. lia.
  - specialize (Hrange _ Hin). simpl in Hrange. lia.
Qed.

Lemma cosine_similarity_bounds (car_scores : Dict Z) (user_profile : Profile) :
  (forall d u, In (d, u) user_profile -> (0 < u)%Z) ->
  (forall d c, dict_get car_scores d = Some c -> (0 < c)%Z) ->
  0 <= _calculate_cosine_similarity car_scores user_profile <= 100.
Proof.
  intros Hprofile Hcar. unfold _calculate_cosine_similarity, cosine_sums.
  set (zero := {| dot_product := 0; car_magnitude := 0; user_magnitude := 0 |}).
  destruct (cosine_fold_bounded car_scores user_profile zero Hprofile Hcar)
    as (HD & HA & HB & Hcs); simpl; try lra.
  set (acc := fold_left (cosine_step car_scores) user_profile zero) in *.
  destruct (decide (0 < car_magnitude acc /\ 0 < user_magnitude acc))
    as [[Hc Hu] |]; [| lra].
  pose proof (sqrt_lt_R0 _ Hc) as Hsc. pose proof (sqrt_lt_R0 _ Hu) as Hsu.
  set (sc := sqrt (car_magnitude acc)) in *.
  set (su := sqrt (user_magnitude acc)) in *.
  assert (Hden : 0 < sc * su) by (apply Rmult_lt_0_compat; assumption).
  assert (Hle : dot_product acc <= sc * su).
  { apply Rsqr_incr_0; [| exact HD | lra]. unfold Rsqr.
    replace (sc * su * (sc * su)) with (sc * sc * (su * su)) by ring.
    unfold sc, su. rewrite !sqrt_sqrt by lra. exact Hcs. }
  assert (H0 : 0 <= dot_product acc / (sc * su))
    by (apply Rdiv_pos_pos; assumption).
  assert (H1 : dot_product acc / (sc * su) <= 1).
  { apply (Rmult_le_reg_r (sc * su)); [exact Hden |].
    unfold Rdiv. rewrite Rmult_assoc, Rinv_l by lra. lra. }
  lra.
Qed.

Lemma budget_score_bounds (car : Car) (budget : option Z) :
  (0 <= msrp (basic_info car))%Z ->
  0 <= budget_score_of car budget <= 100.
Proof.
  intros Hp. unfold budget_score_of.
  destruct budget as [b|]; [| lra].
  destruct (b =? 0)%Z eqn:E0; [lra |]. apply Z.eqb_neq in E0.
  destruct (Z.lt_ge_cases 0 b) as [Hb | Hb].
  - apply (budget_affinity_bounds _ b Hp Hb).
  - rewrite (proj2 (budget_affinity_default (msrp (basic_info car)) b)) by lia.
    lra.
Qed.

Lemma round2_between (lo hi : Z) (x : R) :
  IZR lo / 100 <= x <= IZR hi / 100 ->
  IZR lo / 100 <= round2 x <= IZR hi / 100.
Proof.
  intros [H1 H2].
  rewrite <- (round2_hundredths lo), <- (round2_hundredths hi).
  split; apply round2_mono; assumption.
Qed.


Lemma sample_catalog_plausible : Forall plausible Sample.catalog.
Proof.
  repeat apply List.Forall_cons; try apply List.Forall_nil;
    unfold plausible, Sample.hybrid_suv, Sample.sports_coupe, Sample.sedan;
    cbn [msrp basic_info mpg_combined horsepower seating_capacity cargo_space
         specifications costs insurance_annual_estimate
         maintenance_annual_estimate get_or lifestyle_scores dict_get];
    repeat split; try lia;
    intros d c;
    repeat (destruct (String.eqb _ d); [intros [= <-]; lia |]);
    intros H; discriminate H.
Qed.


End CompositeRange.

(* ================================================================== *)
(** * The personality analyzer *)
(* ================================================================== *)

Section AnalyzerFacts.
Import Analyzer.

Lemma fold_left_inv {A B : Type} (P : A -> Prop) (f : A -> B -> A)
  (l : list B) (a : A) :
  (forall a b, In b l -> P a -> P (f a b)) -> P a -> P (fold_left f l a).
Proof.
  revert a. induction l as [|b l IH]; simpl; intros a Hf Ha; [exact Ha |].
  apply IH; [intros; apply Hf; auto | apply Hf; auto].
Qed.


Lemma add_points_keys (weight : Q) (t : Tally) (entry : string * Z) :
  dict_keys (t_scores (add_points weight t entry)) = dict_keys (t_scores t).
Proof.
  unfold add_points.
  destruct (dict_get (t_scores t) (fst entry)) as [score|] eqn:E; [| reflexivity].
  simpl. eapply dict_set_keys. exact E.
Qed.

Lemma tally_answer_keys (question : Question) (n : nat) (t : Tally)
  (user_answer : string) :
  dict_keys (t_scores (tally_answer question n t user_answer))
  = dict_keys (t_scores t).
Proof.
  unfold tally_answer.
  destruct (find_option (q_options question) user_answer); [| reflexivity].
  apply (fold_left_inv
           (fun t' => dict_keys (t_scores t') = dict_keys (t_scores t)));
    [| reflexivity].
  intros t0 e0 _ H. rewrite add_points_keys. exact H.
Qed.

Lemma tally_question_keys (answers : Dict answer) (t : Tally)
  (question : Question) :
  dict_keys (t_scores (tally_question answers t question))
  = dict_keys (t_scores t).
Proof.
  unfold tally_question.
  destruct (selected_answers _) as [user_answers|]; [| reflexivity].
  apply (fold_left_inv
           (fun t' => dict_keys (t_scores t') = dict_keys (t_scores t)));
    [| reflexivity].
  intros t0 e0 _ H. rewrite tally_answer_keys. exact H.
Qed.

Lemma tally_keys (questions : list Question) (answers : Dict answer) :
  dict_keys (t_scores (fold_left (tally_question answers) questions initial))
  = dimensions.
Proof.
  apply (fold_left_inv (fun t' => dict_keys (t_scores t') = dimensions));
    [| reflexivity].
  intros t0 e0 _ H. rewrite tally_question_keys. exact H.
Qed.

Lemma normalise_entry_key (t : Tally) (entry : string * Q) :
  fst (normalise_entry t entry) = fst entry.
Proof. unfold normalise_entry. destruct (Qlt_le_dec _ _); reflexivity. Qed.

Lemma normalise_entry_range (t : Tally) (entry : string * Q) :
  1 <= snd (normalise_entry t entry) <= 10.
Proof. unfold normalise_entry. destruct (Qlt_le_dec _ _); simpl; lia. Qed.

(** Whatever the questions and the answers are, the profile has exactly the
    ten dimensions, in their order, and every score is between 1 and 10. *)
Theorem analyze_profile_shape (questions : list Question)
  (answers : Dict answer) :
  dict_keys (analyze questions answers) = dimensions
  /\ Forall (fun e => 1 <= snd e <= 10) (analyze questions answers).
Proof.
  unfold analyze. split.
  - unfold dict_keys. rewrite map_map.
    rewrite (map_ext _ fst (normalise_entry_key _)).
    apply tally_keys.
  - apply List.Forall_forall. intros e He. apply in_map_iff in He.
    destruct He as [x [<- _]]. apply normalise_entry_range.
Qed.

Lemma add_points_count (weight : Q) (t : Tally) (entry : string * Z)
  (d : string) :
  fst entry <> d ->
  dict_get (t_counts (add_points weight t entry)) d = dict_get (t_counts t) d.
Proof.
  intros Hne. unfold add_points.
  destruct (dict_get (t_scores t) (fst entry)); [| reflexivity].
  simpl. apply dict_get_set_other. exact Hne.
Qed.

Lemma dict_get_map_key {V W : Type} (f : string * V -> string * W)
  (d : Dict V) (k : string) (w : W) :
  (forall e, fst (f e) = fst e) ->
  (forall e, fst e = k -> snd (f e) = w) ->
  In k (dict_keys d) -> dict_get (map f d) k = Some w.
Proof.
  intros Hk Hv. induction d as [|[k' v'] d IH]; simpl; [intros [] |].
  intros Hin. destruct (f (k', v')) as [k2 w2] eqn:Ef.
  pose proof (Hk (k', v')) as Hk'. rewrite Ef in Hk'. simpl in Hk'. subst k2.
  destruct (String.eqb k' k) eqn:E.
  - apply String.eqb_eq in E. pose proof (Hv (k', v') E) as Hw.
    rewrite Ef in Hw. simpl in Hw. congruence.
  - destruct Hin as [-> | Hin]; [rewrite String.eqb_refl in E; discriminate |].
    apply IH. exact Hin.
Qed.

Lemma tally_unscored (questions : list Question) (answers : Dict answer)
  (d : string) :
  In d dimensions ->
  unscored questions answers d ->
  dict_get (t_counts (fold_left (tally_question answers) questions initial)) d
  = Some 0%Q.
Proof.
  intros Hd Hun.
  apply (fold_left_inv (fun t' => dict_get (t_counts t') d = Some 0%Q)).
  - intros t question Hq Ht. unfold tally_question.
    destruct (selected_answers _) as [user_answers|] eqn:Es; [| exact Ht].
    apply (fold_left_inv (fun t' => dict_get (t_counts t') d = Some 0%Q));
      [| exact Ht].
    intros t1 user_answer Ha Ht1. unfold tally_answer.
    destruct (find_option _ _) as [selected_option|] eqn:Ef; [| exact Ht1].
    pose proof (Hun _ _ _ _ Hq Es Ha Ef) as Hno.
    apply (fold_left_inv (fun t' => dict_get (t_counts t') d = Some 0%Q));
      [| exact Ht1].
    intros t2 entry He Ht2. rewrite add_points_count; [exact Ht2 |].
    intros Heq. apply Hno. unfold dict_keys. rewrite <- Heq.
    apply in_map. exact He.
  - simpl in Hd. unfold initial, dimensions. cbn [t_counts map].
    repeat (destruct Hd as [<- | Hd]; [reflexivity |]). contradiction.
Qed.

(** A dimension that no selected option scores comes out as the neutral 5;
    so does every dimension when nothing is answered. *)
Theorem analyze_unscored_is_five (questions : list Question)
  (answers : Dict answer) (d : string) :
  In d dimensions ->
  unscored questions answers d ->
  dict_get (analyze questions answers) d = Some 5.
Proof.
  intros Hd Hun. unfold analyze.
  pose proof (tally_unscored questions answers d Hd Hun) as Hc.
  apply dict_get_map_key.
  - apply normalise_entry_key.
  - intros e He. unfold normalise_entry. rewrite He.
    unfold dict_get_default. rewrite Hc.
    destruct (Qlt_le_dec 0 0) as [Hlt | _]; [| reflexivity].
    exfalso. revert Hlt. apply Qlt_irrefl.
  - rewrite tally_keys. exact Hd.
Qed.

Lemma dict_get_relisted (answers : Dict answer) (k : string) :
  dict_get (relisted answers) k = option_map listed (dict_get answers k).
Proof.
  unfold relisted. induction answers as [|[k' a] answers IH]; simpl;
    [reflexivity |].
  destruct (String.eqb k' k); [reflexivity | exact IH].
Qed.

Lemma selected_answers_listed (a : option answer) :
  selected_answers (option_map listed a) = selected_answers a.
Proof.
  destruct a as [[s | [|x l] | b] |]; simpl; try reflexivity.
  destruct (PyStr.truthy s) eqn:E; simpl; rewrite ?E; reflexivity.
Qed.

Lemma fold_left_ext_all {A B : Type} (f g : A -> B -> A) (l : list B) (a : A) :
  (forall a b, f a b = g a b) -> fold_left f l a = fold_left g l a.
Proof.
  intros H. revert a. induction l as [|b l IH]; simpl; intros a;
    [reflexivity |]. rewrite H. apply IH.
Qed.

(** An answer given as a non-empty string counts as the list of that one
    string. *)
Theorem analyze_legacy_answers (questions : list Question)
  (answers : Dict answer) :
  analyze questions (relisted answers) = analyze questions answers.
Proof.
  unfold analyze.
  rewrite (fold_left_ext_all (tally_question (relisted answers))
             (tally_question answers)); [reflexivity |].
  intros t question. unfold tally_question.
  rewrite dict_get_relisted, selected_answers_listed. reflexivity.
Qed.

Lemma sample_quiz_luxury_unscored :
  unscored Sample.questions Sample.answers "luxury".
Proof.
  intros question user_answers user_answer selected_option Hq _ _ Hf Hin.
  assert (Ho : In selected_option (q_options question)).
  { revert Hf. generalize (q_options question). intros options.
    induction options as [|o options IH]; simpl; [discriminate |].
    destruct (String.eqb (o_value o) user_answer);
      [intros [= <-]; left; reflexivity | intros H; right; apply IH; exact H]. }
  simpl in Hq.
  repeat (destruct Hq as [<- | Hq];
          [simpl in Ho;
           repeat (destruct Ho as [<- | Ho];
                   [simpl in Hin;
                    repeat (destruct Hin as [Hin | Hin];
                            [discriminate Hin |]); exact Hin |]);
           exact Ho |]).
  exact Hq.
Qed.

Lemma analyze_unscored_is_five_witness :
  dict_get (analyze Sample.questions Sample.answers) "luxury" = Some 5.
Proof.
  apply analyze_unscored_is_five.
  - simpl. tauto.
  - exact sample_quiz_luxury_unscored.
Defined.

(** The sample answers, analysed. *)
Example analyze_sample :
  analyze Sample.questions Sample.answers
  = [ ("family_friendly", 9); ("adventure", 10); ("eco_conscious", 6);
      ("luxury", 5); ("performance", 5); ("budget_conscious", 5);
      ("city_driving", 9); ("commuter", 5); ("tech_enthusiast", 5);
      ("safety_focused", 8) ].
Proof. vm_compute. reflexivity. Qed.

End AnalyzerFacts.

(* ================================================================== *)
(** * The description of a profile *)
(* ================================================================== *)

Section DescriptionFacts.
Import Analyzer.

Lemma sort_desc_head_max {A : Type} (key : A -> Z) (l : list A) (h : A)
  (t : list A) :
  sort_desc key Z.ltb l = h :: t -> forall e, In e l -> key e <= key h.
Proof.
  revert h t. induction l as [|x l IH]; intros h t; simpl; [discriminate |].
  destruct (sort_desc key Z.ltb l) as [|h0 t0] eqn:Es.
  - pose proof (Permutation.Permutation_length
                  (sort_desc_perm key Z.ltb l)) as Hl.
    rewrite Es in Hl. destruct l; [| discriminate Hl].
    simpl. intros [= <- <-] e [<- | []]. lia.
  - simpl. destruct (key x <? key h0) eqn:E.
    + intros [= <- <-] e [<- | He]; [lia | exact (IH _ _ eq_refl e He)].
    + intros [= <- <-] e [<- | He]; [lia |].
      pose proof (IH _ _ eq_refl e He). lia.
Qed.

Lemma profile_parts_nil (top_priorities : list (string * Z)) :
  profile_parts top_priorities = []
  <-> forall e, In e top_priorities -> snd e < 7.
Proof.
  unfold profile_parts. induction top_priorities as [|x l IH]; simpl.
  - split; [intros _ e [] | reflexivity].
  - destruct (7 <=? snd x) eqn:E; simpl.
    + split; [discriminate |]. intros H.
      pose proof (H x (or_introl eq_refl)). lia.
    + rewrite IH. split.
      * intros H e [<- | He]; [lia | exact (H e He)].
      * intros H e He. apply H. right. exact He.
Qed.

(** The description is the one of balanced priorities exactly when no score
    of the profile reaches 7. *)
Theorem description_balanced_iff (lifestyle_scores : Profile) :
  get_profile_description lifestyle_scores = balanced
  <-> forall e, In e lifestyle_scores -> snd e < 7.
Proof.
  unfold get_profile_description.
  pose proof (sort_desc_perm snd Z.ltb lifestyle_scores) as Hperm.
  split.
  - intros Hd.
    assert (Hnil : profile_parts
                     (firstn 3 (sort_desc snd Z.ltb lifestyle_scores)) = []).
    { destruct (profile_parts _) as [|p ps]; [reflexivity |].
      exfalso. simpl in Hd. discriminate Hd. }
    pose proof (proj1 (profile_parts_nil _) Hnil) as Hlow.
    destruct (sort_desc snd Z.ltb lifestyle_scores) as [|h t] eqn:Es.
    + apply Permutation.Permutation_nil in Hperm. subst. intros e [].
    + intros e He.
      pose proof (sort_desc_head_max snd lifestyle_scores h t Es e He).
      pose proof (Hlow h (or_introl eq_refl)). lia.
  - intros Hall.
    assert (Hnil : profile_parts
                     (firstn 3 (sort_desc snd Z.ltb lifestyle_scores)) = []).
    { apply profile_parts_nil. intros e He. apply Hall.
      apply (Permutation.Permutation_in e Hperm).
      apply (firstn_In _ _ _ He). }
    rewrite Hnil. reflexivity.
Qed.
End DescriptionFacts.

(* ================================================================== *)
(** * The analysed score as a mean of points *)
(* ================================================================== *)

Section AnalyzerMean.
Import Analyzer.

Lemma round_half_even_between (x : Q) (lo hi : Z) :
  (inject_Z lo <= x)%Q -> (x <= inject_Z hi)%Q ->
  lo <= round_half_even x <= hi.
Proof.
  intros Hlo Hhi.
  assert (Hn1 : lo <= Qfloor x).
  { rewrite <- (Qfloor_Z lo). apply Qfloor_resp_le. exact Hlo. }
  assert (Hn2 : Qfloor x <= hi).
  { rewrite <- (Qfloor_Z hi). apply Qfloor_resp_le. exact Hhi. }
  assert (Hup : (0 < x - inject_Z (Qfloor x))%Q -> Qfloor x + 1 <= hi).
  { intros Hpos. destruct (Z.eq_dec (Qfloor x) hi) as [E | E]; [| lia].
    exfalso. rewrite E in Hpos. lra. }
  unfold round_half_even.
  destruct (Qcompare_spec (x - inject_Z (Qfloor x)) (1 # 2)) as [E | E | E].
  - destruct (Z.even (Qfloor x)); [lia |].
    split; [lia |]. apply Hup. rewrite E. reflexivity.
  - lia.
  - split; [lia |]. apply Hup. lra.
Qed.

Lemma dict_get_map_entry {V W : Type} (f : string * V -> string * W)
  (d : Dict V) (k : string) :
  (forall e, fst (f e) = fst e) ->
  dict_get (map f d) k
  = match dict_get d k with
    | Some v => Some (snd (f (k, v)))
    | None => None
    end.
Proof.
  intros Hk. induction d as [|[k' v'] d IH]; simpl; [reflexivity |].
  destruct (f (k', v')) as [k2 w2] eqn:Ef.
  pose proof (Hk (k', v')) as Hk'. rewrite Ef in Hk'. simpl in Hk'. subst k2.
  destruct (String.eqb k' k) eqn:E; [| exact IH].
  apply String.eqb_eq in E. subst k'. rewrite Ef. reflexivity.
Qed.

Variables (lo hi : Z) (d : string).

Lemma add_points_mean (weight : Q) (t : Tally) (entry : string * Z) :
  (0 <= weight)%Q ->
  (fst entry = d -> lo <= snd entry <= hi) ->
  mean_between lo hi d t -> mean_between lo hi d (add_points weight t entry).
Proof.
  intros Hw Hp (s & c & Hs & Hc & Hc0 & Hl & Hh). unfold add_points.
  destruct (dict_get (t_scores t) (fst entry)) as [score|] eqn:E;
    [| exists s, c; auto].
  destruct (String.eqb (fst entry) d) eqn:Ed.
  - apply String.eqb_eq in Ed. destruct (Hp Ed) as [Hp1 Hp2].
    rewrite Ed in *. rewrite Hs in E. injection E as <-.
    exists (s + inject_Z (snd entry) * weight)%Q, (c + weight)%Q.
    cbn [t_scores t_counts]. rewrite !dict_get_set_same.
    unfold dict_get_default. rewrite Hc.
    assert (H1 : (inject_Z lo <= inject_Z (snd entry))%Q)
      by (rewrite <- Zle_Qle; exact Hp1).
    assert (H2 : (inject_Z (snd entry) <= inject_Z hi)%Q)
      by (rewrite <- Zle_Qle; exact Hp2).
    repeat split; try reflexivity; nra.
  - apply String.eqb_neq in Ed. exists s, c. cbn [t_scores t_counts].
    rewrite !dict_get_set_other by exact Ed. auto.
Qed.

Lemma weight_nonneg (n : nat) :
  (0 <= (if (0 <? n)%nat then 1 / inject_Z (Z.of_nat n) else 1))%Q.
Proof.
  destruct (0 <? n)%nat eqn:E; [| lra].
  apply Nat.ltb_lt in E. apply Qle_shift_div_l.
  - replace 0%Q with (inject_Z 0) by reflexivity. rewrite <- Zlt_Qlt. lia.
  - lra.
Qed.

Lemma find_option_In (options : list AnswerOption) (user_answer : string)
  (option : AnswerOption) :
  find_option options user_answer = Some option -> In option options.
Proof.
  induction options as [|o options IH]; simpl; [discriminate |].
  destruct (String.eqb (o_value o) user_answer).
  - intros [= <-]. left. reflexivity.
  - intros H. right. apply IH. exact H.
Qed.

Lemma tally_mean (questions : list Question) (answers : Dict answer) :
  In d dimensions ->
  points_between lo hi d questions ->
  mean_between lo hi d (fold_left (tally_question answers) questions initial).
Proof.
  intros Hd Hpts. apply (fold_left_inv (mean_between lo hi d)).
  - intros t question Hq Ht. unfold tally_question.
    destruct (selected_answers _) as [user_answers|]; [| exact Ht].
    apply (fold_left_inv (mean_between lo hi d)); [| exact Ht].
    intros t1 user_answer _ Ht1. unfold tally_answer.
    destruct (find_option _ _) as [selected_option|] eqn:Ef; [| exact Ht1].
    apply find_option_In in Ef.
    apply (fold_left_inv (mean_between lo hi d)); [| exact Ht1].
    intros t2 entry He Ht2. apply add_points_mean;
      [apply weight_nonneg | | exact Ht2].
    intros Hk. exact (Hpts _ _ _ Hq Ef He Hk).
  - exists 0%Q, 0%Q. simpl in Hd. unfold initial, dimensions.
    cbn [t_counts t_scores map].
    repeat (destruct Hd as [<- | Hd];
            [repeat split; try reflexivity; lra |]).
    contradiction.
Qed.

(** When every option gives a dimension between lo and hi points, the score
    of that dimension is the neutral 5 or lies between lo and hi, brought
    into the range from 1 to 10. *)
Theorem analyze_between_points (questions : list Question)
  (answers : Dict answer) :
  In d dimensions ->
  points_between lo hi d questions ->
  exists v,
    dict_get (analyze questions answers) d = Some v
    /\ (v = 5 \/ Z.max 1 (Z.min 10 lo) <= v <= Z.max 1 (Z.min 10 hi)).
Proof.
  intros Hd Hpts.
  destruct (tally_mean questions answers Hd Hpts)
    as (s & c & Hs & Hc & Hc0 & Hl & Hh).
  unfold analyze. rewrite dict_get_map_entry.
  2:{ intros e. unfold normalise_entry. destruct (Qlt_le_dec _ _); reflexivity. }
  rewrite Hs. eexists. split; [reflexivity |].
  unfold normalise_entry. cbn [fst snd]. unfold dict_get_default. rewrite Hc.
  destruct (Qlt_le_dec 0 c) as [Hpos | _]; [| left; reflexivity].
  right. cbn [snd].
  assert (H1 : (inject_Z lo <= s / c)%Q)
    by (apply Qle_shift_div_l; assumption).
  assert (H2 : (s / c <= inject_Z hi)%Q)
    by (apply Qle_shift_div_r; assumption).
  pose proof (round_half_even_between _ _ _ H1 H2). lia.
Qed.

End AnalyzerMean.

Lemma analyze_between_points_witness :
  exists v,
    dict_get (Analyzer.analyze Sample.questions Sample.answers) "eco_conscious"
    = Some v
    /\ (v = 5 \/ Z.max 1 (Z.min 10 4) <= v <= Z.max 1 (Z.min 10 7)).
Proof.
  apply (analyze_between_points 4 7 "eco_conscious").
  - simpl. tauto.
  - intros question option entry Hq Ho He Hd. simpl in Hq.
    repeat (destruct Hq as [<- | Hq];
            [simpl in Ho;
             repeat (destruct Ho as [<- | Ho];
                     [simpl in He;
                      repeat (destruct He as [<- | He];
                              [simpl in Hd |- *; try discriminate Hd; lia |]);
                      contradiction |]);
             contradiction |]).
    contradiction.
Defined.

(* ================================================================== *)
(** * The cost estimate *)
(* ================================================================== *)

Section CostEstimateFacts.
Import App.
Local Open Scope R_scope.

Lemma monthly_growth_gt_1 : 1 < 1 + interest_rate / 12.
Proof. unfold interest_rate. lra. Qed.

Lemma growth_pow_ge_1 (n : nat) : 1 <= (1 + interest_rate / 12) ^ n.
Proof. apply pow_R1_Rle. pose proof monthly_growth_gt_1. lra. Qed.

Lemma growth_pow_gt_1 (n : nat) : (0 < n)%nat -> 1 < (1 + interest_rate / 12) ^ n.
Proof.
  intros Hn. destruct n as [|n]; [lia |].
  pose proof (growth_pow_ge_1 n). pose proof monthly_growth_gt_1.
  simpl. nra.
Qed.

Lemma monthly_payment_none (loan_amount loan_term : Z) :
  monthly_payment loan_amount loan_term = None <-> loan_term = 0%Z.
Proof.
  unfold monthly_payment. pose proof monthly_growth_gt_1 as Hq.
  destruct (decide _) as [E | E]; split; try reflexivity; try discriminate.
  - intros _. destruct loan_term as [|p|p]; [reflexivity | |]; exfalso.
    + simpl in E. pose proof (growth_pow_gt_1 (Pos.to_nat p) (Pos2Nat.is_pos p)). lra.
    + simpl in E. pose proof (growth_pow_gt_1 (Pos.to_nat p) (Pos2Nat.is_pos p)) as H.
      assert (H1 : / (1 + interest_rate / 12) ^ Pos.to_nat p < 1).
      { pose proof (Rinv_r ((1 + interest_rate / 12) ^ Pos.to_nat p)
                      ltac:(lra)) as Hr.
        pose proof (Rinv_0_lt_compat ((1 + interest_rate / 12) ^ Pos.to_nat p)
                      ltac:(lra)) as Hp.
        nra. }
      lra.
  - intros ->. exfalso. apply E. simpl. lra.
Qed.

Lemma monthly_payment_pos_term (loan_amount : Z) (n : nat) :
  (0 < n)%nat ->
  monthly_payment loan_amount (Z.of_nat n)
  = Some (IZR loan_amount * (interest_rate / 12) * (1 + interest_rate / 12) ^ n
          / ((1 + interest_rate / 12) ^ n - 1)).
Proof.
  intros Hn. unfold monthly_payment. rewrite <- pow_powerRZ.
  pose proof (growth_pow_gt_1 n Hn).
  destruct (decide _) as [E | E]; [lra | reflexivity].
Qed.

Lemma outstanding_closed (loan_amount payment : R) (k : nat) :
  outstanding loan_amount payment k * (interest_rate / 12)
  = loan_amount * (1 + interest_rate / 12) ^ k * (interest_rate / 12)
    - payment * ((1 + interest_rate / 12) ^ k - 1).
Proof.
  induction k as [|k IH]; simpl; [ring |].
  replace ((outstanding loan_amount payment k * (1 + interest_rate / 12)
            - payment) * (interest_rate / 12))
    with (outstanding loan_amount payment k * (interest_rate / 12)
          * (1 + interest_rate / 12) - payment * (interest_rate / 12)) by ring.
  rewrite IH. ring.
Qed.



Lemma growth_bernoulli (n : nat) :
  (1 + interest_rate / 12) ^ n - 1
  <= INR n * (interest_rate / 12) * (1 + interest_rate / 12) ^ n.
Proof.
  pose proof monthly_growth_gt_1 as Hq.
  induction n as [|n IH]; [simpl; lra |].
  rewrite S_INR. pose proof (growth_pow_ge_1 n) as Hg.
  pose proof (pos_INR n) as Hn. simpl.
  set (g := (1 + interest_rate / 12) ^ n) in *.
  set (r := interest_rate / 12) in *.
  assert (H1 : 0 <= INR n * r * g) by (apply Rmult_le_pos; [apply Rmult_le_pos |]; lra).
  nra.
Qed.

Lemma round2_integer (k : Z) : round2 (IZR k) = IZR k.
Proof.
  replace (IZR k) with (IZR (k * 100) / 100) at 1
    by (rewrite mult_IZR; field).
  rewrite round2_hundredths, mult_IZR. field.
Qed.

Lemma monthly_payment_covers (loan_amount : Z) (n : nat) (payment : R) :
  (0 < n)%nat -> (0 <= loan_amount)%Z ->
  monthly_payment loan_amount (Z.of_nat n) = Some payment ->
  0 <= payment /\ IZR loan_amount <= payment * INR n.
Proof.
  intros Hn HL. rewrite (monthly_payment_pos_term _ _ Hn). intros [= <-].
  pose proof (growth_pow_gt_1 n Hn) as Hg.
  pose proof (growth_bernoulli n) as Hb.
  apply IZR_le in HL.
  assert (Hr : 0 < interest_rate / 12) by (unfold interest_rate; lra).
  set (g := (1 + interest_rate / 12) ^ n) in *.
  set (r := interest_rate / 12) in *.
  assert (Hd : 0 < / (g - 1)) by (apply Rinv_0_lt_compat; lra).
  split.
  - unfold Rdiv. repeat apply Rmult_le_pos; lra.
  - replace (IZR loan_amount * r * g / (g - 1) * INR n)
      with (IZR loan_amount * ((INR n * r * g) * / (g - 1)))
      by (field; lra).
    assert (H1 : 1 <= INR n * r * g * / (g - 1)).
    { apply (Rmult_le_reg_r (g - 1)); [lra |].
      rewrite Rmult_assoc, Rinv_l by lra. lra. }
    nra.
Qed.

(** An estimate for a loan amount that is not negative, over a positive
    term, has a monthly payment and a total interest that are not negative,
    and a total cost of at least the price less the trade-in. *)
Theorem cost_estimate_never_below_price (cars : list Car) (car_id : string)
  (data : option EstimateRequest) (e : Estimate) :
  get_cost_estimate cars car_id data = Success e ->
  (0 <= e_loan_amount e)%Z -> (0 < e_loan_term_months e)%Z ->
  0 <= e_monthly_payment e
  /\ 0 <= e_total_interest e
  /\ IZR (e_msrp e - e_trade_in_value e) <= e_total_cost e.
Proof.
  unfold get_cost_estimate. destruct data as [data|]; [| discriminate].
  destruct (get_car_by_id cars car_id) as [car|]; [| discriminate].
  destruct (monthly_payment _ _) as [payment|] eqn:Ep; [| discriminate].
  destruct (insurance_annual_estimate _); [| discriminate].
  destruct (maintenance_annual_estimate _); [| discriminate].
  destruct (_ =? _)%Z; [discriminate |].
  intros [= <-]. cbn [e_loan_amount e_loan_term_months e_monthly_payment
                      e_total_interest e_total_cost e_msrp e_trade_in_value].
  intros HL Hn.
  set (loan_term := get_or (r_loan_term data) 60%Z) in *.
  set (trade_in := get_or (r_trade_in_value data) 0%Z) in *.
  set (down_payment := get_or (r_down_payment data) 0%Z) in *.
  rewrite <- (Z2Nat.id loan_term) in Ep by lia.
  destruct (monthly_payment_covers _ (Z.to_nat loan_term) payment
              ltac:(lia) HL Ep) as [Hp Hc].
  rewrite INR_IZR_INZ, Z2Nat.id in Hc by lia.
  rewrite !minus_IZR in Hc.
  rewrite <- (round2_integer 0).
  rewrite <- (round2_integer (msrp (basic_info car) - trade_in)).
  rewrite minus_IZR.
  repeat split; apply round2_mono; lra.
Qed.

Lemma cost_estimate_never_below_price_witness :
  exists e,
    get_cost_estimate Sample.catalog "civic"
      (Some Sample.estimate_request) = Success e
    /\ 0 <= e_monthly_payment e
    /\ 0 <= e_total_interest e
    /\ IZR (e_msrp e - e_trade_in_value e) <= e_total_cost e.
Proof.
  pose proof (monthly_payment_pos_term 17000 60 ltac:(lia)) as Hm.
  change (Z.of_nat 60) with 60%Z in Hm.
  assert (H : exists e,
             get_cost_estimate Sample.catalog "civic"
               (Some Sample.estimate_request) = Success e
             /\ e_loan_amount e = 17000%Z /\ e_loan_term_months e = 60%Z).
  { eexists. split; [| split].
    - unfold get_cost_estimate.
      cbn [Sample.estimate_request get_or r_trade_in_value r_down_payment
           r_loan_term].
      change (get_car_by_id Sample.catalog "civic") with (Some Sample.sedan).
      cbn [Sample.sedan basic_info msrp costs insurance_annual_estimate
           maintenance_annual_estimate specifications mpg_combined make model].
      change (25000 - 5000 - 3000)%Z with 17000%Z.
      rewrite Hm. change (36 =? 0)%Z with false. cbv iota. reflexivity.
    - reflexivity.
    - reflexivity. }
  destruct H as (e & He & HL & Hn). exists e. split; [exact He |].
  apply (cost_estimate_never_below_price _ _ _ _ He); lia.
Defined.

(** The estimate route answers 500 to a request without a body, 404 exactly
    when the catalog has no car of the id, and 500 for a known car when the
    term is 0 months, when the car lacks one of the two cost figures, or when
    its mpg_combined is 0. *)
Theorem cost_estimate_failures (cars : list Car) (car_id : string)
  (data : EstimateRequest) :
  get_cost_estimate cars car_id None = Failure 500
  /\ (get_cost_estimate cars car_id (Some data) = Failure 404
      <-> get_car_by_id cars car_id = None)
  /\ (forall car,
        get_car_by_id cars car_id = Some car ->
        r_loan_term data = Some 0%Z
        \/ insurance_annual_estimate (costs car) = None
        \/ maintenance_annual_estimate (costs car) = None
        \/ mpg_combined (specifications car) = 0%Z ->
        get_cost_estimate cars car_id (Some data) = Failure 500).
Proof.
  split; [reflexivity |]. unfold get_cost_estimate. split.
  - destruct (get_car_by_id cars car_id) as [car|]; [| tauto].
    split; [| discriminate].
    destruct (monthly_payment _ _); [| discriminate].
    destruct (insurance_annual_estimate _); [| discriminate].
    destruct (maintenance_annual_estimate _); [| discriminate].
    destruct (_ =? _)%Z; discriminate.
  - intros car -> Hbad.
    destruct (monthly_payment _ _) as [payment|] eqn:Ep; [| reflexivity].
    destruct Hbad as [Ht | [Hi | [Hm | Hz]]].
    + rewrite Ht in Ep. cbn [get_or] in Ep.
      rewrite (proj2 (monthly_payment_none _ 0%Z) eq_refl) in Ep.
      discriminate Ep.
    + rewrite Hi. reflexivity.
    + rewrite Hm. destruct (insurance_annual_estimate _); reflexivity.
    + rewrite Hz. destruct (insurance_annual_estimate _);
        [destruct (maintenance_annual_estimate _) |]; reflexivity.
Qed.

Lemma cost_estimate_failures_witness :
  get_cost_estimate Sample.catalog "supra" (Some Sample.estimate_request)
  = Failure 500.
Proof.
  apply (proj2 (proj2 (cost_estimate_failures Sample.catalog "supra"
                         Sample.estimate_request)) Sample.sports_coupe).
  - reflexivity.
  - right. left. reflexivity.
Defined.

End CostEstimateFacts.

(* ================================================================== *)
(** * The safety filter of the chat route *)
(* ================================================================== *)

Section CleanResponse.
Import App.
Local Open Scope nat_scope.

(** The greedy [\s*] before a continuation that accepts takes the whole run
    of whitespace. *)
Lemma star_space_run (s : string) (p : nat) (g : list (nat * string)) :
  exists k,
    Re.star Re.Space s p g Some
    = Some {| Re.rest := PyStr.lstrip s; Re.pos := p + k; Re.groups := g |}
    /\ String.length s = k + String.length (PyStr.lstrip s).
Proof.
  revert p. induction s as [|c s IH]; intros p; simpl.
  - exists 0%nat. rewrite Nat.add_0_r. split; reflexivity.
  - destruct (PyStr.is_space c) eqn:Ec.
    + destruct (IH (S p)) as (k & -> & Hk). exists (S k). split.
      * f_equal. f_equal. lia.
      * lia.
    + exists 0%nat. rewrite Nat.add_0_r. split; reflexivity.
Qed.

Lemma match_space_run (c : ascii) (s : string) (p : nat) :
  Re.match_at (Re.plus Re.Space) (String c s) p
  = if PyStr.is_space c
    then Some {| Re.m_start := p;
                 Re.m_end := S p + (String.length s
                                    - String.length (PyStr.lstrip s));
                 Re.m_groups := [] |}
    else None.
Proof.
  unfold Re.match_at, Re.plus.
  cbn [Re.run Re.rest Re.pos Re.groups Re.cls_match].
  destruct (PyStr.is_space c); [| reflexivity].
  destruct (star_space_run s (S p) []) as (k & -> & Hk).
  cbn [Re.pos Re.groups]. do 2 f_equal. lia.
Qed.

Lemma lstrip_no_space (s : string) : starts_with_space (PyStr.lstrip s) = false.
Proof.
  induction s as [|c s IH]; simpl; [reflexivity |].
  destruct (PyStr.is_space c) eqn:Ec; [exact IH | simpl; exact Ec].
Qed.

Lemma lstrip_length (s : string) :
  (String.length (PyStr.lstrip s) <= String.length s)%nat.
Proof.
  induction s as [|c s IH]; simpl; [lia |].
  destruct (PyStr.is_space c); simpl; lia.
Qed.

(** Passing the run of whitespace behind a first whitespace character. *)
Lemma sub_from_skip (r : Re.regex) (repl : string) (s : string) (p : nat) :
  exists p',
    sub_from r repl s p (String.length s - String.length (PyStr.lstrip s))
    = sub_from r repl (PyStr.lstrip s) p' 0.
Proof.
  revert p. induction s as [|c s IH]; intros p.
  - exists p. reflexivity.
  - cbn [PyStr.lstrip]. destruct (PyStr.is_space c) eqn:Ec.
    + pose proof (lstrip_length s) as Hl.
      replace (String.length (String c s) - String.length (PyStr.lstrip s))%nat
        with (S (String.length s - String.length (PyStr.lstrip s)))
        by (simpl; lia).
      cbn [sub_from]. apply IH.
    + rewrite Nat.sub_diag. exists p. reflexivity.
Qed.

Lemma collapse_single_spaced (n : nat) :
  forall s p, (String.length s <= n)%nat ->
    single_spaced (sub_from (Re.plus Re.Space) " " s p 0) = true
    /\ (starts_with_space s = false ->
        starts_with_space (sub_from (Re.plus Re.Space) " " s p 0) = false).
Proof.
  induction n as [|n IH]; intros s p Hn.
  - destruct s; [split; reflexivity | simpl in Hn; lia].
  - destruct s as [|c s]; [split; reflexivity |].
    cbn [sub_from]. rewrite match_space_run.
    destruct (PyStr.is_space c) eqn:Ec.
    + cbn [Re.m_start Re.m_end].
      replace (p <? S p + (String.length s - String.length (PyStr.lstrip s)))%nat
        with true by (symmetry; apply Nat.ltb_lt; lia).
      replace (S p + (String.length s - String.length (PyStr.lstrip s)) - p - 1)%nat
        with (String.length s - String.length (PyStr.lstrip s))%nat by lia.
      destruct (sub_from_skip (Re.plus Re.Space) " " s (S p)) as [p' ->].
      pose proof (lstrip_length s) as Hl. simpl in Hn.
      destruct (IH (PyStr.lstrip s) p' ltac:(lia)) as [H1 H2].
      specialize (H2 (lstrip_no_space s)).
      split; [| cbn [starts_with_space]; rewrite Ec; intros H; discriminate H].
      change (" " ++ ?x)%string with (String " "%char x).
      cbn [single_spaced]. rewrite H1, H2. reflexivity.
    + simpl in Hn. destruct (IH s (S p) ltac:(lia)) as [H1 H2].
      split.
      * cbn [single_spaced]. rewrite Ec, H1. reflexivity.
      * intros _. simpl. exact Ec.
Qed.

Lemma single_spaced_tail (c : ascii) (s : string) :
  single_spaced (String c s) = true -> single_spaced s = true.
Proof. cbn [single_spaced]. intros H. apply andb_prop in H. apply H. Qed.

Lemma lstrip_single_spaced (s : string) :
  single_spaced s = true -> single_spaced (PyStr.lstrip s) = true.
Proof.
  induction s as [|c s IH]; [reflexivity |]. intros H. cbn [PyStr.lstrip].
  destruct (PyStr.is_space c); [| exact H].
  apply IH. exact (single_spaced_tail _ _ H).
Qed.

Lemma rstrip_start (s : string) :
  starts_with_space s = false -> starts_with_space (PyStr.rstrip s) = false.
Proof.
  destruct s as [|c s]; [reflexivity |]. simpl. intros Ec.
  destruct (PyStr.rstrip s); [rewrite Ec |]; simpl; exact Ec.
Qed.

Lemma rstrip_start_le (s : string) :
  starts_with_space (PyStr.rstrip s) = true -> starts_with_space s = true.
Proof.
  intros H. destruct (starts_with_space s) eqn:E; [reflexivity |].
  rewrite (rstrip_start s E) in H. discriminate H.
Qed.

Lemma rstrip_single_spaced (s : string) :
  single_spaced s = true -> single_spaced (PyStr.rstrip s) = true.
Proof.
  induction s as [|c s IH]; [reflexivity |]. intros H.
  pose proof (single_spaced_tail _ _ H) as Ht. specialize (IH Ht).
  cbn [PyStr.rstrip]. destruct (PyStr.rstrip s) as [|d r] eqn:Er.
  - destruct (PyStr.is_space c) eqn:Ec; [reflexivity |].
    cbn [single_spaced]. rewrite Ec. reflexivity.
  - cbn [single_spaced] in H |- *. apply andb_prop in H. destruct H as [Hc _].
    change (single_spaced (String d r) = true) in IH.
    cbn [single_spaced] in IH. rewrite IH, andb_true_r.
    destruct (PyStr.is_space c); [| reflexivity].
    apply andb_prop in Hc. destruct Hc as [Hb Hs]. rewrite Hb. simpl.
    destruct (PyStr.is_space d) eqn:Ed; [| reflexivity].
    assert (Hd : starts_with_space (PyStr.rstrip s) = true)
      by (rewrite Er; exact Ed).
    apply rstrip_start_le in Hd. rewrite Hd in Hs. discriminate Hs.
Qed.

Lemma rstrip_no_space (s : string) : ends_with_space (PyStr.rstrip s) = false.
Proof.
  induction s as [|c s IH]; [reflexivity |]. cbn [PyStr.rstrip].
  destruct (PyStr.rstrip s) as [|d r] eqn:Er.
  - destruct (PyStr.is_space c) eqn:Ec; [reflexivity | simpl; exact Ec].
  - exact IH.
Qed.

Lemma clean_response_shape (ai_response : string) :
  single_spaced (clean_response ai_response) = true
  /\ starts_with_space (clean_response ai_response) = false
  /\ ends_with_space (clean_response ai_response) = false.
Proof.
  unfold clean_response, PyStr.strip, sub.
  set (s := sub_from (seqs _) "" _ 0 0).
  destruct (collapse_single_spaced (String.length s) s 0%nat (le_n _))
    as [H1 _].
  split; [| split].
  - apply rstrip_single_spaced, lstrip_single_spaced, H1.
  - apply rstrip_start, lstrip_no_space.
  - apply rstrip_no_space.
Qed.

(** The cleaned reply, which the chat route stores and returns, neither
    starts nor ends with whitespace, and its only whitespace characters are
    blanks that stand alone. *)
Theorem clean_response_is_tidy (ai_response : string) :
  single_spaced (clean_response ai_response) = true
  /\ starts_with_space (clean_response ai_response) = false
  /\ ends_with_space (clean_response ai_response) = false.
Proof. exact (clean_response_shape ai_response). Qed.

End CleanResponse.

(* ================================================================== *)
(** * The sessions of the chat route *)
(* ================================================================== *)

Section ChatSessions.
Import App.
Variable cars : list Car.
Variable generate_response : Prompt -> string.

Lemma find_matches_at_most (profile : Profile) (budget : option Z)
  (ctx : option (list message)) (top_n : Z) (res : list ScoredCar) :
  0 <= top_n ->
  find_matches cars profile budget ctx top_n = Some res -> len res <= top_n.
Proof.
  intros Hn. unfold find_matches.
  destruct (collect_matches cars _ _ budget); [| discriminate].
  intros [= <-]. apply py_prefix_length. exact Hn.
Qed.

(** The chat route answers 400 exactly when the request names no existing
    session, and then, as for a request without a body, the sessions are as
    they were. *)
Theorem chat_rejects_unknown_session (sessions : Dict Session)
  (data : ChatRequest) :
  chat cars generate_response sessions None = (Failure 500, sessions)
  /\ (fst (chat cars generate_response sessions (Some data)) = Failure 400
      <-> names_session sessions data = false)
  /\ (names_session sessions data = false ->
      chat cars generate_response sessions (Some data)
      = (Failure 400, sessions)).
Proof.
  split; [reflexivity |]. unfold chat, names_session, dict_mem.
  destruct (c_session_id data) as [session_id|]; [| repeat split].
  destruct (PyStr.truthy session_id); cbn [negb andb]; [| repeat split].
  destruct (dict_get sessions session_id) as [session|]; [| repeat split].
  split; [| intros H; discriminate H].
  split; [| intros H; discriminate H].
  destruct (c_message data); [| intros H; discriminate H].
  destruct (find_matches _ _ _ _ _); intros H; discriminate H.
Qed.

(** A successful chat request appends the user turn and the assistant
    turn to the history of its session, stores the ranking it returns, which
    has at most four cars, and leaves the profile and the other sessions as
    they were. *)
Theorem chat_success_records_turns (sessions sessions' : Dict Session)
  (data : ChatRequest) (reply : ChatReply) :
  chat cars generate_response sessions (Some data) = (Success reply, sessions') ->
  exists session_id session user_message,
    c_session_id data = Some session_id
    /\ c_message data = Some user_message
    /\ dict_get sessions session_id = Some session
    /\ dict_get sessions' session_id
       = Some {| lifestyle_profile := lifestyle_profile session;
                 conversation_history :=
                   conversation_history session
                   ++ [user_turn user_message;
                       assistant_turn (reply_response reply)];
                 recommended_cars := reply_recommended_cars reply |}
    /\ find_matches cars (lifestyle_profile session) (c_budget data)
         (Some (conversation_history session ++ [user_turn user_message])) 4
       = Some (reply_recommended_cars reply)
    /\ len (reply_recommended_cars reply) <= 4
    /\ dict_keys sessions' = dict_keys sessions
    /\ forall other, other <> session_id ->
         dict_get sessions' other = dict_get sessions other.
Proof.
  unfold chat.
  destruct (c_session_id data) as [session_id|]; [| discriminate].
  destruct (PyStr.truthy session_id); cbn [negb]; [| discriminate].
  destruct (dict_get sessions session_id) as [session|] eqn:Es;
    [| discriminate].
  destruct (c_message data) as [user_message|]; [| discriminate].
  destruct (find_matches _ _ _ _ _) as [matched_cars|] eqn:Ef;
    [| discriminate].
  intros [= <- <-]. exists session_id, session, user_message.
  cbn [reply_response reply_recommended_cars].
  split; [reflexivity |]. split; [reflexivity |]. split; [exact Es |].
  split; [rewrite dict_get_set_same, <- app_assoc; reflexivity |].
  split; [exact Ef |].
  split; [apply (find_matches_at_most _ _ _ 4 _ ltac:(lia) Ef) |].
  split.
  - erewrite dict_set_keys; [erewrite dict_set_keys; [reflexivity | exact Es] |].
    apply dict_get_set_same.
  - intros other Hne.
    rewrite !dict_get_set_other by (intros H; apply Hne; symmetry; exact H).
    reflexivity.
Qed.

Lemma continues_refl (n : nat) (session : Session) : continues n session session.
Proof.
  split; [reflexivity |]. exists []. rewrite app_nil_r. split; [reflexivity |].
  simpl. lia.
Qed.


End ChatSessions.

Lemma chat_rejects_unknown_session_witness :
  App.chat Sample.catalog (fun _ => "Hello") []
    (Some Sample.chat_request) = (App.Failure 400, []).
Proof.
  apply (proj2 (proj2 (chat_rejects_unknown_session Sample.catalog
                         (fun _ => "Hello") [] Sample.chat_request))).
  reflexivity.
Defined.

Lemma sample_chat_succeeds :
  exists reply sessions',
    App.chat Sample.catalog (fun _ => "Hello") Sample.sessions
      (Some Sample.chat_request) = (App.Success reply, sessions').
Proof.
  destruct (find_matches_defined Sample.catalog Sample.profile (Some 35000)
              Sample.kids_turn 4 sample_catalog_divisors) as [res Hres].
  unfold App.chat.
  cbn [Sample.chat_request App.c_session_id App.c_message App.c_budget].
  change (negb (PyStr.truthy "session_1")) with false. cbv iota.
  change (dict_get Sample.sessions "session_1") with (Some Sample.session).
  cbv iota beta zeta.
  change (find_matches Sample.catalog (App.lifestyle_profile Sample.session)
            (Some 35000)
            (Some (App.conversation_history Sample.session
                   ++ [App.user_turn "under $40k and I need room for my kids"]))
            4)
    with (find_matches Sample.catalog Sample.profile (Some 35000)
            Sample.kids_turn 4).
  rewrite Hres. eexists. eexists. reflexivity.
Qed.

Lemma chat_success_records_turns_witness :
  exists reply sessions',
    App.chat Sample.catalog (fun _ => "Hello") Sample.sessions
      (Some Sample.chat_request) = (App.Success reply, sessions')
    /\ App.conversation_history
         <$> dict_get sessions' "session_1"
       = Some [App.user_turn "under $40k and I need room for my kids";
               App.assistant_turn (App.reply_response reply)].
Proof.
  destruct sample_chat_succeeds as (reply & sessions' & Hc).
  exists reply, sessions'. split; [exact Hc |].
  destruct (chat_success_records_turns _ _ _ _ _ _ Hc)
    as (sid & session & user_message & Hsid & Hmsg & Hs & Hs' & _).
  injection Hsid as <-. injection Hmsg as <-.
  rewrite Hs'. cbn in Hs. injection Hs as <-. reflexivity.
Defined.


(** The analysis route opens a session under the id it returns, with the
    analysed profile and an empty history; the other sessions are as they
    were; and the chat route accepts the new session. *)
Theorem analysis_opens_session (questions : list Analyzer.Question)
  (timestamp : string) (sessions : Dict App.Session)
  (data : App.AnalyzeRequest) :
  let session_id := ("session_" ++ timestamp)%string in
  let profile := Analyzer.analyze questions (get_or (App.a_answers data) []) in
  exists sessions',
    App.analyze_personality questions timestamp sessions (Some data)
    = (App.Success (session_id, profile), sessions')
    /\ dict_get sessions' session_id
       = Some {| App.lifestyle_profile := profile;
                 App.conversation_history := [];
                 App.recommended_cars := [] |}
    /\ (forall other, other <> session_id ->
          dict_get sessions' other = dict_get sessions other)
    /\ (forall cars generate_response message budget,
          fst (App.chat cars generate_response sessions'
                 (Some {| App.c_session_id := Some session_id;
                          App.c_message := message;
                          App.c_budget := budget |}))
          <> App.Failure 400).
Proof.
  intros session_id profile. eexists. split; [reflexivity |].
  split; [apply dict_get_set_same |]. split.
  - intros other Hne. apply dict_get_set_other.
    intros H. apply Hne. symmetry. exact H.
  - intros cars generate_response message budget. unfold App.chat.
    cbn [App.c_session_id App.c_message App.c_budget].
    change (negb (PyStr.truthy session_id)) with false. cbv iota.
    rewrite dict_get_set_same.
    destruct message; [| intros H; discriminate H].
    destruct (find_matches _ _ _ _ _); intros H; discriminate H.
Qed.
